(** * megalodon: the Mastodon REST wrapper and the realtime streaming core

    The first half of this development embeds the [Mastodon] class of the
    TypeScript source (its REST wrapper methods) as functions that build a
    request-parameter object and hand one request to the API client.  The
    second half models the realtime streaming core described by the
    specification (backoff, connection state machine, multiplexer,
    dispatcher, polling fallback), whose implementation is not part of the
    available sources.

    Layout: all definitions come first (modules [Js], [Mastodon],
    [Streaming], [MastodonTables]), the theorems follow (modules
    [MastodonFacts], [StreamingFacts], [MastodonExtras]). *)

From stdpp Require Import gmap strings list fin_maps sorting.
From Stdlib Require Import ZArith.

Set Warnings "-register-all,-clear-no-such-hyp".
Open Scope Z_scope.

(* ===================================================================== *)
(** ** JavaScript values, truthiness and [Object.assign]                   *)
(* ===================================================================== *)
Module Js.

(** The run-time values the wrapper methods receive and put into request
    parameters.  A JS [number] is kept as an integer or [NaN]: the only
    operation the wrappers apply to a number is the truthiness test, for
    which the fractional part is irrelevant. *)
Inductive value : Type :=
| VUndefined
| VNull
| VBool (b : bool)
| VNum (n : Z)
| VNaN
| VStr (s : string)
| VArr (l : list value)
| VObj (o : gmap string value).

(** A plain object: string keys, no duplicates. *)
Abbreviation obj := (gmap string value).

(** [if (v)]: ECMAScript ToBoolean. *)
Definition truthy (v : value) : bool :=
  match v with
  | VUndefined | VNull | VNaN => false
  | VBool b => b
  | VNum n => negb (n =? 0)
  | VStr s => negb (String.eqb s "")
  | VArr _ | VObj _ => true
  end.

(** [v !== null]. *)
Definition not_null (v : value) : bool :=
  match v with
  | VNull => false
  | _ => true
  end.

(** [Object.assign(target, source)]: every own key of [source] is written
    into [target], overriding a key that is already there. *)
Definition Object_assign (target source : obj) : obj := source ∪ target.

(** A default parameter [x = d]: the default applies when the argument is
    missing or is passed as [undefined]. *)
Definition default_arg (d v : value) : value :=
  match v with
  | VUndefined => d
  | _ => v
  end.

(** Property read [v.k] where [v] is not nullish: an own key of an object,
    [undefined] otherwise. *)
Definition get_prop (v : value) (k : string) : value :=
  match v with
  | VObj o => default VUndefined (o !! k)
  | _ => VUndefined
  end.

End Js.

(* ===================================================================== *)
(** ** The [Mastodon] class (REST wrappers)                                *)
(* ===================================================================== *)
Module Mastodon.
Import Js.

Definition NO_REDIRECT : string := "urn:ietf:wg:oauth:2.0:oob".
Definition DEFAULT_URL : string := "https://mastodon.social".
Definition DEFAULT_SCOPE : string := "read write follow".
Definition DEFAULT_UA : string := "megalodon".

(** An object literal [{k1: v1, ..., kn: vn}]: the keys are written left to
    right, a later duplicate overriding an earlier one. *)
Definition object_literal (kvs : list (string * value)) : obj :=
  foldl (fun o kv => <[ kv.1 := kv.2 ]> o) ∅ kvs.

(** The five HTTP methods of the API client. *)
Inductive verb : Type := GET | POST | PUT | PATCH | DEL.

(** The API client is imported from [./api_client]; of it the class uses
    the constructor and the five request methods.  An instance is
    identified with its constructor arguments. *)
Record APIClient : Type := new_APIClient {
  accessToken : string;
  baseUrl : string;
  userAgent : string;
  proxyConfig : value
}.

(** One request handed to a client: the receiving instance, the HTTP
    method called on it, the path, and the parameter object when the call
    passes one. *)
Record request : Type := Request {
  via : APIClient;
  method : verb;
  path : string;
  params : option obj
}.

(** The instance state of the class: its only field. *)
Record Mastodon : Type := { client : APIClient }.

(** [constructor(accessToken, baseUrl = DEFAULT_URL, userAgent = DEFAULT_UA,
    proxyConfig = false)].  A string argument that is left out or
    [undefined] is [None]; [proxyConfig] is a value, of which [undefined]
    (left out or passed) takes the default. *)
Definition constructor (accessToken : string) (baseUrl userAgent : option string)
    (proxyConfig : value) : Mastodon :=
  {| client := new_APIClient accessToken (default DEFAULT_URL baseUrl)
                 (default DEFAULT_UA userAgent)
                 (default_arg (VBool false) proxyConfig) |}.

(** What a method body can touch: the receiver [this] and the requests
    handed to API clients so far, oldest first. *)
Record world : Type := World {
  this : Mastodon;
  wire : list request
}.

(** The promise a client method returns, named by the position of its
    request on the wire. *)
Inductive promise : Type := ResponseOf (n : nat).

(** Method bodies: state passing over [world]. *)
Definition M (A : Type) : Type := world -> A * world.

Definition ret {A} (a : A) : M A := fun w => (a, w).

Definition bind {A B} (m : M A) (k : A -> M B) : M B :=
  fun w => let (a, w') := m w in k a w'.

(** [this.client.<verb>(path, params)]: reads the [client] field and hands
    it one request; [None] is a call with the path alone. *)
Definition client_call (v : verb) (p : string) (ps : option obj) : M promise :=
  fun w =>
    (ResponseOf (length (wire w)),
     {| this := this w;
        wire := wire w ++ [ {| via := client (this w); method := v;
                                path := p; params := ps |} ] |}).

Definition client_get := client_call GET.
Definition client_post := client_call POST.
Definition client_put := client_call PUT.
Definition client_patch := client_call PATCH.
Definition client_del := client_call DEL.

(** *** Static helpers

    The six static methods do not use an instance: five delegate to a
    static helper of [APIClient] with the same name, [revokeToken] calls the
    static [APIClient.post].  A string argument that is left out or
    [undefined] is [None]; [options] and [proxyConfig] are values, of which
    [undefined] (left out or passed) takes the default. *)
Inductive static_call : Type :=
| APIClient_registerApp (clientName : string) (options : value)
    (baseUrl : string) (proxyConfig : value)
| APIClient_createApp (client_name : string) (options : value)
    (baseUrl : string) (proxyConfig : value)
| APIClient_generateAuthUrl (clientId clientSecret : string) (options : value)
    (baseUrl : string)
| APIClient_fetchAccessToken (client_id client_secret code baseUrl redirect_uri : string)
    (proxyConfig : value)
| APIClient_refreshToken (client_id client_secret refresh_token baseUrl : string)
    (proxyConfig : value)
| APIClient_post (path : string) (params : obj) (baseUrl : string)
    (proxyConfig : value).

Definition registerApp (clientName : string) (options : value)
    (baseUrl : option string) (proxyConfig : value) : static_call :=
  let options :=
    default_arg (VObj (object_literal [("scopes", VStr DEFAULT_SCOPE);
                                       ("redirect_uris", VStr NO_REDIRECT)]))
      options in
  APIClient_registerApp clientName options (default DEFAULT_URL baseUrl)
    (default_arg (VBool false) proxyConfig).

Definition createApp (client_name : string) (options : value)
    (baseUrl : option string) (proxyConfig : value) : static_call :=
  let options :=
    default_arg (VObj (object_literal [("redirect_uris", VStr NO_REDIRECT);
                                       ("scopes", VStr DEFAULT_SCOPE)]))
      options in
  APIClient_createApp client_name options (default DEFAULT_URL baseUrl)
    (default_arg (VBool false) proxyConfig).

Definition generateAuthUrl (clientId clientSecret : string) (options : value)
    (baseUrl : option string) : static_call :=
  let options :=
    default_arg (VObj (object_literal [("redirect_uri", VStr NO_REDIRECT);
                                       ("scope", VStr DEFAULT_SCOPE)]))
      options in
  APIClient_generateAuthUrl clientId clientSecret options (default DEFAULT_URL baseUrl).

Definition fetchAccessToken (client_id client_secret code : string)
    (baseUrl redirect_uri : option string) (proxyConfig : value) : static_call :=
  APIClient_fetchAccessToken client_id client_secret code
    (default DEFAULT_URL baseUrl) (default NO_REDIRECT redirect_uri)
    (default_arg (VBool false) proxyConfig).

Definition refreshToken (client_id client_secret refresh_token : string)
    (baseUrl : option string) (proxyConfig : value) : static_call :=
  APIClient_refreshToken client_id client_secret refresh_token
    (default DEFAULT_URL baseUrl) (default_arg (VBool false) proxyConfig).

Definition revokeToken (client_id client_secret token : string)
    (baseUrl : option string) (proxyConfig : value) : static_call :=
  APIClient_post "/oauth/revoke"
    (object_literal [("client_id", VStr client_id);
                     ("client_secret", VStr client_secret);
                     ("token", VStr token)])
    (default DEFAULT_URL baseUrl) (default_arg (VBool false) proxyConfig).

(** One constructor per public static method, carrying its actual
    arguments. *)
Inductive static_invocation : Type :=
| Call_registerApp (clientName : string) (options : value)
    (baseUrl : option string) (proxyConfig : value)
| Call_createApp (client_name : string) (options : value)
    (baseUrl : option string) (proxyConfig : value)
| Call_generateAuthUrl (clientId clientSecret : string) (options : value)
    (baseUrl : option string)
| Call_fetchAccessToken (client_id client_secret code : string)
    (baseUrl redirect_uri : option string) (proxyConfig : value)
| Call_refreshToken (client_id client_secret refresh_token : string)
    (baseUrl : option string) (proxyConfig : value)
| Call_revokeToken (client_id client_secret token : string)
    (baseUrl : option string) (proxyConfig : value).

(** The static method a call runs. *)
Definition invoke_static (s : static_invocation) : static_call :=
  match s with
  | Call_registerApp n o u p => registerApp n o u p
  | Call_createApp n o u p => createApp n o u p
  | Call_generateAuthUrl i k o u => generateAuthUrl i k o u
  | Call_fetchAccessToken i k c u r p => fetchAccessToken i k c u r p
  | Call_refreshToken i k t u p => refreshToken i k t u p
  | Call_revokeToken i k t u p => revokeToken i k t u p
  end.

(** *** Instance methods

    Every argument that the body only tests and stores is a [value]; an
    [id] spliced into the path is a [string], as its signature says. *)

(** [GET /api/v1/apps/verify_credentials]. *)
Definition verifyAppCredentails : M promise :=
  client_get "/api/v1/apps/verify_credentials" None.

(** [POST /api/v1/accounts]. *)
Definition registerAccount
    (username email password agreement locale reason : value)
  : M promise :=
  let params : obj := object_literal [("username", username);
        ("email", email);
        ("password", password);
        ("agreement", agreement);
        ("locale", locale)] in
  let params :=
    if truthy reason
    then Object_assign params (object_literal [("reason", reason)])
    else params in
  client_post "/api/v1/accounts" (Some params).

(** [GET /api/v1/accounts/verify_credentials]. *)
Definition verifyAccountCredentials : M promise :=
  client_get "/api/v1/accounts/verify_credentials" None.

(** [PATCH /api/v1/accounts/update_credentials]. *)
Definition updateCredentials
    (discoverable bot display_name note avatar header locked source fields_attributes : value)
  : M promise :=
  let params : obj := ∅ in
  let params :=
    if truthy discoverable
    then Object_assign params (object_literal [("discoverable", discoverable)])
    else params in
  let params :=
    if not_null bot
    then Object_assign params (object_literal [("bot", bot)])
    else params in
  let params :=
    if truthy display_name
    then Object_assign params (object_literal [("display_name", display_name)])
    else params in
  let params :=
    if truthy note
    then Object_assign params (object_literal [("note", note)])
    else params in
  let params :=
    if truthy avatar
    then Object_assign params (object_literal [("avatar", avatar)])
    else params in
  let params :=
    if truthy header
    then Object_assign params (object_literal [("header", header)])
    else params in
  let params :=
    if not_null locked
    then Object_assign params (object_literal [("locked", locked)])
    else params in
  let params :=
    if truthy source
    then Object_assign params (object_literal [("source", source)])
    else params in
  let params :=
    if truthy fields_attributes
    then Object_assign params (object_literal [("fields_attributes", fields_attributes)])
    else params in
  client_patch "/api/v1/accounts/update_credentials" (Some params).

(** [GET /api/v1/accounts/:id]. *)
Definition getAccount (id : string) : M promise :=
  client_get ("/api/v1/accounts/" +:+ id) None.

(** [GET /api/v1/accounts/:id/statuses]. *)
Definition getAccountStatuses (id : string) : M promise :=
  client_get (("/api/v1/accounts/" +:+ id) +:+ "/statuses") None.

(** [GET /api/v1/accounts/:id/followers]. *)
Definition getAccountFollowers
    (id : string)
    (limit max_id since_id : value)
  : M promise :=
  let params : obj := ∅ in
  let params :=
    if truthy max_id
    then Object_assign params (object_literal [("max_id", max_id)])
    else params in
  let params :=
    if truthy since_id
    then Object_assign params (object_literal [("since_id", since_id)])
    else params in
  let params :=
    if truthy limit
    then Object_assign params (object_literal [("limit", limit)])
    else params in
  client_get (("/api/v1/accounts/" +:+ id) +:+ "/followers") (Some params).

(** [GET /api/v1/accounts/:id/following]. *)
Definition getAccountFollowing
    (id : string)
    (limit max_id since_id : value)
  : M promise :=
  let params : obj := ∅ in
  let params :=
    if truthy max_id
    then Object_assign params (object_literal [("max_id", max_id)])
    else params in
  let params :=
    if truthy since_id
    then Object_assign params (object_literal [("since_id", since_id)])
    else params in
  let params :=
    if truthy limit
    then Object_assign params (object_literal [("limit", limit)])
    else params in
  client_get (("/api/v1/accounts/" +:+ id) +:+ "/following") (Some params).

(** [GET /api/v1/accounts/:id/lists]. *)
Definition getAccountLists (id : string) : M promise :=
  client_get (("/api/v1/accounts/" +:+ id) +:+ "/lists") None.

(** [GET /api/v1/accounts/:id/identity_proofs]. *)
Definition getIdentifyProof (id : string) : M promise :=
  client_get (("/api/v1/accounts/" +:+ id) +:+ "/identity_proofs") None.

(** [POST /api/v1/accounts/:id/follow]. *)
Definition followAccount (id : string) (reblog : value) : M promise :=
  let reblog := default_arg (VBool true) reblog in
  client_post (("/api/v1/accounts/" +:+ id) +:+ "/follow")
    (Some (object_literal [("reblog", reblog)])).

(** [POST /api/v1/accounts/:id/unfollow]. *)
Definition unfollowAccount (id : string) : M promise :=
  client_post (("/api/v1/accounts/" +:+ id) +:+ "/unfollow") None.

(** [POST /api/v1/accounts/:id/block]. *)
Definition blockAccount (id : string) : M promise :=
  client_post (("/api/v1/accounts/" +:+ id) +:+ "/block") None.

(** [POST /api/v1/accounts/:id/unblock]. *)
Definition unblockAccount (id : string) : M promise :=
  client_post (("/api/v1/accounts/" +:+ id) +:+ "/unblock") None.

(** [POST /api/v1/accounts/:id/mute]. *)
Definition muteAccount (id : string) (notifications : value) : M promise :=
  let notifications := default_arg (VBool true) notifications in
  client_post (("/api/v1/accounts/" +:+ id) +:+ "/mute")
    (Some (object_literal [("notifications", notifications)])).

(** [POST /api/v1/accounts/:id/unmute]. *)
Definition unmuteAccount (id : string) : M promise :=
  client_post (("/api/v1/accounts/" +:+ id) +:+ "/unmute") None.

(** [POST /api/v1/accounts/:id/pin]. *)
Definition pinAccount (id : string) : M promise :=
  client_post (("/api/v1/accounts/" +:+ id) +:+ "/pin") None.

(** [POST /api/v1/accounts/:id/unpin]. *)
Definition unpinAccount (id : string) : M promise :=
  client_post (("/api/v1/accounts/" +:+ id) +:+ "/unpin") None.

(** [GET /api/v1/accounts/relationships]. *)
Definition getRelationship : M promise :=
  client_get "/api/v1/accounts/relationships" None.

(** [GET /api/v1/accounts/search]. *)
Definition searchAccount (q limit max_id since_id : value) : M promise :=
  let params : obj := object_literal [("q", q)] in
  let params :=
    if truthy max_id
    then Object_assign params (object_literal [("max_id", max_id)])
    else params in
  let params :=
    if truthy since_id
    then Object_assign params (object_literal [("since_id", since_id)])
    else params in
  let params :=
    if truthy limit
    then Object_assign params (object_literal [("limit", limit)])
    else params in
  client_get "/api/v1/accounts/search" (Some params).

(** [GET /api/v1/bookmarks]. *)
Definition getBookmarks (limit max_id since_id min_id : value) : M promise :=
  let params : obj := ∅ in
  let params :=
    if truthy max_id
    then Object_assign params (object_literal [("max_id", max_id)])
    else params in
  let params :=
    if truthy since_id
    then Object_assign params (object_literal [("since_id", since_id)])
    else params in
  let params :=
    if truthy limit
    then Object_assign params (object_literal [("limit", limit)])
    else params in
  let params :=
    if truthy min_id
    then Object_assign params (object_literal [("min_id", min_id)])
    else params in
  client_get "/api/v1/bookmarks" (Some params).

(** [GET /api/v1/favourites]. *)
Definition getFavourites (limit min_id max_id : value) : M promise :=
  let params : obj := ∅ in
  let params :=
    if truthy min_id
    then Object_assign params (object_literal [("min_id", min_id)])
    else params in
  let params :=
    if truthy max_id
    then Object_assign params (object_literal [("max_id", max_id)])
    else params in
  let params :=
    if truthy limit
    then Object_assign params (object_literal [("limit", limit)])
    else params in
  client_get "/api/v1/favourites" (Some params).

(** [GET /api/v1/mutes]. *)
Definition getMutes (limit max_id min_id : value) : M promise :=
  let params : obj := ∅ in
  let params :=
    if truthy min_id
    then Object_assign params (object_literal [("min_id", min_id)])
    else params in
  let params :=
    if truthy max_id
    then Object_assign params (object_literal [("max_id", max_id)])
    else params in
  let params :=
    if truthy limit
    then Object_assign params (object_literal [("limit", limit)])
    else params in
  client_get "/api/v1/mutes" (Some params).

(** [GET /api/v1/blocks]. *)
Definition getBlocks (limit max_id min_id : value) : M promise :=
  let params : obj := ∅ in
  let params :=
    if truthy min_id
    then Object_assign params (object_literal [("min_id", min_id)])
    else params in
  let params :=
    if truthy max_id
    then Object_assign params (object_literal [("max_id", max_id)])
    else params in
  let params :=
    if truthy limit
    then Object_assign params (object_literal [("limit", limit)])
    else params in
  client_get "/api/v1/blocks" (Some params).

(** [GET /api/v1/domain_blocks]. *)
Definition getDomainBlocks (limit max_id min_id : value) : M promise :=
  let params : obj := ∅ in
  let params :=
    if truthy min_id
    then Object_assign params (object_literal [("min_id", min_id)])
    else params in
  let params :=
    if truthy max_id
    then Object_assign params (object_literal [("max_id", max_id)])
    else params in
  let params :=
    if truthy limit
    then Object_assign params (object_literal [("limit", limit)])
    else params in
  client_get "/api/v1/domain_blocks" (Some params).

(** [POST /api/v1/domain_blocks]. *)
Definition blockDomain (domain : value) : M promise :=
  client_post "/api/v1/domain_blocks"
    (Some (object_literal [("domain", domain)])).

(** [DELETE /api/v1/domain_blocks]. *)
Definition unblockDomain (domain : value) : M promise :=
  client_del "/api/v1/domain_blocks"
    (Some (object_literal [("domain", domain)])).

(** [GET /api/v1/filters]. *)
Definition getFilters : M promise :=
  client_get "/api/v1/filters" None.

(** [GET /api/v1/filters/:id]. *)
Definition getFilter (id : string) : M promise :=
  client_get ("/api/v1/filters/" +:+ id) None.

(** [POST /api/v1/filters]. *)
Definition createFilter
    (phrase context irreversible whole_word expires_in : value)
  : M promise :=
  let params : obj := object_literal [("phrase", phrase); ("context", context)] in
  let params :=
    if truthy irreversible
    then Object_assign params (object_literal [("irreversible", irreversible)])
    else params in
  let params :=
    if truthy whole_word
    then Object_assign params (object_literal [("whole_word", whole_word)])
    else params in
  let params :=
    if truthy expires_in
    then Object_assign params (object_literal [("expires_in", expires_in)])
    else params in
  client_post "/api/v1/filters" (Some params).

(** [PUT /api/v1/filters/:id (as documented; the body calls client.post)]. *)
Definition updateFilter
    (id : string)
    (phrase context irreversible whole_word expires_in : value)
  : M promise :=
  let params : obj := object_literal [("phrase", phrase); ("context", context)] in
  let params :=
    if truthy irreversible
    then Object_assign params (object_literal [("irreversible", irreversible)])
    else params in
  let params :=
    if truthy whole_word
    then Object_assign params (object_literal [("whole_word", whole_word)])
    else params in
  let params :=
    if truthy expires_in
    then Object_assign params (object_literal [("expires_in", expires_in)])
    else params in
  client_post ("/api/v1/filters/" +:+ id) (Some params).

(** [DELETE /api/v1/filters/:id]. *)
Definition deleteFilter (id : string) : M promise :=
  client_del ("/api/v1/filters/" +:+ id) None.

(** [POST /api/v1/reports]. *)
Definition report (account_id status_ids comment forward : value) : M promise :=
  let params : obj := object_literal [("account_id", account_id)] in
  let params :=
    if truthy status_ids
    then Object_assign params (object_literal [("status_ids", status_ids)])
    else params in
  let params :=
    if truthy comment
    then Object_assign params (object_literal [("comment", comment)])
    else params in
  let params :=
    if truthy forward
    then Object_assign params (object_literal [("forward", forward)])
    else params in
  client_post "/api/v1/reports" (Some params).

(** [GET /api/v1/follow_requests]. *)
Definition getFollowRequests (limit : value) : M promise :=
  if truthy limit
  then client_get "/api/v1/follow_requests" (Some (object_literal [("limit", limit)]))
  else client_get "/api/v1/follow_requests" None.

(** [POST /api/v1/follow_requests/:id/authorize]. *)
Definition acceptFollowRequest (id : string) : M promise :=
  client_post (("/api/v1/follow_requests/" +:+ id) +:+ "/authorize") None.

(** [POST /api/v1/follow_requests/:id/reject]. *)
Definition rejectFollowRequest (id : string) : M promise :=
  client_post (("/api/v1/follow_requests/" +:+ id) +:+ "/reject") None.

(** [GET /api/v1/endorsements]. *)
Definition getEndorsements (limit max_id since_id : value) : M promise :=
  let params : obj := ∅ in
  let params :=
    if truthy limit
    then Object_assign params (object_literal [("limit", limit)])
    else params in
  let params :=
    if truthy max_id
    then Object_assign params (object_literal [("max_id", max_id)])
    else params in
  let params :=
    if truthy since_id
    then Object_assign params (object_literal [("since_id", since_id)])
    else params in
  client_get "/api/v1/endorsements" (Some params).

(** [GET /api/v1/featured_tags]. *)
Definition getFeaturedTags : M promise :=
  client_get "/api/v1/featured_tags" None.

(** [POST /api/v1/featured_tags]. *)
Definition createFeaturedTag (name : value) : M promise :=
  client_post "/api/v1/featured_tags"
    (Some (object_literal [("name", name)])).

(** [DELETE /api/v1/featured_tags/:id]. *)
Definition deleteFeaturedTag (id : string) : M promise :=
  client_del ("/api/v1/featured_tags/" +:+ id) None.

(** [GET /api/v1/featured_tags/suggestions]. *)
Definition getSuggestedTags : M promise :=
  client_get "/api/v1/featured_tags/suggestions" None.

(** [GET /api/v1/preferences]. *)
Definition getPreferences : M promise :=
  client_get "/api/v1/preferences" None.

(** [GET /api/v1/suggestions]. *)
Definition getSuggestions (limit : value) : M promise :=
  if truthy limit
  then client_get "/api/v1/suggestions" (Some (object_literal [("limit", limit)]))
  else client_get "/api/v1/suggestions" None.

(** [POST /api/v1/statuses]. *)
Definition postStatus
    (status : value)
    (media_ids : option (list string))
    (poll in_reply_to_id sensitive spoiler_text visibility scheduled_at language : value)
  : M promise :=
  let media_ids := default [] media_ids in
  let params : obj := object_literal [("status", status)] in
  let params :=
    if (0 <? Z.of_nat (length media_ids))
    then Object_assign params (object_literal [("media_ids", VArr (VStr <$> media_ids))])
    else params in
  let params :=
    if truthy poll then
      let pollParam : obj :=
        object_literal [("options", get_prop poll "options");
                        ("expires_in", get_prop poll "expires_in")] in
      let pollParam :=
        if truthy (get_prop poll "multiple")
        then Object_assign pollParam (object_literal [("multiple", get_prop poll "multiple")])
        else pollParam in
      let pollParam :=
        if truthy (get_prop poll "hide_totals")
        then Object_assign pollParam (object_literal [("hide_totals", get_prop poll "hide_totals")])
        else pollParam in
      Object_assign params (object_literal [("poll", VObj pollParam)])
    else params in
  let params :=
    if truthy in_reply_to_id
    then Object_assign params (object_literal [("in_reply_to_id", in_reply_to_id)])
    else params in
  let params :=
    if truthy sensitive
    then Object_assign params (object_literal [("sensitive", sensitive)])
    else params in
  let params :=
    if truthy spoiler_text
    then Object_assign params (object_literal [("spoiler_text", spoiler_text)])
    else params in
  let params :=
    if truthy visibility
    then Object_assign params (object_literal [("visibility", visibility)])
    else params in
  let params :=
    if truthy scheduled_at
    then Object_assign params (object_literal [("scheduled_at", scheduled_at)])
    else params in
  let params :=
    if truthy language
    then Object_assign params (object_literal [("language", language)])
    else params in
  client_post "/api/v1/statuses" (Some params).

(** [GET /api/v1/statuses/:id]. *)
Definition getStatus (id : string) : M promise :=
  client_get ("/api/v1/statuses/" +:+ id) None.

(** [DELETE /api/v1/statuses/:id]. *)
Definition deleteStatus (id : string) : M promise :=
  client_del ("/api/v1/statuses/" +:+ id) None.

(** [GET /api/v1/statuses/:id/context]. *)
Definition getStatusContext (id : string) : M promise :=
  client_get (("/api/v1/statuses/" +:+ id) +:+ "/context") None.

(** [GET /api/v1/statuses/:id/reblogged_by]. *)
Definition getStatusRebloggedBy (id : string) : M promise :=
  client_get (("/api/v1/statuses/" +:+ id) +:+ "/reblogged_by") None.

(** [GET /api/v1/statuses/:id/favourited_by]. *)
Definition getStatusFavouritedBy (id : string) : M promise :=
  client_get (("/api/v1/statuses/" +:+ id) +:+ "/favourited_by") None.

(** [POST /api/v1/statuses/:id/favourite]. *)
Definition favouriteStatus (id : string) : M promise :=
  client_post (("/api/v1/statuses/" +:+ id) +:+ "/favourite") None.

(** [POST /api/v1/statuses/:id/unfavourite]. *)
Definition unfavouriteStatus (id : string) : M promise :=
  client_post (("/api/v1/statuses/" +:+ id) +:+ "/unfavourite") None.

(** [POST /api/v1/statuses/:id/reblog]. *)
Definition reblogStatus (id : string) : M promise :=
  client_post (("/api/v1/statuses/" +:+ id) +:+ "/reblog") None.

(** [POST /api/v1/statuses/:id/unreblog]. *)
Definition unreblogStatus (id : string) : M promise :=
  client_post (("/api/v1/statuses/" +:+ id) +:+ "/unreblog") None.

(** [POST /api/v1/statuses/:id/bookmark]. *)
Definition bookmarkStatus (id : string) : M promise :=
  client_post (("/api/v1/statuses/" +:+ id) +:+ "/bookmark") None.

(** [POST /api/v1/statuses/:id/unbookmark]. *)
Definition unbookmarkStatus (id : string) : M promise :=
  client_post (("/api/v1/statuses/" +:+ id) +:+ "/unbookmark") None.

(** [POST /api/v1/statuses/:id/mute]. *)
Definition muteStatus (id : string) : M promise :=
  client_post (("/api/v1/statuses/" +:+ id) +:+ "/mute") None.

(** [POST /api/v1/statuses/:id/unmute]. *)
Definition unmuteStatus (id : string) : M promise :=
  client_post (("/api/v1/statuses/" +:+ id) +:+ "/unmute") None.

(** [POST /api/v1/statuses/:id/pin]. *)
Definition pinStatus (id : string) : M promise :=
  client_post (("/api/v1/statuses/" +:+ id) +:+ "/pin") None.

(** [POST /api/v1/statuses/:id/unpin]. *)
Definition unpinStatus (id : string) : M promise :=
  client_post (("/api/v1/statuses/" +:+ id) +:+ "/unpin") None.

(** [POST /api/v1/media]. *)
Definition uploadMedia (file description focus : value) : M promise :=
  let params : obj := object_literal [("file", file)] in
  let params :=
    if truthy description
    then Object_assign params (object_literal [("description", description)])
    else params in
  let params :=
    if truthy focus
    then Object_assign params (object_literal [("focus", focus)])
    else params in
  client_post "/api/v1/media" (Some params).

(** [PUT /api/v1/media/:id]. *)
Definition updateMedia (id : string) (file description focus : value) : M promise :=
  let params : obj := ∅ in
  let params :=
    if truthy file
    then Object_assign params (object_literal [("file", file)])
    else params in
  let params :=
    if truthy description
    then Object_assign params (object_literal [("description", description)])
    else params in
  let params :=
    if truthy focus
    then Object_assign params (object_literal [("focus", focus)])
    else params in
  client_put ("/api/v1/media/" +:+ id) (Some params).

(** [GET /api/v1/polls/:id]. *)
Definition getPoll (id : string) : M promise :=
  client_get ("/api/v1/polls/" +:+ id) None.

(** [POST /api/v1/polls/:id/votes]. *)
Definition votePoll (id : string) (choices : value) : M promise :=
  client_post (("/api/v1/polls/" +:+ id) +:+ "/votes")
    (Some (object_literal [("choices", choices)])).

(** [GET /api/v1/scheduled_statuses]. *)
Definition getScheduledStatuses (limit max_id since_id min_id : value) : M promise :=
  let params : obj := ∅ in
  let params :=
    if truthy limit
    then Object_assign params (object_literal [("limit", limit)])
    else params in
  let params :=
    if truthy max_id
    then Object_assign params (object_literal [("max_id", max_id)])
    else params in
  let params :=
    if truthy since_id
    then Object_assign params (object_literal [("since_id", since_id)])
    else params in
  let params :=
    if truthy min_id
    then Object_assign params (object_literal [("min_id", min_id)])
    else params in
  client_get "/api/v1/scheduled_statuses" (Some params).

(** [GET /api/v1/scheduled_statuses/:id]. *)
Definition getScheduledStatus (id : string) : M promise :=
  client_get ("/api/v1/scheduled_statuses/" +:+ id) None.

(** [PUT /api/v1/scheduled_statuses/:id]. *)
Definition scheduleStatus (id : string) (scheduled_at : value) : M promise :=
  let params : obj := ∅ in
  let params :=
    if truthy scheduled_at
    then Object_assign params (object_literal [("scheduled_at", scheduled_at)])
    else params in
  client_put ("/api/v1/scheduled_statuses/" +:+ id) (Some params).

(** [DELETE /api/v1/scheduled_statuses/:id]. *)
Definition cancelScheduledStatus (id : string) : M promise :=
  client_del ("/api/v1/scheduled_statuses/" +:+ id) None.

(** One constructor per public instance method, carrying its actual
    arguments: a call a user of the class can make. *)
Inductive invocation : Type :=
| Call_verifyAppCredentails
| Call_registerAccount (username email password agreement locale reason : value)
| Call_verifyAccountCredentials
| Call_updateCredentials (discoverable bot display_name note avatar header locked source fields_attributes : value)
| Call_getAccount (id : string)
| Call_getAccountStatuses (id : string)
| Call_getAccountFollowers (id : string) (limit max_id since_id : value)
| Call_getAccountFollowing (id : string) (limit max_id since_id : value)
| Call_getAccountLists (id : string)
| Call_getIdentifyProof (id : string)
| Call_followAccount (id : string) (reblog : value)
| Call_unfollowAccount (id : string)
| Call_blockAccount (id : string)
| Call_unblockAccount (id : string)
| Call_muteAccount (id : string) (notifications : value)
| Call_unmuteAccount (id : string)
| Call_pinAccount (id : string)
| Call_unpinAccount (id : string)
| Call_getRelationship
| Call_searchAccount (q limit max_id since_id : value)
| Call_getBookmarks (limit max_id since_id min_id : value)
| Call_getFavourites (limit min_id max_id : value)
| Call_getMutes (limit max_id min_id : value)
| Call_getBlocks (limit max_id min_id : value)
| Call_getDomainBlocks (limit max_id min_id : value)
| Call_blockDomain (domain : value)
| Call_unblockDomain (domain : value)
| Call_getFilters
| Call_getFilter (id : string)
| Call_createFilter (phrase context irreversible whole_word expires_in : value)
| Call_updateFilter (id : string) (phrase context irreversible whole_word expires_in : value)
| Call_deleteFilter (id : string)
| Call_report (account_id status_ids comment forward : value)
| Call_getFollowRequests (limit : value)
| Call_acceptFollowRequest (id : string)
| Call_rejectFollowRequest (id : string)
| Call_getEndorsements (limit max_id since_id : value)
| Call_getFeaturedTags
| Call_createFeaturedTag (name : value)
| Call_deleteFeaturedTag (id : string)
| Call_getSuggestedTags
| Call_getPreferences
| Call_getSuggestions (limit : value)
| Call_postStatus (status : value) (media_ids : option (list string)) (poll in_reply_to_id sensitive spoiler_text visibility scheduled_at language : value)
| Call_getStatus (id : string)
| Call_deleteStatus (id : string)
| Call_getStatusContext (id : string)
| Call_getStatusRebloggedBy (id : string)
| Call_getStatusFavouritedBy (id : string)
| Call_favouriteStatus (id : string)
| Call_unfavouriteStatus (id : string)
| Call_reblogStatus (id : string)
| Call_unreblogStatus (id : string)
| Call_bookmarkStatus (id : string)
| Call_unbookmarkStatus (id : string)
| Call_muteStatus (id : string)
| Call_unmuteStatus (id : string)
| Call_pinStatus (id : string)
| Call_unpinStatus (id : string)
| Call_uploadMedia (file description focus : value)
| Call_updateMedia (id : string) (file description focus : value)
| Call_getPoll (id : string)
| Call_votePoll (id : string) (choices : value)
| Call_getScheduledStatuses (limit max_id since_id min_id : value)
| Call_getScheduledStatus (id : string)
| Call_scheduleStatus (id : string) (scheduled_at : value)
| Call_cancelScheduledStatus (id : string).

(** The method a call runs. *)
Definition invoke (i : invocation) : M promise :=
  match i with
  | Call_verifyAppCredentails => verifyAppCredentails
  | Call_registerAccount username email password agreement locale reason => registerAccount username email password agreement locale reason
  | Call_verifyAccountCredentials => verifyAccountCredentials
  | Call_updateCredentials discoverable bot display_name note avatar header locked source fields_attributes => updateCredentials discoverable bot display_name note avatar header locked source fields_attributes
  | Call_getAccount id => getAccount id
  | Call_getAccountStatuses id => getAccountStatuses id
  | Call_getAccountFollowers id limit max_id since_id => getAccountFollowers id limit max_id since_id
  | Call_getAccountFollowing id limit max_id since_id => getAccountFollowing id limit max_id since_id
  | Call_getAccountLists id => getAccountLists id
  | Call_getIdentifyProof id => getIdentifyProof id
  | Call_followAccount id reblog => followAccount id reblog
  | Call_unfollowAccount id => unfollowAccount id
  | Call_blockAccount id => blockAccount id
  | Call_unblockAccount id => unblockAccount id
  | Call_muteAccount id notifications => muteAccount id notifications
  | Call_unmuteAccount id => unmuteAccount id
  | Call_pinAccount id => pinAccount id
  | Call_unpinAccount id => unpinAccount id
  | Call_getRelationship => getRelationship
  | Call_searchAccount q limit max_id since_id => searchAccount q limit max_id since_id
  | Call_getBookmarks limit max_id since_id min_id => getBookmarks limit max_id since_id min_id
  | Call_getFavourites limit min_id max_id => getFavourites limit min_id max_id
  | Call_getMutes limit max_id min_id => getMutes limit max_id min_id
  | Call_getBlocks limit max_id min_id => getBlocks limit max_id min_id
  | Call_getDomainBlocks limit max_id min_id => getDomainBlocks limit max_id min_id
  | Call_blockDomain domain => blockDomain domain
  | Call_unblockDomain domain => unblockDomain domain
  | Call_getFilters => getFilters
  | Call_getFilter id => getFilter id
  | Call_createFilter phrase context irreversible whole_word expires_in => createFilter phrase context irreversible whole_word expires_in
  | Call_updateFilter id phrase context irreversible whole_word expires_in => updateFilter id phrase context irreversible whole_word expires_in
  | Call_deleteFilter id => deleteFilter id
  | Call_report account_id status_ids comment forward => report account_id status_ids comment forward
  | Call_getFollowRequests limit => getFollowRequests limit
  | Call_acceptFollowRequest id => acceptFollowRequest id
  | Call_rejectFollowRequest id => rejectFollowRequest id
  | Call_getEndorsements limit max_id since_id => getEndorsements limit max_id since_id
  | Call_getFeaturedTags => getFeaturedTags
  | Call_createFeaturedTag name => createFeaturedTag name
  | Call_deleteFeaturedTag id => deleteFeaturedTag id
  | Call_getSuggestedTags => getSuggestedTags
  | Call_getPreferences => getPreferences
  | Call_getSuggestions limit => getSuggestions limit
  | Call_postStatus status media_ids poll in_reply_to_id sensitive spoiler_text visibility scheduled_at language => postStatus status media_ids poll in_reply_to_id sensitive spoiler_text visibility scheduled_at language
  | Call_getStatus id => getStatus id
  | Call_deleteStatus id => deleteStatus id
  | Call_getStatusContext id => getStatusContext id
  | Call_getStatusRebloggedBy id => getStatusRebloggedBy id
  | Call_getStatusFavouritedBy id => getStatusFavouritedBy id
  | Call_favouriteStatus id => favouriteStatus id
  | Call_unfavouriteStatus id => unfavouriteStatus id
  | Call_reblogStatus id => reblogStatus id
  | Call_unreblogStatus id => unreblogStatus id
  | Call_bookmarkStatus id => bookmarkStatus id
  | Call_unbookmarkStatus id => unbookmarkStatus id
  | Call_muteStatus id => muteStatus id
  | Call_unmuteStatus id => unmuteStatus id
  | Call_pinStatus id => pinStatus id
  | Call_unpinStatus id => unpinStatus id
  | Call_uploadMedia file description focus => uploadMedia file description focus
  | Call_updateMedia id file description focus => updateMedia id file description focus
  | Call_getPoll id => getPoll id
  | Call_votePoll id choices => votePoll id choices
  | Call_getScheduledStatuses limit max_id since_id min_id => getScheduledStatuses limit max_id since_id min_id
  | Call_getScheduledStatus id => getScheduledStatus id
  | Call_scheduleStatus id scheduled_at => scheduleStatus id scheduled_at
  | Call_cancelScheduledStatus id => cancelScheduledStatus id
  end.

(** The names of the formal parameters in the method's signature. *)
Definition formals (i : invocation) : list string :=
  match i with
  | Call_verifyAppCredentails => []
  | Call_registerAccount _ _ _ _ _ _ => ["username"; "email"; "password"; "agreement"; "locale"; "reason"]
  | Call_verifyAccountCredentials => []
  | Call_updateCredentials _ _ _ _ _ _ _ _ _ => ["discoverable"; "bot"; "display_name"; "note"; "avatar"; "header"; "locked"; "source"; "fields_attributes"]
  | Call_getAccount _ => ["id"]
  | Call_getAccountStatuses _ => ["id"]
  | Call_getAccountFollowers _ _ _ _ => ["id"; "limit"; "max_id"; "since_id"]
  | Call_getAccountFollowing _ _ _ _ => ["id"; "limit"; "max_id"; "since_id"]
  | Call_getAccountLists _ => ["id"]
  | Call_getIdentifyProof _ => ["id"]
  | Call_followAccount _ _ => ["id"; "reblog"]
  | Call_unfollowAccount _ => ["id"]
  | Call_blockAccount _ => ["id"]
  | Call_unblockAccount _ => ["id"]
  | Call_muteAccount _ _ => ["id"; "notifications"]
  | Call_unmuteAccount _ => ["id"]
  | Call_pinAccount _ => ["id"]
  | Call_unpinAccount _ => ["id"]
  | Call_getRelationship => []
  | Call_searchAccount _ _ _ _ => ["q"; "limit"; "max_id"; "since_id"]
  | Call_getBookmarks _ _ _ _ => ["limit"; "max_id"; "since_id"; "min_id"]
  | Call_getFavourites _ _ _ => ["limit"; "min_id"; "max_id"]
  | Call_getMutes _ _ _ => ["limit"; "max_id"; "min_id"]
  | Call_getBlocks _ _ _ => ["limit"; "max_id"; "min_id"]
  | Call_getDomainBlocks _ _ _ => ["limit"; "max_id"; "min_id"]
  | Call_blockDomain _ => ["domain"]
  | Call_unblockDomain _ => ["domain"]
  | Call_getFilters => []
  | Call_getFilter _ => ["id"]
  | Call_createFilter _ _ _ _ _ => ["phrase"; "context"; "irreversible"; "whole_word"; "expires_in"]
  | Call_updateFilter _ _ _ _ _ _ => ["id"; "phrase"; "context"; "irreversible"; "whole_word"; "expires_in"]
  | Call_deleteFilter _ => ["id"]
  | Call_report _ _ _ _ => ["account_id"; "status_ids"; "comment"; "forward"]
  | Call_getFollowRequests _ => ["limit"]
  | Call_acceptFollowRequest _ => ["id"]
  | Call_rejectFollowRequest _ => ["id"]
  | Call_getEndorsements _ _ _ => ["limit"; "max_id"; "since_id"]
  | Call_getFeaturedTags => []
  | Call_createFeaturedTag _ => ["name"]
  | Call_deleteFeaturedTag _ => ["id"]
  | Call_getSuggestedTags => []
  | Call_getPreferences => []
  | Call_getSuggestions _ => ["limit"]
  | Call_postStatus _ _ _ _ _ _ _ _ _ => ["status"; "media_ids"; "poll"; "in_reply_to_id"; "sensitive"; "spoiler_text"; "visibility"; "scheduled_at"; "language"]
  | Call_getStatus _ => ["id"]
  | Call_deleteStatus _ => ["id"]
  | Call_getStatusContext _ => ["id"]
  | Call_getStatusRebloggedBy _ => ["id"]
  | Call_getStatusFavouritedBy _ => ["id"]
  | Call_favouriteStatus _ => ["id"]
  | Call_unfavouriteStatus _ => ["id"]
  | Call_reblogStatus _ => ["id"]
  | Call_unreblogStatus _ => ["id"]
  | Call_bookmarkStatus _ => ["id"]
  | Call_unbookmarkStatus _ => ["id"]
  | Call_muteStatus _ => ["id"]
  | Call_unmuteStatus _ => ["id"]
  | Call_pinStatus _ => ["id"]
  | Call_unpinStatus _ => ["id"]
  | Call_uploadMedia _ _ _ => ["file"; "description"; "focus"]
  | Call_updateMedia _ _ _ _ => ["id"; "file"; "description"; "focus"]
  | Call_getPoll _ => ["id"]
  | Call_votePoll _ _ => ["id"; "choices"]
  | Call_getScheduledStatuses _ _ _ _ => ["limit"; "max_id"; "since_id"; "min_id"]
  | Call_getScheduledStatus _ => ["id"]
  | Call_scheduleStatus _ _ => ["id"; "scheduled_at"]
  | Call_cancelScheduledStatus _ => ["id"]
  end.

(** A sequence of calls made one after the other on the same instance. *)
Fixpoint invoke_all (calls : list invocation) : M (list promise) :=
  match calls with
  | [] => ret []
  | i :: rest =>
      bind (invoke i) (fun p => bind (invoke_all rest) (fun ps => ret (p :: ps)))
  end.

(** The request a call hands to the client [c]: the one it puts on an
    empty wire. *)
Definition request_of (c : APIClient) (i : invocation) : option request :=
  last (wire (invoke i {| this := {| client := c |}; wire := [] |}).2).

(** The parameter object of the request a method body [m] hands over when
    run in [w]; the empty object when the request carries none. *)
Definition sent_params (m : M promise) (w : world) : obj :=
  default ∅ (last (wire (m w).2) ≫= params).

(** A call of a public method of the class: of an instance method on the
    receiver, or of a static method. *)
Inductive public_call : Type :=
| Instance (i : invocation)
| Static (s : static_invocation).

(** What a call uses of the API client: a request handed to a client
    instance, or a call of a static member of the [APIClient] class. *)
Inductive client_use : Type :=
| OnInstance (r : request)
| OnClass (s : static_call).

(** The uses of the API client that a public call makes when run in [w]:
    the requests an instance method adds to the wire, or the one static
    member a static method calls. *)
Definition uses (m : public_call) (w : world) : list client_use :=
  match m with
  | Instance i => OnInstance <$> drop (length (wire w)) (wire (invoke i w).2)
  | Static s => [OnClass (invoke_static s)]
  end.

End Mastodon.

(* ===================================================================== *)
(** ** The realtime streaming core                                         *)
(* ===================================================================== *)
(** The sources at hand hold the REST wrapper only; the streaming core
    (backend profile, event normalizer, connection state machine,
    multiplexer, dispatcher, polling fallback) is described by the
    specification and modelled here from its words.  Time is a count of
    milliseconds; every input carries the time at which it happens. *)
Module Streaming.

(** *** Data model (specification, section 3) *)

(** Modelled from the spec: the [kind] of a Channel, for the missing
    streaming core: "kind ∈ {user, public, public_local, hashtag, list,
    direct, conversation}". *)
Inductive channel_kind : Type :=
| KUser | KPublic | KPublicLocal | KHashtag | KList | KDirect | KConversation.

(** Modelled from the spec: a Channel "{backend_id, kind, selector}", a
    value object with structural equality. *)
Record Channel : Type := {
  backend_id : string;
  kind : channel_kind;
  selector : string
}.

#[global] Instance channel_kind_eq_dec : EqDecision channel_kind.
Proof. solve_decision. Defined.

#[global] Instance Channel_eq_dec : EqDecision Channel.
Proof. solve_decision. Defined.

(** Modelled from the spec: the transport kinds of a Backend Profile,
    "persistent-socket / push-stream / polling". *)
Inductive transport_kind : Type := PersistentSocket | PushStream | Polling.

#[global] Instance transport_kind_eq_dec : EqDecision transport_kind.
Proof. solve_decision. Defined.

(** Modelled from the spec: the [type] of a Canonical Event. *)
Inductive event_type : Type :=
| Update | Notification | Delete | StatusUpdate | Conversation
| Announcement | AnnouncementReaction | AnnouncementDelete | FiltersChanged
| Error.

#[global] Instance event_type_eq_dec : EqDecision event_type.
Proof. solve_decision. Defined.

(** Modelled from the spec: a Backend Profile, "{transport_kind,
    endpoint_template(channel) -> address, multiplex_capable: bool,
    field_remap}"; "whether reconnect can resume from a cursor" and the
    discriminators a backend uses are "expressed as data in the profile".
    Payloads are opaque text. *)
Record BackendProfile : Type := {
  transport : transport_kind;
  endpoint_template : Channel -> string;
  multiplex_capable : bool;
  cursor_resume : bool;
  discriminators : gmap string event_type;
  field_remap : string -> string
}.

(** Modelled from the spec: a Canonical Event, "{channel, type,
    sequence_id?, payload}". *)
Record CanonicalEvent : Type := {
  channel : Channel;
  type : event_type;
  sequence_id : option Z;
  payload : string
}.

(** Modelled from the spec: the status of a Connection, "{Idle, Connecting,
    Open, Reconnecting, Closed}". *)
Inductive status : Type := Idle | Connecting | Open | Reconnecting | Closed.

#[global] Instance status_eq_dec : EqDecision status.
Proof. solve_decision. Defined.

(** Modelled from the spec: a Connection, "{id, transport_kind, status,
    reconnect_attempt, backoff_deadline, channels, last_event_cursor}".
    The transport kind is read from the profile, and the Channels a
    Connection serves are read from the registry (see [served] below);
    [open_since] and [last_frame_at] are the Connection-local readings of
    the stability and heartbeat timers. *)
Record Connection : Type := {
  id : nat;
  conn_status : status;
  reconnect_attempt : nat;
  backoff_deadline : Z;
  last_event_cursor : Z;
  open_since : Z;
  last_frame_at : Z
}.

(** Modelled from the spec: a Subscription, "{channel, subscriber_handle,
    callback}"; a callback is named by a number. *)
Record Subscription : Type := {
  sub_channel : Channel;
  subscriber_handle : nat;
  callback : nat
}.

(** Modelled from the spec: the fixed configuration the text refers to: the
    base delay and maximum delay of the backoff, the stability window, the
    idle timeout, the optional cap on retries, the profile of each backend,
    and the cursor the REST collaborator seeds a new Connection with. *)
Record Config : Type := {
  base_delay : Z;
  max_delay : Z;
  stability_window : Z;
  idle_timeout : Z;
  max_attempts : option nat;
  profile_of : string -> BackendProfile;
  seed_cursor : Channel -> Z
}.

(** Modelled from the spec: the error taxonomy of section 7. *)
Inductive error_class : Type :=
| TransportError
| ProtocolError
| AuthError
| RateLimited (retry_after : option Z)
| Timeout.

(** Modelled from the spec: a push-transport frame, "one discriminated
    message per logical event ... carrying an event-type tag and a payload
    blob", with the sequence id when the backend supplies one. *)
Record RawFrame : Type := {
  discriminator : string;
  frame_seq : option Z;
  frame_payload : string
}.

(** Modelled from the spec: one entity record of a polling fetch, "a plain
    ordered collection of entity records". *)
Record Row : Type := {
  row_id : Z;
  row_payload : string
}.

(** *** Backoff (section 4.2) *)

(** Modelled from the spec: "backoff is exponential with a base delay,
    doubling per attempt, capped at a maximum delay". *)
Definition backoff (cfg : Config) (attempt : nat) : Z :=
  Z.min (base_delay cfg * 2 ^ Z.of_nat attempt) (max_delay cfg).

(** *** Event normalizer (section 4.4) *)

(** Modelled from the spec: "Parse the frame's discriminator into a
    canonical type; unknown/unsupported discriminators are dropped".  The
    [error] type is the terminal event of the core itself and is not
    accepted from the wire. *)
Definition parse_discriminator (p : BackendProfile) (d : string) : option event_type :=
  match (discriminators p) !! d with
  | Some Error => None
  | r => r
  end.

(** Modelled from the spec: the Event Normalizer on one push frame: the
    canonical type from the discriminator, the payload through the
    profile's field remap, the sequence id as supplied; [None] is a dropped
    frame (a ProtocolError). *)
Definition normalize (p : BackendProfile) (c : Channel) (f : RawFrame)
  : option CanonicalEvent :=
  match parse_discriminator p (discriminator f) with
  | Some ty =>
      Some {| channel := c; type := ty; sequence_id := frame_seq f;
              payload := field_remap p (frame_payload f) |}
  | None => None
  end.

(** Modelled from the spec: the [update] Canonical Event synthesized for
    one polled item, its id being the sequence id. *)
Definition update_of_row (p : BackendProfile) (c : Channel) (r : Row) : CanonicalEvent :=
  {| channel := c; type := Update; sequence_id := Some (row_id r);
     payload := field_remap p (row_payload r) |}.

(** Modelled from the spec: the terminal [error] Canonical Event of a
    Channel. *)
Definition terminal_error (c : Channel) (reason : string) : CanonicalEvent :=
  {| channel := c; type := Error; sequence_id := None; payload := reason |}.

(** *** Polling fallback (section 4.6) *)

(** Modelled from the spec: the order "ascending by id" on polled items. *)
Definition row_le (a b : Row) : Prop := row_id a <= row_id b.

#[global] Instance row_le_dec : RelDecision row_le.
Proof. intros a b. unfold row_le. apply _. Defined.

(** Modelled from the spec: the new items of a poll: the fetched items
    "sort[ed] ascending by id", without those at or below the cursor
    ("never re-emits an id ≤ cursor"). *)
Definition fresh_rows (cursor : Z) (rows : list Row) : list Row :=
  filter (fun r => cursor < row_id r) (merge_sort row_le rows).

(** Modelled from the spec: one poll: "fetch items newer than
    [last_event_cursor] via the REST collaborator, sort ascending by id,
    synthesize one [update] Canonical Event per new item, advance
    [last_event_cursor] to the maximum id seen.  Deduplicates by id against
    the previous cursor (never re-emits an id ≤ cursor)."  [rows] is what
    the fetch returned; the result is the events to deliver, in order, and
    the new cursor: the maximum id among the new items, or the old cursor
    when there is none. *)
Definition poll (p : BackendProfile) (c : Channel) (cursor : Z) (rows : list Row)
  : list CanonicalEvent * Z :=
  let fresh := fresh_rows cursor rows in
  (update_of_row p c <$> fresh,
   match row_id <$> fresh with
   | [] => cursor
   | i :: ids => foldl Z.max i ids
   end).

(** *** Connection state machine (sections 4.2 and 7) *)

(** Modelled from the spec: what a transition of the core asks of the
    caller and of its collaborators.  [Handle] is the result of [subscribe]
    and [Deliver] is one invocation of a registered callback; the others go
    to the transport opener, the timers and the REST collaborator. *)
Inductive effect : Type :=
| Handle (h : nat)
| Deliver (sub : Subscription) (ev : CanonicalEvent)
| OpenTransport (c : Channel) (address : string)
| CloseTransport (c : Channel)
| ScheduleReconnect (c : Channel) (deadline : Z)
| ResumeFrom (c : Channel) (cursor : Z)
| Fetch (c : Channel) (cursor : Z)
| LogProtocolError (c : Channel).

(** Modelled from the spec: the result of one transition of a Connection:
    the Connection afterwards, the Canonical Events it passes to the
    Dispatcher, and its requests to the collaborators. *)
Definition outcome : Type := Connection * list CanonicalEvent * list effect.

(** Modelled from the spec: a change of the [status] field alone. *)
Definition set_status (st : status) (k : Connection) : Connection :=
  {| id := id k; conn_status := st; reconnect_attempt := reconnect_attempt k;
     backoff_deadline := backoff_deadline k;
     last_event_cursor := last_event_cursor k;
     open_since := open_since k; last_frame_at := last_frame_at k |}.

(** Modelled from the spec: a change of [last_event_cursor] alone. *)
Definition set_cursor (cur : Z) (k : Connection) : Connection :=
  {| id := id k; conn_status := conn_status k;
     reconnect_attempt := reconnect_attempt k;
     backoff_deadline := backoff_deadline k;
     last_event_cursor := cur;
     open_since := open_since k; last_frame_at := last_frame_at k |}.

(** Modelled from the spec: a Connection as created for a Channel, before
    it is driven to [Connecting]: [Idle], no reconnect attempt made, the
    cursor as seeded by the REST collaborator. *)
Definition new_connection (cfg : Config) (c : Channel) (n : nat) : Connection :=
  {| id := n; conn_status := Idle; reconnect_attempt := 0;
     backoff_deadline := 0; last_event_cursor := seed_cursor cfg c;
     open_since := 0; last_frame_at := 0 |}.

(** Modelled from the spec: a fatal closure: "Connection transitions
    directly to Closed, no automatic retry; surfaced to all current
    subscribers as a terminal error Canonical Event": one terminal error
    for each of the Channels [chs] the Connection serves. *)
Definition close_fatally (c : Channel) (chs : list Channel) (k : Connection)
    (reason : string) : outcome :=
  (set_status Closed k, (fun c' => terminal_error c' reason) <$> chs,
   [CloseTransport c]).

(** Modelled from the spec: "retries exceed a configured cap". *)
Definition exhausted (cfg : Config) (attempt : nat) : bool :=
  match max_attempts cfg with
  | Some cap => bool_decide (cap <= attempt)%nat
  | None => false
  end.

(** Modelled from the spec: the attempt count a new Reconnecting episode
    starts from: "[reconnect_attempt] resets to 0 only after a Connection
    remains Open continuously for a stability window". *)
Definition attempt_after_open (cfg : Config) (now : Z) (k : Connection) : nat :=
  match conn_status k with
  | Open =>
      if bool_decide (stability_window cfg < now - open_since k)
      then 0%nat
      else reconnect_attempt k
  | _ => reconnect_attempt k
  end.

(** Modelled from the spec: the recovery of a retryable failure
    (TransportError, Timeout, RateLimited): "Connection transitions to
    Reconnecting with backoff", the reconnect being scheduled "at
    backoff(reconnect_attempt) with jitter", and for RateLimited "the
    backoff deadline additionally respects the retry-after hint"; when the
    retries exceed the configured cap the Channel is closed with a terminal
    error instead. *)
Definition retry (cfg : Config) (now : Z) (c : Channel) (chs : list Channel)
    (k : Connection) (e : error_class) (jitter : Z) : outcome :=
  let attempt := attempt_after_open cfg now k in
  if exhausted cfg attempt
  then close_fatally c chs k "retries exhausted"
  else
    let deadline := now + backoff cfg attempt + jitter in
    let deadline :=
      match e with
      | RateLimited (Some hint) => Z.max deadline (now + hint)
      | _ => deadline
      end in
    ({| id := id k; conn_status := Reconnecting; reconnect_attempt := attempt;
        backoff_deadline := deadline;
        last_event_cursor := last_event_cursor k;
        open_since := open_since k; last_frame_at := last_frame_at k |},
     [], [ScheduleReconnect c deadline]).

(** Modelled from the spec: the propagation policy of section 7 for a
    failure of the transport of a Connection that is connecting or open.  A
    ProtocolError is the drop of one frame; when such drops pass the rate
    threshold the failure is reported as a TransportError. *)
Definition on_failure (cfg : Config) (now : Z) (c : Channel) (chs : list Channel)
    (k : Connection) (e : error_class) (jitter : Z) : outcome :=
  match conn_status k with
  | Connecting | Open =>
      match e with
      | AuthError => close_fatally c chs k "authorization failure"
      | ProtocolError => (k, [], [LogProtocolError c])
      | TransportError | Timeout | RateLimited _ => retry cfg now c chs k e jitter
      end
  | _ => (k, [], [])
  end.

(** Modelled from the spec: [Connecting], success: "Open with
    reconnect_attempt preserved but not yet reset"; "On transition into
    Open from Reconnecting, if the backend profile supports cursor resume,
    the connection re-requests from last_event_cursor". *)
Definition on_connect_ok (p : BackendProfile) (now : Z) (c : Channel) (k : Connection)
  : outcome :=
  match conn_status k with
  | Connecting =>
      ({| id := id k; conn_status := Open;
          reconnect_attempt := reconnect_attempt k;
          backoff_deadline := backoff_deadline k;
          last_event_cursor := last_event_cursor k;
          open_since := now; last_frame_at := now |},
       [],
       if bool_decide (0 < reconnect_attempt k)%nat && cursor_resume p
       then [ResumeFrom c (last_event_cursor k)]
       else [])
  | _ => (k, [], [])
  end.

(** Modelled from the spec: [Reconnecting]: "On the scheduled deadline,
    transitions to Connecting and increments reconnect_attempt". *)
Definition on_backoff_elapsed (p : BackendProfile) (now : Z) (c : Channel)
    (k : Connection) : outcome :=
  match conn_status k with
  | Reconnecting =>
      if bool_decide (backoff_deadline k <= now)
      then
        ({| id := id k; conn_status := Connecting;
            reconnect_attempt := S (reconnect_attempt k);
            backoff_deadline := backoff_deadline k;
            last_event_cursor := last_event_cursor k;
            open_since := open_since k; last_frame_at := last_frame_at k |},
         [], [OpenTransport c (endpoint_template p c)])
      else (k, [], [])
  | _ => (k, [], [])
  end.

(** Modelled from the spec: [Open], a frame arrives: the liveness timer is
    "reset on every received frame"; a frame the normalizer drops is a
    logged ProtocolError and the Connection stays Open; "events with
    sequence_id ≤ last_event_cursor ... are never redelivered" on a profile
    with cursor resume; the cursor is "the highest event identifier already
    delivered". *)
Definition on_frame (p : BackendProfile) (now : Z) (c : Channel) (k : Connection)
    (f : RawFrame) : outcome :=
  match conn_status k with
  | Open =>
      let k :=
        {| id := id k; conn_status := Open;
           reconnect_attempt := reconnect_attempt k;
           backoff_deadline := backoff_deadline k;
           last_event_cursor := last_event_cursor k;
           open_since := open_since k; last_frame_at := now |} in
      match normalize p c f with
      | None => (k, [], [LogProtocolError c])
      | Some ev =>
          match sequence_id ev with
          | Some s =>
              if cursor_resume p && bool_decide (s <= last_event_cursor k)
              then (k, [], [])
              else (set_cursor (Z.max (last_event_cursor k) s) k, [ev], [])
          | None => (k, [ev], [])
          end
      end
  | _ => (k, [], [])
  end.

(** Modelled from the spec: the liveness timer of [Open]: "absence of any
    frame for a configured idle timeout is treated as a transport failure"
    (a Timeout). *)
Definition on_idle_check (cfg : Config) (now : Z) (c : Channel) (chs : list Channel)
    (k : Connection) (jitter : Z) : outcome :=
  match conn_status k with
  | Open =>
      if bool_decide (idle_timeout cfg < now - last_frame_at k)
      then on_failure cfg now c chs k Timeout jitter
      else (k, [], [])
  | _ => (k, [], [])
  end.

(** Modelled from the spec: the repeating poll timer of the Polling
    Fallback: asks the REST collaborator for the "items after cursor X";
    "suspended while zero Subscriptions exist for the Channel". *)
Definition on_poll_timer (p : BackendProfile) (c : Channel) (k : Connection)
    (subscribed : bool) : outcome :=
  match conn_status k, transport p with
  | Open, Polling =>
      if subscribed then (k, [], [Fetch c (last_event_cursor k)]) else (k, [], [])
  | _, _ => (k, [], [])
  end.

(** Modelled from the spec: the fetch of a poll returns: the new items are
    emitted and the cursor advanced as [poll] says. *)
Definition on_poll_result (p : BackendProfile) (c : Channel) (k : Connection)
    (rows : list Row) : outcome :=
  match conn_status k, transport p with
  | Open, Polling =>
      let r := poll p c (last_event_cursor k) rows in
      (set_cursor r.2 k, r.1, [])
  | _, _ => (k, [], [])
  end.

(** Modelled from the spec: a status in which a Connection serves its
    Channels: created and not Closed. *)
Definition live (st : status) : bool :=
  match st with
  | Connecting | Open | Reconnecting => true
  | Idle | Closed => false
  end.

(** Modelled from the spec: the end of the grace period, as a transition
    of the Connection: "if the owning Connection now has zero Channels with
    Subscriptions, close it (transition to Closed) after a short grace
    period".  [chs] are the Channels with Subscriptions. *)
Definition on_grace_elapsed (c : Channel) (chs : list Channel) (k : Connection)
  : outcome :=
  match chs with
  | [] =>
      if live (conn_status k)
      then (set_status Closed k, [], [CloseTransport c])
      else (k, [], [])
  | _ :: _ => (k, [], [])
  end.

(** *** Multiplexer and Dispatcher (sections 4.3, 4.5 and 5) *)

(** Modelled from the spec: what the core keeps per Channel: the Connection
    that serves it and the Dispatcher's queue of normalized events not yet
    delivered ("tasks communicate with the Dispatcher via an internal event
    queue"), oldest first. *)
Record ChannelState : Type := {
  conn : Connection;
  queue : list CanonicalEvent
}.

(** Modelled from the spec: the state of the core: the Channel→Connection
    registry, the Subscriptions in the order they were made, and the
    counters that name new handles and new Connections.  Channels that share
    a physical Connection hold the same Connection in their slots. *)
Record Core : Type := {
  chans : Channel -> ChannelState;
  subs : list Subscription;
  next_handle : nat;
  next_conn : nat
}.

(** Modelled from the spec: the placeholder in the slot of a Channel that
    has not been created yet. *)
Definition unborn : Connection :=
  {| id := 0; conn_status := Idle; reconnect_attempt := 0;
     backoff_deadline := 0; last_event_cursor := 0;
     open_since := 0; last_frame_at := 0 |}.

(** Modelled from the spec: the core before any subscription: no Channel
    has been created. *)
Definition init : Core :=
  {| chans := fun _ => {| conn := unborn; queue := [] |};
     subs := []; next_handle := 0; next_conn := 1 |}.

(** Modelled from the spec: the inputs of the core.  [Subscribe] and
    [Unsubscribe] are the caller's two operations.  The others come from
    the transport ([ConnectOk], [Failed], [FrameIn], [PollResult]), from
    the Connection's timers ([BackoffElapsed], [IdleCheck], [PollTimer],
    [GraceElapsed]) and from the scheduler that gives the Dispatcher its
    turn on a Channel ([Dispatch]).  An input of the transport or of a timer
    names a Channel and is addressed to the Connection that serves it. *)
Inductive input : Type :=
| Subscribe (c : Channel) (cb : nat)
| Unsubscribe (h : nat)
| GraceElapsed (c : Channel)
| ConnectOk (c : Channel)
| Failed (c : Channel) (e : error_class) (jitter : Z)
| FrameIn (c : Channel) (f : RawFrame)
| IdleCheck (c : Channel) (jitter : Z)
| BackoffElapsed (c : Channel)
| PollTimer (c : Channel)
| PollResult (c : Channel) (rows : list Row)
| Dispatch (c : Channel).


(** Modelled from the spec: the Subscriptions bound to a Channel, in
    subscription order. *)
Definition subs_of (c : Channel) (l : list Subscription) : list Subscription :=
  filter (fun sub => sub_channel sub = c) l.

(** Modelled from the spec: the physical-connection key "(backend +
    multiplex group)", as the relation "served by the same physical
    Connection": a Channel shares its Connection with itself alone, unless
    its Backend Profile is [multiplex_capable]; then the Channels of the
    backend form one connection group.  "Multiplexing decision is a pure
    function of Backend Profile capability". *)
Definition same_group (cfg : Config) (c c' : Channel) : bool :=
  bool_decide (c' = c)
  || (multiplex_capable (profile_of cfg (backend_id c))
      && bool_decide (backend_id c' = backend_id c)).

(** Modelled from the spec: the [channels] of the Connection that serves
    [c]: the Channels of its group that have Subscriptions, each once. *)
Definition served (cfg : Config) (s : Core) (c : Channel) : list Channel :=
  remove_dups
    (sub_channel <$>
       filter (fun sub => same_group cfg c (sub_channel sub) = true) (subs s)).

(** Modelled from the spec: the registry after a transition of the
    Connection that serves [c]: every Channel of the group holds the
    Connection as it is now, and each event is appended to the queue of its
    own Channel. *)
Definition store (cfg : Config) (s : Core) (c : Channel) (k : Connection)
    (evs : list CanonicalEvent) : Core :=
  {| chans := fun c' =>
       if same_group cfg c c'
       then {| conn := k;
               queue := queue (chans s c')
                          ++ filter (fun ev => channel ev = c') evs |}
       else chans s c';
     subs := subs s; next_handle := next_handle s; next_conn := next_conn s |}.

(** Modelled from the spec: the Dispatcher working off the queue of one
    Channel: each queued event, oldest first, is delivered to the
    Subscriptions bound to the Channel, one callback after the other. *)
Definition deliveries (s : Core) (c : Channel) : list effect :=
  ev ← queue (chans s c);
  (fun sub => Deliver sub ev) <$> subs_of c (subs s).

(** Modelled from the spec: the destruction of the Channels of a Connection
    that has been closed ("Channel and its Connection are ... destroyed
    (Closed, resources released) when Subscriptions reach zero or on fatal
    error"; "Subscriptions are ... destroyed ... by fatal Channel
    closure"): the Dispatcher works off what is queued for each Channel the
    Connection serves, the terminal error last, the Subscriptions of these
    Channels end, and no queue is kept for a dead Connection. *)
Definition destroy (cfg : Config) (s : Core) (c : Channel) : Core * list effect :=
  ({| chans := fun c' =>
        if same_group cfg c c'
        then {| conn := conn (chans s c'); queue := [] |}
        else chans s c';
      subs := filter (fun sub => same_group cfg c (sub_channel sub) = false) (subs s);
      next_handle := next_handle s; next_conn := next_conn s |},
   c' ← served cfg s c; deliveries s c').

(** Modelled from the spec: a transition that takes a Connection which
    serves its Channels to [Closed]. *)
Definition closes (k k' : Connection) : bool :=
  live (conn_status k) && bool_decide (conn_status k' = Closed).

(** Modelled from the spec: a transition of the Connection that serves
    Channel [c] taken into the core: the Connection is stored back for its
    whole group, the events it produced are queued, and when the
    transition closed the Connection its Channels are destroyed. *)
Definition connection_step (cfg : Config) (s : Core) (c : Channel)
    (f : Connection -> outcome) : Core * list effect :=
  let k := conn (chans s c) in
  let '(k', evs, effs) := f k in
  let s1 := store cfg s c k' evs in
  if closes k k'
  then (let (s2, out) := destroy cfg s1 c in (s2, effs ++ out))
  else (s1, effs).

(** Modelled from the spec: [subscribe(channel, callback) -> handle]: "If a
    non-Closed Connection already serves an equal Channel (or, for
    multiplex-capable backends, already owns the connection group that can
    serve it), attach Subscription to it; no new transport is opened.  Else
    create a new Connection for the Channel (plus any sibling channels the
    profile allows batching into the same physical connection) and drive it
    to Connecting."  Nothing is queued for a Channel that has no live
    Connection, so the new Connection starts with empty queues. *)
Definition subscribe (cfg : Config) (s : Core) (c : Channel) (cb : nat)
  : Core * list effect :=
  let h := next_handle s in
  let sub := {| sub_channel := c; subscriber_handle := h; callback := cb |} in
  if live (conn_status (conn (chans s c)))
  then
    ({| chans := chans s; subs := subs s ++ [sub];
        next_handle := S h; next_conn := next_conn s |},
     [Handle h])
  else
    let k := set_status Connecting (new_connection cfg c (next_conn s)) in
    ({| chans := fun c' => if same_group cfg c c'
                           then {| conn := k; queue := queue (chans s c') |}
                           else chans s c';
        subs := subs s ++ [sub];
        next_handle := S h; next_conn := S (next_conn s) |},
     [OpenTransport c (endpoint_template (profile_of cfg (backend_id c)) c);
      Handle h]).

(** Modelled from the spec: [unsubscribe(handle)]: "removes the
    Subscription"; the Connection is closed later, when the grace period
    ends. *)
Definition unsubscribe (s : Core) (h : nat) : Core * list effect :=
  ({| chans := chans s;
      subs := filter (fun sub => subscriber_handle sub <> h) (subs s);
      next_handle := next_handle s; next_conn := next_conn s |},
   []).

(** Modelled from the spec: one turn of the Dispatcher on a Channel: the
    oldest queued event is delivered "to the snapshot of Subscriptions
    bound to that Channel at delivery time", one callback after the
    other. *)
Definition dispatch (s : Core) (c : Channel) : Core * list effect :=
  let cs := chans s c in
  match queue cs with
  | [] => (s, [])
  | ev :: rest =>
      ({| chans := fun c' => if decide (c' = c)
                             then {| conn := conn cs; queue := rest |}
                             else chans s c';
          subs := subs s;
          next_handle := next_handle s; next_conn := next_conn s |},
       (fun sub => Deliver sub ev) <$> subs_of c (subs s))
  end.

(** *** Observations on a run *)

(** Modelled from the spec: the Channel whose Connection an input of the
    transport or of a timer is addressed to; [None] for the caller's
    operations and the Dispatcher's turn. *)
Definition transport_input (i : input) : option Channel :=
  match i with
  | ConnectOk c | Failed c _ _ | FrameIn c _ | IdleCheck c _
  | BackoffElapsed c | PollTimer c | PollResult c _ | GraceElapsed c => Some c
  | Subscribe _ _ | Unsubscribe _ | Dispatch _ => None
  end.

(** Modelled from the spec: the transition of the Connection that [step]
    takes on an input of the transport or of a timer. *)
Definition handler (cfg : Config) (now : Z) (s : Core) (i : input)
  : Connection -> outcome :=
  let prof (c : Channel) := profile_of cfg (backend_id c) in
  match i with
  | ConnectOk c => on_connect_ok (prof c) now c
  | Failed c e jitter => fun k => on_failure cfg now c (served cfg s c) k e jitter
  | FrameIn c f => fun k => on_frame (prof c) now c k f
  | IdleCheck c jitter => fun k => on_idle_check cfg now c (served cfg s c) k jitter
  | BackoffElapsed c => on_backoff_elapsed (prof c) now c
  | PollTimer c =>
      fun k => on_poll_timer (prof c) c k (bool_decide (subs_of c (subs s) <> []))
  | PollResult c rows => fun k => on_poll_result (prof c) c k rows
  | GraceElapsed c => on_grace_elapsed c (served cfg s c)
  | Subscribe _ _ | Unsubscribe _ | Dispatch _ =>
      fun k => (k, [], [])
  end.

(** Modelled from the spec: one transition of the core on an input that
    happens at time [now]. *)
Definition step (cfg : Config) (now : Z) (s : Core) (i : input) : Core * list effect :=
  match i with
  | Subscribe c cb => subscribe cfg s c cb
  | Unsubscribe h => unsubscribe s h
  | Dispatch c => dispatch s c
  | ConnectOk c | Failed c _ _ | FrameIn c _ | IdleCheck c _
  | BackoffElapsed c | PollTimer c | PollResult c _ | GraceElapsed c =>
      connection_step cfg s c (handler cfg now s i)
  end.

(** Modelled from the spec: a run of the core: the inputs are taken one
    after the other, each at its time; the effects are collected in the
    order they are produced. *)
Fixpoint run (cfg : Config) (s : Core) (t : list (Z * input)) : Core * list effect :=
  match t with
  | [] => (s, [])
  | (now, i) :: rest =>
      let (s1, out1) := step cfg now s i in
      let (s2, out2) := run cfg s1 rest in
      (s2, out1 ++ out2)
  end.

(** Modelled from the spec: the events a Connection passes to the
    Dispatcher for Channel [c] on one input: the Canonical Events of [c]
    among those its transition produced. *)
Definition normalized_by (cfg : Config) (now : Z) (s : Core) (i : input) (c : Channel)
  : list CanonicalEvent :=
  match transport_input i with
  | Some c' =>
      if same_group cfg c' c
      then filter (fun ev => channel ev = c)
             (handler cfg now s i (conn (chans s c'))).1.2
      else []
  | None => []
  end.

(** Modelled from the spec: the events normalized for Channel [c] during a
    run, in the order they were normalized. *)
Fixpoint normalized_in (cfg : Config) (s : Core) (t : list (Z * input)) (c : Channel)
  : list CanonicalEvent :=
  match t with
  | [] => []
  | (now, i) :: rest =>
      normalized_by cfg now s i c ++ normalized_in cfg (step cfg now s i).1 rest c
  end.

(** Modelled from the spec: the events the callback of the Subscription
    with handle [h] on Channel [c] was invoked with, in invocation order. *)
Definition delivered_to (c : Channel) (h : nat) (out : list effect) : list CanonicalEvent :=
  omap (fun e =>
          match e with
          | Deliver sub ev =>
              if decide (sub_channel sub = c /\ subscriber_handle sub = h)
              then Some ev else None
          | _ => None
          end) out.

(** Modelled from the spec: an effect the caller can see: the handle that
    [subscribe] returns and the invocations of registered callbacks
    (section 6); the other effects go to the collaborators. *)
Definition caller_visible (e : effect) : bool :=
  match e with
  | Handle _ | Deliver _ _ => true
  | _ => false
  end.


(** Modelled from the spec: an effect that opens a transport or schedules a
    reconnect for Channel [c]: a (re)connect attempt. *)
Definition reconnects (c : Channel) (e : effect) : bool :=
  match e with
  | OpenTransport c' _ | ScheduleReconnect c' _ => bool_decide (c' = c)
  | _ => false
  end.

(** Modelled from the spec: the Channel an effect concerns; the handle
    returned by [subscribe] concerns none. *)
Definition effect_channel (e : effect) : option Channel :=
  match e with
  | Handle _ => None
  | Deliver sub _ => Some (sub_channel sub)
  | OpenTransport c _ | CloseTransport c | ScheduleReconnect c _
  | ResumeFrom c _ | Fetch c _ | LogProtocolError c => Some c
  end.

(** Modelled from the spec: the handles of a list of Subscriptions. *)
Definition handles (l : list Subscription) : list nat := subscriber_handle <$> l.

(** Modelled from the spec: the handles [subscribe] returned during a
    run. *)
Definition returned_handles (out : list effect) : list nat :=
  omap (fun e => match e with Handle h => Some h | _ => None end) out.

(** Modelled from the spec: the terminal [error] events among the events a
    callback was invoked with. *)
Definition errors_in (evs : list CanonicalEvent) : list CanonicalEvent :=
  filter (fun ev => type ev = Error) evs.

(** Modelled from the spec: an invariant of the model, true of every state
    the core reaches from [init]: handles are not shared between
    Subscriptions, a handle in use was handed out earlier, and so was the id
    of every Connection; the Channels of a connection group hold one and
    the same Connection; a queue holds events of its own Channel and no
    terminal error (which is delivered when the Channel is destroyed). *)
Definition consistent (cfg : Config) (s : Core) : Prop :=
  NoDup (handles (subs s))
  /\ Forall (fun sub => (subscriber_handle sub < next_handle s)%nat) (subs s)
  /\ (forall c, (id (conn (chans s c)) < next_conn s)%nat)
  /\ (forall c c', same_group cfg c c' = true ->
                   conn (chans s c') = conn (chans s c))
  /\ (forall c, Forall (fun ev => channel ev = c /\ type ev <> Error)
                  (queue (chans s c))).

(** Modelled from the spec: what the transitions of section 4.2 have in
    common, for the Connection that serves Channel [c] and the Channels
    [chs]: the Connection keeps its id and never lowers its cursor, a
    Connection that is Idle or Closed does nothing, the caller sees nothing
    of it, its requests concern [c] alone, a resume or a fetch asks for the
    Connection's cursor, and the events are events of [c], or, when the
    transition closes the Connection, one terminal error for each of
    [chs]. *)
Definition regular (c : Channel) (chs : list Channel) (f : Connection -> outcome)
  : Prop :=
  forall k : Connection,
    id (f k).1.1 = id k
    /\ last_event_cursor k <= last_event_cursor (f k).1.1
    /\ (live (conn_status k) = false -> f k = (k, [], []))
    /\ Forall (fun e =>
                 caller_visible e = false /\ effect_channel e = Some c
                 /\ match e with
                    | ResumeFrom _ x | Fetch _ x => x = last_event_cursor k
                    | _ => True
                    end) (f k).2
    /\ (Forall (fun ev => channel ev = c /\ type ev <> Error) (f k).1.2
        \/ (conn_status (f k).1.1 = Closed
            /\ exists reason,
                 (f k).1.2 = (fun c' => terminal_error c' reason) <$> chs)).

(** Modelled from the spec: the callback invocations of a run, in the
    order they were made, over all Channels. *)
Definition callback_invocations (out : list effect)
  : list (Subscription * CanonicalEvent) :=
  omap (fun e => match e with Deliver sub ev => Some (sub, ev) | _ => None end) out.

(** Modelled from the spec: consecutive turns of the Dispatcher on one
    Channel, at the given times. *)
Definition dispatch_turns (c : Channel) (times : list Z) : list (Z * input) :=
  (fun now => (now, Dispatch c)) <$> times.

(** *** Sample data *)

(** Modelled from the spec: a push profile with cursor resume, used in the
    examples. *)
Definition sample_profile : BackendProfile :=
  {| transport := PersistentSocket;
     endpoint_template := fun _ => "wss://push.example/streaming";
     multiplex_capable := false;
     cursor_resume := true;
     discriminators :=
       {[ "update" := Update; "notification" := Notification; "delete" := Delete ]};
     field_remap := fun payload => payload |}.

(** Modelled from the spec: a polling profile, used in the examples. *)
Definition sample_polling_profile : BackendProfile :=
  {| transport := Polling;
     endpoint_template := fun _ => "https://poll.example/timeline";
     multiplex_capable := false;
     cursor_resume := true;
     discriminators := ∅;
     field_remap := fun payload => payload |}.

(** Modelled from the spec: a push profile that carries all Channels of
    its backend over one physical Connection, used in the examples. *)
Definition sample_multiplex_profile : BackendProfile :=
  {| transport := PersistentSocket;
     endpoint_template := fun _ => "wss://mux.example/streaming";
     multiplex_capable := true;
     cursor_resume := true;
     discriminators :=
       {[ "update" := Update; "notification" := Notification; "delete" := Delete ]};
     field_remap := fun payload => payload |}.

(** Modelled from the spec: the configuration of Scenario B (base delay 1s,
    maximum 60s, idle timeout 30s), with a stability window of 30s, no cap
    on retries and cursors seeded at 9 as in Scenario C. *)
Definition sample_config : Config :=
  {| base_delay := 1000; max_delay := 60000;
     stability_window := 30000; idle_timeout := 30000;
     max_attempts := None;
     profile_of := fun b => if String.eqb b "poll" then sample_polling_profile
                            else if String.eqb b "mux" then sample_multiplex_profile
                            else sample_profile;
     seed_cursor := fun _ => 9 |}.

(** Modelled from the spec: a user's home feed on the push backend. *)
Definition home : Channel :=
  {| backend_id := "push"; kind := KUser; selector := "" |}.

(** Modelled from the spec: a hashtag feed on the push backend. *)
Definition tag : Channel :=
  {| backend_id := "push"; kind := KHashtag; selector := "rocq" |}.

(** Modelled from the spec: a user's home feed on the multiplexing
    backend. *)
Definition mux_home : Channel :=
  {| backend_id := "mux"; kind := KUser; selector := "" |}.

(** Modelled from the spec: a hashtag feed on the multiplexing backend. *)
Definition mux_tag : Channel :=
  {| backend_id := "mux"; kind := KHashtag; selector := "rocq" |}.

(** Modelled from the spec: the public feed of the polling backend. *)
Definition polled : Channel :=
  {| backend_id := "poll"; kind := KPublic; selector := "" |}.

(** Modelled from the spec: Scenario A on two Channels: one subscriber
    each, both Connections open, then a frame [update] with status X on
    [home] and after it a frame [update] with status Y on [tag]. *)
Definition sample_feed : list (Z * input) :=
  [ (0, Subscribe home 1); (1, Subscribe tag 2);
    (10, ConnectOk home); (11, ConnectOk tag);
    (20, FrameIn home {| discriminator := "update"; frame_seq := Some 10;
                         frame_payload := "status X" |});
    (21, FrameIn tag {| discriminator := "update"; frame_seq := Some 11;
                        frame_payload := "status Y" |}) ].

(** Modelled from the spec: the Canonical Event of Scenario A for status X
    on [home]. *)
Definition status_X : CanonicalEvent :=
  {| channel := home; type := Update; sequence_id := Some 10; payload := "status X" |}.

(** Modelled from the spec: the same for status Y on [tag]. *)
Definition status_Y : CanonicalEvent :=
  {| channel := tag; type := Update; sequence_id := Some 11; payload := "status Y" |}.


(** Modelled from the spec: Scenario C before the poll: one subscriber on
    the polling Channel, its Connection open, the cursor at 9. *)
Definition sample_polling_state : Core :=
  (run sample_config init
     [(0, Subscribe polled 1); (5, ConnectOk polled)]).1.

(** Modelled from the spec: Scenarios B and D up to the failure: two
    subscribers on [home]; the Connection opens, falls silent past the idle
    timeout, reconnects after the base delay, fails again, and is
    connecting on reconnect attempt 2. *)
Definition scenario_D : list (Z * input) :=
  [ (0, Subscribe home 7); (1, Subscribe home 8); (5, ConnectOk home);
    (40000, IdleCheck home 0); (41000, BackoffElapsed home);
    (41001, Failed home TransportError 5); (43010, BackoffElapsed home) ].



(** Modelled from the spec: Scenario A on two Channels of the multiplexing
    backend: one subscriber each, the Connection they share opens, then a
    frame [update] with status X on one and a frame [update] with status Y on
    the other. *)
Definition sample_multiplex_feed : list (Z * input) :=
  [ (0, Subscribe mux_home 1); (1, Subscribe mux_tag 2);
    (10, ConnectOk mux_home);
    (20, FrameIn mux_home {| discriminator := "update"; frame_seq := Some 10;
                             frame_payload := "status X" |});
    (21, FrameIn mux_tag {| discriminator := "update"; frame_seq := Some 11;
                            frame_payload := "status Y" |}) ].

(** Modelled from the spec: Scenario D on the multiplexing backend: one
    subscriber on each of two Channels that share a Connection; the
    Connection opens, falls silent past the idle timeout, reconnects after
    the base delay, fails again, and is connecting on reconnect attempt 2. *)
Definition scenario_D_multiplex : list (Z * input) :=
  [ (0, Subscribe mux_home 7); (1, Subscribe mux_tag 8); (5, ConnectOk mux_home);
    (40000, IdleCheck mux_tag 0); (41000, BackoffElapsed mux_home);
    (41001, Failed mux_home TransportError 5); (43010, BackoffElapsed mux_tag) ].

End Streaming.

(* ===================================================================== *)
(** ** The REST wrappers: documented endpoints and argument tables         *)
(* ===================================================================== *)
Module MastodonTables.
Import Js Mastodon.
Import Stdlib.Strings.Ascii.

(** An optional argument as the guard [if (v)] sees it: a falsy value
    replaced by [undefined], the value of an argument that is left out. *)
Definition absent (v : value) : value :=
  if truthy v then v else VUndefined.

(** The [media_ids] argument of [postStatus] with an empty array replaced
    by a missing argument. *)
Definition nonempty (media_ids : option (list string)) : option (list string) :=
  match media_ids with
  | Some [] => None
  | m => m
  end.

(** The words the doc comments use for the five HTTP methods. *)
Definition verb_words : list (string * verb) :=
  [("GET", GET); ("POST", POST); ("PUT", PUT); ("PATCH", PATCH); ("DELETE", DEL)].

(** A string without its first [n] characters. *)
Fixpoint drop_string (n : nat) (s : string) : string :=
  match n, s with
  | O, _ => s
  | S n', String _ s' => drop_string n' s'
  | S _, EmptyString => EmptyString
  end.

(** A string without the blank it starts with, if it starts with one. *)
Definition skip_space (s : string) : string :=
  match s with
  | String " "%char s' => s'
  | _ => s
  end.

(** The endpoint a doc line names: the HTTP method it starts with and the
    path template that follows (after a blank, which one doc line of the
    source omits). *)
Definition parse_endpoint (doc : string) : option (verb * string) :=
  match List.find (fun wv => String.prefix wv.1 doc) verb_words with
  | Some (w, v) => Some (v, skip_space (drop_string (String.length w) doc))
  | None => None
  end.

(** A path template with every [:id] replaced by an id. *)
Fixpoint subst_id (tpl id : string) : string :=
  match tpl with
  | String ":"%char (String "i"%char (String "d"%char rest)) => id +:+ subst_id rest id
  | String a rest => String a (subst_id rest id)
  | EmptyString => EmptyString
  end.

(** Whether a path template has an [:id]. *)
Fixpoint has_id (tpl : string) : bool :=
  match tpl with
  | String ":"%char (String "i"%char (String "d"%char _)) => true
  | String _ rest => has_id rest
  | EmptyString => false
  end.

(** The first line of the doc comment of each instance method, which
    names the endpoint it wraps, as written in the source. *)
Definition doc_line (i : invocation) : string :=
  match i with
  | Call_verifyAppCredentails => "GET /api/v1/apps/verify_credentials"
  | Call_registerAccount _ _ _ _ _ _ => "POST /api/v1/accounts"
  | Call_verifyAccountCredentials => "GET /api/v1/accounts/verify_credentials"
  | Call_updateCredentials _ _ _ _ _ _ _ _ _ => "PATCH /api/v1/accounts/update_credentials"
  | Call_getAccount _ => "GET /api/v1/accounts/:id"
  | Call_getAccountStatuses _ => "GET /api/v1/accounts/:id/statuses"
  | Call_getAccountFollowers _ _ _ _ => "GET /api/v1/accounts/:id/followers"
  | Call_getAccountFollowing _ _ _ _ => "GET /api/v1/accounts/:id/following"
  | Call_getAccountLists _ => "GET /api/v1/accounts/:id/lists"
  | Call_getIdentifyProof _ => "GET /api/v1/accounts/:id/identity_proofs"
  | Call_followAccount _ _ => "POST /api/v1/accounts/:id/follow"
  | Call_unfollowAccount _ => "POST /api/v1/accounts/:id/unfollow"
  | Call_blockAccount _ => "POST /api/v1/accounts/:id/block"
  | Call_unblockAccount _ => "POST /api/v1/accounts/:id/unblock"
  | Call_muteAccount _ _ => "POST /api/v1/accounts/:id/mute"
  | Call_unmuteAccount _ => "POST /api/v1/accounts/:id/unmute"
  | Call_pinAccount _ => "POST /api/v1/accounts/:id/pin"
  | Call_unpinAccount _ => "POST /api/v1/accounts/:id/unpin"
  | Call_getRelationship => "GET /api/v1/accounts/relationships"
  | Call_searchAccount _ _ _ _ => "GET /api/v1/accounts/search"
  | Call_getBookmarks _ _ _ _ => "GET /api/v1/bookmarks"
  | Call_getFavourites _ _ _ => "GET /api/v1/favourites"
  | Call_getMutes _ _ _ => "GET /api/v1/mutes"
  | Call_getBlocks _ _ _ => "GET /api/v1/blocks"
  | Call_getDomainBlocks _ _ _ => "GET /api/v1/domain_blocks"
  | Call_blockDomain _ => "POST/api/v1/domain_blocks"
  | Call_unblockDomain _ => "DELETE /api/v1/domain_blocks"
  | Call_getFilters => "GET /api/v1/filters"
  | Call_getFilter _ => "GET /api/v1/filters/:id"
  | Call_createFilter _ _ _ _ _ => "POST /api/v1/filters"
  | Call_updateFilter _ _ _ _ _ _ => "PUT /api/v1/filters/:id"
  | Call_deleteFilter _ => "DELETE /api/v1/filters/:id"
  | Call_report _ _ _ _ => "POST /api/v1/reports"
  | Call_getFollowRequests _ => "GET /api/v1/follow_requests"
  | Call_acceptFollowRequest _ => "POST /api/v1/follow_requests/:id/authorize"
  | Call_rejectFollowRequest _ => "POST /api/v1/follow_requests/:id/reject"
  | Call_getEndorsements _ _ _ => "GET /api/v1/endorsements"
  | Call_getFeaturedTags => "GET /api/v1/featured_tags"
  | Call_createFeaturedTag _ => "POST /api/v1/featured_tags"
  | Call_deleteFeaturedTag _ => "DELETE /api/v1/featured_tags/:id"
  | Call_getSuggestedTags => "GET /api/v1/featured_tags/suggestions"
  | Call_getPreferences => "GET /api/v1/preferences"
  | Call_getSuggestions _ => "GET /api/v1/suggestions"
  | Call_postStatus _ _ _ _ _ _ _ _ _ => "POST /api/v1/statuses"
  | Call_getStatus _ => "GET /api/v1/statuses/:id"
  | Call_deleteStatus _ => "DELETE /api/v1/statuses/:id"
  | Call_getStatusContext _ => "GET /api/v1/statuses/:id/context"
  | Call_getStatusRebloggedBy _ => "GET /api/v1/statuses/:id/reblogged_by"
  | Call_getStatusFavouritedBy _ => "GET /api/v1/statuses/:id/favourited_by"
  | Call_favouriteStatus _ => "POST /api/v1/statuses/:id/favourite"
  | Call_unfavouriteStatus _ => "POST /api/v1/statuses/:id/unfavourite"
  | Call_reblogStatus _ => "POST /api/v1/statuses/:id/reblog"
  | Call_unreblogStatus _ => "POST /api/v1/statuses/:id/unreblog"
  | Call_bookmarkStatus _ => "POST /api/v1/statuses/:id/bookmark"
  | Call_unbookmarkStatus _ => "POST /api/v1/statuses/:id/unbookmark"
  | Call_muteStatus _ => "POST /api/v1/statuses/:id/mute"
  | Call_unmuteStatus _ => "POST /api/v1/statuses/:id/unmute"
  | Call_pinStatus _ => "POST /api/v1/statuses/:id/pin"
  | Call_unpinStatus _ => "POST /api/v1/statuses/:id/unpin"
  | Call_uploadMedia _ _ _ => "POST /api/v1/media"
  | Call_updateMedia _ _ _ _ => "PUT /api/v1/media/:id"
  | Call_getPoll _ => "GET /api/v1/polls/:id"
  | Call_votePoll _ _ => "POST /api/v1/polls/:id/votes"
  | Call_getScheduledStatuses _ _ _ _ => "GET /api/v1/scheduled_statuses"
  | Call_getScheduledStatus _ => "GET /api/v1/scheduled_statuses/:id"
  | Call_scheduleStatus _ _ => "PUT /api/v1/scheduled_statuses/:id"
  | Call_cancelScheduledStatus _ => "DELETE /api/v1/scheduled_statuses/:id"
  end.

(** The [id] argument of a call, for the methods that take one. *)
Definition id_arg (i : invocation) : option string :=
  match i with
  | Call_getAccount id => Some id
  | Call_getAccountStatuses id => Some id
  | Call_getAccountFollowers id _ _ _ => Some id
  | Call_getAccountFollowing id _ _ _ => Some id
  | Call_getAccountLists id => Some id
  | Call_getIdentifyProof id => Some id
  | Call_followAccount id _ => Some id
  | Call_unfollowAccount id => Some id
  | Call_blockAccount id => Some id
  | Call_unblockAccount id => Some id
  | Call_muteAccount id _ => Some id
  | Call_unmuteAccount id => Some id
  | Call_pinAccount id => Some id
  | Call_unpinAccount id => Some id
  | Call_getFilter id => Some id
  | Call_updateFilter id _ _ _ _ _ => Some id
  | Call_deleteFilter id => Some id
  | Call_acceptFollowRequest id => Some id
  | Call_rejectFollowRequest id => Some id
  | Call_deleteFeaturedTag id => Some id
  | Call_getStatus id => Some id
  | Call_deleteStatus id => Some id
  | Call_getStatusContext id => Some id
  | Call_getStatusRebloggedBy id => Some id
  | Call_getStatusFavouritedBy id => Some id
  | Call_favouriteStatus id => Some id
  | Call_unfavouriteStatus id => Some id
  | Call_reblogStatus id => Some id
  | Call_unreblogStatus id => Some id
  | Call_bookmarkStatus id => Some id
  | Call_unbookmarkStatus id => Some id
  | Call_muteStatus id => Some id
  | Call_unmuteStatus id => Some id
  | Call_pinStatus id => Some id
  | Call_unpinStatus id => Some id
  | Call_updateMedia id _ _ _ => Some id
  | Call_getPoll id => Some id
  | Call_votePoll id _ => Some id
  | Call_getScheduledStatus id => Some id
  | Call_scheduleStatus id _ => Some id
  | Call_cancelScheduledStatus id => Some id
  | _ => None
  end.

(** The call with every optional argument that its method tests for
    truthiness left out when it is falsy, and an empty [media_ids] left
    out. *)
Definition omit_falsy (i : invocation) : invocation :=
  match i with
  | Call_registerAccount username email password agreement locale reason =>
      Call_registerAccount username email password agreement locale (absent reason)
  | Call_updateCredentials discoverable bot display_name note avatar header locked source fields_attributes =>
      Call_updateCredentials (absent discoverable) bot (absent display_name) (absent note) (absent avatar) (absent header) locked (absent source) (absent fields_attributes)
  | Call_getAccountFollowers id limit max_id since_id =>
      Call_getAccountFollowers id (absent limit) (absent max_id) (absent since_id)
  | Call_getAccountFollowing id limit max_id since_id =>
      Call_getAccountFollowing id (absent limit) (absent max_id) (absent since_id)
  | Call_searchAccount q limit max_id since_id =>
      Call_searchAccount q (absent limit) (absent max_id) (absent since_id)
  | Call_getBookmarks limit max_id since_id min_id =>
      Call_getBookmarks (absent limit) (absent max_id) (absent since_id) (absent min_id)
  | Call_getFavourites limit min_id max_id =>
      Call_getFavourites (absent limit) (absent min_id) (absent max_id)
  | Call_getMutes limit max_id min_id =>
      Call_getMutes (absent limit) (absent max_id) (absent min_id)
  | Call_getBlocks limit max_id min_id =>
      Call_getBlocks (absent limit) (absent max_id) (absent min_id)
  | Call_getDomainBlocks limit max_id min_id =>
      Call_getDomainBlocks (absent limit) (absent max_id) (absent min_id)
  | Call_createFilter phrase context irreversible whole_word expires_in =>
      Call_createFilter phrase context (absent irreversible) (absent whole_word) (absent expires_in)
  | Call_updateFilter id phrase context irreversible whole_word expires_in =>
      Call_updateFilter id phrase context (absent irreversible) (absent whole_word) (absent expires_in)
  | Call_report account_id status_ids comment forward =>
      Call_report account_id (absent status_ids) (absent comment) (absent forward)
  | Call_getFollowRequests limit =>
      Call_getFollowRequests (absent limit)
  | Call_getEndorsements limit max_id since_id =>
      Call_getEndorsements (absent limit) (absent max_id) (absent since_id)
  | Call_getSuggestions limit =>
      Call_getSuggestions (absent limit)
  | Call_postStatus status media_ids poll in_reply_to_id sensitive spoiler_text visibility scheduled_at language =>
      Call_postStatus status (nonempty media_ids) (absent poll) (absent in_reply_to_id) (absent sensitive) (absent spoiler_text) (absent visibility) (absent scheduled_at) (absent language)
  | Call_uploadMedia file description focus =>
      Call_uploadMedia file (absent description) (absent focus)
  | Call_updateMedia id file description focus =>
      Call_updateMedia id (absent file) (absent description) (absent focus)
  | Call_getScheduledStatuses limit max_id since_id min_id =>
      Call_getScheduledStatuses (absent limit) (absent max_id) (absent since_id) (absent min_id)
  | Call_scheduleStatus id scheduled_at =>
      Call_scheduleStatus id (absent scheduled_at)
  | _ => i
  end.

(** The keys a method writes whatever its arguments are: the object
    literal its parameter object starts from. *)
Definition required_params (i : invocation) : list (string * value) :=
  match i with
  | Call_registerAccount username email password agreement locale _ =>
      [("username", username); ("email", email); ("password", password); ("agreement", agreement); ("locale", locale)]
  | Call_followAccount _ reblog =>
      [("reblog", default_arg (VBool true) reblog)]
  | Call_muteAccount _ notifications =>
      [("notifications", default_arg (VBool true) notifications)]
  | Call_searchAccount q _ _ _ =>
      [("q", q)]
  | Call_blockDomain domain =>
      [("domain", domain)]
  | Call_unblockDomain domain =>
      [("domain", domain)]
  | Call_createFilter phrase context _ _ _ =>
      [("phrase", phrase); ("context", context)]
  | Call_updateFilter _ phrase context _ _ _ =>
      [("phrase", phrase); ("context", context)]
  | Call_report account_id _ _ _ =>
      [("account_id", account_id)]
  | Call_createFeaturedTag name =>
      [("name", name)]
  | Call_postStatus status _ _ _ _ _ _ _ _ =>
      [("status", status)]
  | Call_uploadMedia file _ _ =>
      [("file", file)]
  | Call_votePoll _ choices =>
      [("choices", choices)]
  | _ => []
  end.

(** What an argument contributes to the parameter object: its key with
    a value, or nothing. *)
Definition always (v : value) : option value := Some v.

Definition when_truthy (v : value) : option value :=
  if truthy v then Some v else None.

Definition when_not_null (v : value) : option value :=
  if not_null v then Some v else None.

(** The [media_ids] of [postStatus]: the array, when it is given and not
    empty. *)
Definition when_not_empty (media_ids : option (list string)) : option value :=
  match media_ids with
  | Some (x :: l) => Some (VArr (VStr <$> x :: l))
  | _ => None
  end.

(** The object with the keys of a table that contribute. *)
Definition table_object (l : list (string * option value)) : obj :=
  list_to_map (omap (fun kv => pair kv.1 <$> kv.2) l).

(** The [poll] of [postStatus]: when truthy, a new object with [options]
    and [expires_in] as read from it, and with [multiple] and [hide_totals]
    when they are truthy in it. *)
Definition poll_entry (poll : value) : option value :=
  if truthy poll
  then Some (VObj (table_object
                     [("options", always (get_prop poll "options"));
                      ("expires_in", always (get_prop poll "expires_in"));
                      ("multiple", when_truthy (get_prop poll "multiple"));
                      ("hide_totals", when_truthy (get_prop poll "hide_totals"))]))
  else None.

(** The arguments of each instance method that go into the parameter
    object, in the order of the signature: for each the key it is sent
    under and what it contributes.  An id goes into the path and has no
    entry. *)
Definition argument_keys (i : invocation) : list (string * option value) :=
  match i with
  | Call_registerAccount username email password agreement locale reason =>
      [("username", always username); ("email", always email);
       ("password", always password); ("agreement", always agreement);
       ("locale", always locale); ("reason", when_truthy reason)]
  | Call_updateCredentials discoverable bot display_name note avatar header locked source fields_attributes =>
      [("discoverable", when_truthy discoverable); ("bot", when_not_null bot);
       ("display_name", when_truthy display_name); ("note", when_truthy note);
       ("avatar", when_truthy avatar); ("header", when_truthy header);
       ("locked", when_not_null locked); ("source", when_truthy source);
       ("fields_attributes", when_truthy fields_attributes)]
  | Call_getAccountFollowers _ limit max_id since_id =>
      [("limit", when_truthy limit); ("max_id", when_truthy max_id);
       ("since_id", when_truthy since_id)]
  | Call_getAccountFollowing _ limit max_id since_id =>
      [("limit", when_truthy limit); ("max_id", when_truthy max_id);
       ("since_id", when_truthy since_id)]
  | Call_followAccount _ reblog =>
      [("reblog", always (default_arg (VBool true) reblog))]
  | Call_muteAccount _ notifications =>
      [("notifications", always (default_arg (VBool true) notifications))]
  | Call_searchAccount q limit max_id since_id =>
      [("q", always q); ("limit", when_truthy limit); ("max_id", when_truthy max_id);
       ("since_id", when_truthy since_id)]
  | Call_getBookmarks limit max_id since_id min_id =>
      [("limit", when_truthy limit); ("max_id", when_truthy max_id);
       ("since_id", when_truthy since_id); ("min_id", when_truthy min_id)]
  | Call_getFavourites limit min_id max_id =>
      [("limit", when_truthy limit); ("min_id", when_truthy min_id);
       ("max_id", when_truthy max_id)]
  | Call_getMutes limit max_id min_id =>
      [("limit", when_truthy limit); ("max_id", when_truthy max_id);
       ("min_id", when_truthy min_id)]
  | Call_getBlocks limit max_id min_id =>
      [("limit", when_truthy limit); ("max_id", when_truthy max_id);
       ("min_id", when_truthy min_id)]
  | Call_getDomainBlocks limit max_id min_id =>
      [("limit", when_truthy limit); ("max_id", when_truthy max_id);
       ("min_id", when_truthy min_id)]
  | Call_blockDomain domain =>
      [("domain", always domain)]
  | Call_unblockDomain domain =>
      [("domain", always domain)]
  | Call_createFilter phrase context irreversible whole_word expires_in =>
      [("phrase", always phrase); ("context", always context);
       ("irreversible", when_truthy irreversible);
       ("whole_word", when_truthy whole_word); ("expires_in", when_truthy expires_in)]
  | Call_updateFilter _ phrase context irreversible whole_word expires_in =>
      [("phrase", always phrase); ("context", always context);
       ("irreversible", when_truthy irreversible);
       ("whole_word", when_truthy whole_word); ("expires_in", when_truthy expires_in)]
  | Call_report account_id status_ids comment forward =>
      [("account_id", always account_id); ("status_ids", when_truthy status_ids);
       ("comment", when_truthy comment); ("forward", when_truthy forward)]
  | Call_getFollowRequests limit =>
      [("limit", when_truthy limit)]
  | Call_getEndorsements limit max_id since_id =>
      [("limit", when_truthy limit); ("max_id", when_truthy max_id);
       ("since_id", when_truthy since_id)]
  | Call_createFeaturedTag name =>
      [("name", always name)]
  | Call_getSuggestions limit =>
      [("limit", when_truthy limit)]
  | Call_postStatus status media_ids poll in_reply_to_id sensitive spoiler_text visibility scheduled_at language =>
      [("status", always status); ("media_ids", when_not_empty media_ids);
       ("poll", poll_entry poll); ("in_reply_to_id", when_truthy in_reply_to_id);
       ("sensitive", when_truthy sensitive);
       ("spoiler_text", when_truthy spoiler_text);
       ("visibility", when_truthy visibility);
       ("scheduled_at", when_truthy scheduled_at); ("language", when_truthy language)]
  | Call_uploadMedia file description focus =>
      [("file", always file); ("description", when_truthy description);
       ("focus", when_truthy focus)]
  | Call_updateMedia _ file description focus =>
      [("file", when_truthy file); ("description", when_truthy description);
       ("focus", when_truthy focus)]
  | Call_votePoll _ choices =>
      [("choices", always choices)]
  | Call_getScheduledStatuses limit max_id since_id min_id =>
      [("limit", when_truthy limit); ("max_id", when_truthy max_id);
       ("since_id", when_truthy since_id); ("min_id", when_truthy min_id)]
  | Call_scheduleStatus _ scheduled_at =>
      [("scheduled_at", when_truthy scheduled_at)]
  | _ => []
  end.

(** Whether a call hands a parameter object to the client at all: the
    methods without such arguments pass the path alone, and so do
    [getFollowRequests] and [getSuggestions] when [limit] is falsy. *)
Definition passes_object (i : invocation) : bool :=
  match i with
  | Call_getFollowRequests limit | Call_getSuggestions limit => truthy limit
  | _ => bool_decide (argument_keys i <> [])
  end.

(** The name of a static method, and the member of the [APIClient] class a
    static call goes to. *)
Definition static_name (s : static_invocation) : string :=
  match s with
  | Call_registerApp _ _ _ _ => "registerApp"
  | Call_createApp _ _ _ _ => "createApp"
  | Call_generateAuthUrl _ _ _ _ => "generateAuthUrl"
  | Call_fetchAccessToken _ _ _ _ _ _ => "fetchAccessToken"
  | Call_refreshToken _ _ _ _ _ => "refreshToken"
  | Call_revokeToken _ _ _ _ _ => "revokeToken"
  end.

Definition callee (s : static_call) : string :=
  match s with
  | APIClient_registerApp _ _ _ _ => "registerApp"
  | APIClient_createApp _ _ _ _ => "createApp"
  | APIClient_generateAuthUrl _ _ _ _ => "generateAuthUrl"
  | APIClient_fetchAccessToken _ _ _ _ _ _ => "fetchAccessToken"
  | APIClient_refreshToken _ _ _ _ _ => "refreshToken"
  | APIClient_post _ _ _ _ => "post"
  end.

(** A client to run examples on. *)
Definition sample_client : APIClient :=
  new_APIClient "token" DEFAULT_URL DEFAULT_UA (VBool false).

(** An instance made with the defaults, before any call. *)
Definition sample_world : world :=
  {| this := constructor "token" None None VUndefined; wire := [] |}.

End MastodonTables.

(* ===================================================================== *)
(** ** Facts about the REST wrappers                                       *)
(* ===================================================================== *)
Module MastodonFacts.
Import Js Mastodon MastodonTables.

(** *** Parameter objects *)

Lemma lookup_object_literal_1 (k k' : string) (v : value) :
  object_literal [(k, v)] !! k' = if decide (k = k') then Some v else None.
Proof.
  unfold object_literal. cbn [foldl fst snd]. rewrite insert_empty.
  destruct (decide (k = k')) as [->|Hne].
  - apply lookup_singleton_eq.
  - by apply lookup_singleton_ne.
Qed.

Lemma lookup_Object_assign (t s : obj) (k : string) :
  Object_assign t s !! k =
  match s !! k with Some v => Some v | None => t !! k end.
Proof.
  unfold Object_assign. rewrite lookup_union.
  destruct (s !! k), (t !! k); reflexivity.
Qed.

(** A guarded [params = Object.assign(params, {k: v})] read at key [k']. *)
Lemma lookup_guarded_assign (b : bool) (t : obj) (k k' : string) (v : value) :
  (if b then Object_assign t (object_literal [(k, v)]) else t) !! k' =
  if b && bool_decide (k = k') then Some v else t !! k'.
Proof.
  destruct b; cbn [andb]; [|reflexivity].
  rewrite lookup_Object_assign, lookup_object_literal_1.
  destruct (decide (k = k')) as [->|Hne].
  - by rewrite bool_decide_eq_true_2.
  - by rewrite bool_decide_eq_false_2.
Qed.

Lemma dom_object_literal (kvs : list (string * value)) :
  dom (object_literal kvs) = list_to_set kvs.*1.
Proof.
  unfold object_literal.
  enough (H : forall o : obj,
             dom (foldl (fun o kv => <[ kv.1 := kv.2 ]> o) o kvs)
             = list_to_set kvs.*1 ∪ dom o).
  { rewrite H, dom_empty_L. set_solver. }
  induction kvs as [|[k v] kvs IH]; intros o; cbn [foldl fmap list_fmap fst snd list_to_set].
  - set_solver.
  - rewrite IH, dom_insert_L. set_solver.
Qed.

(** A guarded assignment of one key stays within any key set that holds
    the key and the keys already present. *)
Lemma dom_guarded_assign (b : bool) (t : obj) (k : string) (v : value) (S : gset string) :
  k ∈ S -> dom t ⊆ S ->
  dom (if b then Object_assign t (object_literal [(k, v)]) else t) ⊆ S.
Proof.
  intros Hk Ht. destruct b; [|exact Ht].
  unfold Object_assign. rewrite dom_union_L, dom_object_literal.
  cbn [fmap list_fmap fst list_to_set]. set_solver.
Qed.

Ltac dom_bound :=
  repeat (apply dom_guarded_assign; [set_solver|]);
  try rewrite dom_object_literal; cbn [fmap list_fmap fst list_to_set];
  set_solver.

(** *** One request per call *)

Lemma client_call_run (v : verb) (p : string) (ps : option obj) (w : world) :
  client_call v p ps w =
  (ResponseOf (length (wire w)),
   World (this w) (wire w ++ [Request (client (this w)) v p ps])).
Proof. reflexivity. Qed.

Lemma append_empty_r (s : string) : s +:+ "" = s.
Proof.
  induction s as [|a s IH]; [done|].
  change (String a (s +:+ "") = String a s). by rewrite IH.
Qed.

Lemma last_singleton_wire (r : request) : last ([] ++ [r]) = Some r.
Proof. reflexivity. Qed.

Ltac head_of t := lazymatch t with ?f _ => head_of f | _ => t end.

(** The request of a call, as the record the body hands to the client. *)
Ltac explicit_request :=
  unfold request_of; cbn [invoke];
  lazymatch goal with
  | |- context [wire (snd (?m _))] => let h := head_of m in unfold h
  end;
  cbv zeta;
  try lazymatch goal with
  | |- context [(if truthy ?l then client_get _ _ else _) _] =>
      destruct (truthy l) eqn:?
  end;
  unfold client_get, client_post, client_put, client_patch, client_del;
  rewrite client_call_run; cbn [snd wire this client];
  rewrite last_singleton_wire.

(** Each instance method hands the client exactly one request and leaves
    the receiver as it was; the request does not depend on what is already
    on the wire, and its parameter keys are formal parameter names. *)
Lemma invoke_one (i : invocation) (w : world) :
  exists r : request,
    invoke i w = (ResponseOf (length (wire w)), World (this w) (wire w ++ [r]))
    /\ via r = client (this w)
    /\ request_of (client (this w)) i = Some r
    /\ dom (default ∅ (params r)) ⊆ list_to_set (formals i).
Proof.
  destruct i; cbn [invoke formals];
    lazymatch goal with
    | |- context [getFollowRequests ?l] =>
        unfold getFollowRequests, request_of, invoke, getFollowRequests;
        destruct (truthy l) eqn:Hl
    | |- context [getSuggestions ?l] =>
        unfold getSuggestions, request_of, invoke, getSuggestions;
        destruct (truthy l) eqn:Hl
    | |- _ => idtac
    end;
    (eexists; split; [reflexivity|]; split; [reflexivity|]; split;
     [unfold request_of; cbn [invoke]; try rewrite Hl; reflexivity
     |cbn [params default from_option]; cbv zeta; dom_bound]).
Qed.

Lemma invoke_all_run (calls : list invocation) (w : world) :
  exists rs : list request,
    (invoke_all calls w).2 = World (this w) (wire w ++ rs)
    /\ Forall2 (fun i r => request_of (client (this w)) i = Some r) calls rs.
Proof.
  revert w. induction calls as [|i calls IH]; intros w.
  - exists []. split; [|constructor]. destruct w; cbn. by rewrite app_nil_r.
  - destruct (invoke_one i w) as (r & Hrun & _ & Hreq & _).
    cbn [invoke_all]. unfold bind at 1. rewrite Hrun.
    destruct (IH (World (this w) (wire w ++ [r]))) as (rs & Hrest & Hall).
    cbn [this wire] in Hrest, Hall.
    exists (r :: rs). split.
    + unfold bind, ret.
      destruct (invoke_all calls _) as [ps w'] eqn:E. cbn [snd] in *.
      subst w'. by rewrite <- app_assoc.
    + by constructor.
Qed.

(** *** The request of each method *)

Lemma NoDup_fst_unique {A B} (l : list (A * B)) (k : A) (v1 v2 : B) :
  NoDup l.*1 -> (k, v1) ∈ l -> (k, v2) ∈ l -> v1 = v2.
Proof.
  induction l as [|[k0 v0] l IH]; intros Hnd H1 H2; [by apply elem_of_nil in H1|].
  cbn in Hnd. apply NoDup_cons in Hnd as [Hk Hnd].
  apply elem_of_cons in H1 as [H1|H1], H2 as [H2|H2].
  - congruence.
  - injection H1 as <- <-. exfalso. apply Hk, list_elem_of_fmap. by exists (k, v2).
  - injection H2 as <- <-. exfalso. apply Hk, list_elem_of_fmap. by exists (k, v1).
  - by apply IH.
Qed.

Lemma elem_of_contributing (l : list (string * option value)) (k : string) (v : value) :
  (k, v) ∈ omap (fun kv : string * option value => pair kv.1 <$> kv.2) l
  <-> (k, Some v) ∈ l.
Proof.
  rewrite list_elem_of_omap. split.
  - intros ([k' [v'|]] & Hin & Heq); [|done]. cbn in Heq. by injection Heq as -> ->.
  - intros Hin. by exists (k, Some v).
Qed.

(** A parameter object is the object of a table once it reads as the
    table says at the table's keys and has no other key. *)
Lemma table_object_eq (m : obj) (l : list (string * option value)) :
  NoDup l.*1 ->
  Forall (fun kv => m !! kv.1 = kv.2) l ->
  dom m ⊆ list_to_set l.*1 ->
  m = table_object l.
Proof.
  intros Hnd Hall Hdom. apply map_eq; intros k. unfold table_object.
  destruct (decide (k ∈ l.*1)) as [Hin|Hout].
  - apply list_elem_of_fmap in Hin as ([k' v] & -> & Hin). cbn [fst].
    rewrite Forall_forall in Hall. pose proof (Hall _ Hin) as Hv.
    cbn [fst snd] in Hv. rewrite Hv.
    destruct v as [v|]; symmetry.
    + apply elem_of_list_to_map_1'; [|by apply elem_of_contributing].
      intros y Hy. apply elem_of_contributing in Hy.
      pose proof (NoDup_fst_unique l k' _ _ Hnd Hin Hy). congruence.
    + apply not_elem_of_list_to_map_1. intros Hin'.
      apply list_elem_of_fmap in Hin' as ([k1 v1] & Hk & Hin').
      cbn in Hk. subst k1. apply elem_of_contributing in Hin'.
      pose proof (NoDup_fst_unique l k' _ _ Hnd Hin Hin'). congruence.
  - transitivity (@None value).
    + apply not_elem_of_dom. set_solver.
    + symmetry. apply not_elem_of_list_to_map_1. intros Hin. apply Hout.
      apply list_elem_of_fmap in Hin as ([k1 v1] & -> & Hin).
      apply elem_of_contributing in Hin.
      apply list_elem_of_fmap. by exists (k1, Some v1).
Qed.

(** The keys of a table are the names of the formal parameters that are
    not an id, in the order of the signature, each once. *)
Lemma argument_keys_formals (i : invocation) :
  (argument_keys i).*1 = filter (fun k => k <> "id") (formals i)
  /\ NoDup (argument_keys i).*1.
Proof.
  destruct i; (split; [vm_compute; reflexivity|]);
    cbn [argument_keys fmap list_fmap fst];
    apply (bool_decide_unpack _); vm_compute; exact I.
Qed.

(** The poll object of [postStatus], as a table. *)
Lemma poll_object_table (o e m h : value) :
  (if truthy h
   then Object_assign
          (if truthy m
           then Object_assign (object_literal [("options", o); ("expires_in", e)])
                              (object_literal [("multiple", m)])
           else object_literal [("options", o); ("expires_in", e)])
          (object_literal [("hide_totals", h)])
   else if truthy m
        then Object_assign (object_literal [("options", o); ("expires_in", e)])
                           (object_literal [("multiple", m)])
        else object_literal [("options", o); ("expires_in", e)])
  = table_object [("options", always o); ("expires_in", always e);
                  ("multiple", when_truthy m); ("hide_totals", when_truthy h)].
Proof.
  unfold table_object, when_truthy, always, object_literal, Object_assign.
  destruct (truthy m), (truthy h);
    cbn [omap list_omap fmap option_fmap option_map fst snd foldl list_to_map mbind option_bind];
    apply map_eq; intros k;
    rewrite ?list_to_map_cons, ?list_to_map_nil, ?lookup_union;
    (destruct (decide (k = "options")) as [->|];
     [by simplify_map_eq|];
     destruct (decide (k = "expires_in")) as [->|];
     [by simplify_map_eq|];
     destruct (decide (k = "multiple")) as [->|];
     [by simplify_map_eq|];
     destruct (decide (k = "hide_totals")) as [->|];
     [by simplify_map_eq|];
     by simplify_map_eq).
Qed.

(** The endpoint of a call is the one of its doc line ([updateFilter]
    apart, which sends a POST), and the client is passed a parameter object
    exactly when [passes_object] says so. *)
Lemma request_endpoint (c : APIClient) (i : invocation) :
  exists (r : request) (v : verb) (tpl : string),
    request_of c i = Some r
    /\ via r = c
    /\ parse_endpoint (doc_line i) = Some (v, tpl)
    /\ path r = subst_id tpl (default "" (id_arg i))
    /\ (if decide (doc_line i = "PUT /api/v1/filters/:id")
        then v = PUT /\ method r = POST
        else method r = v)
    /\ bool_decide (is_Some (params r)) = passes_object i.
Proof.
  destruct i; explicit_request;
    (eexists _, _, _; split; [reflexivity|]; split; [reflexivity|]; split;
     [vm_compute; reflexivity|]; split;
     [cbn [path default from_option id_arg doc_line subst_id];
      rewrite ?append_empty_r; reflexivity|]; split;
     [cbn [doc_line method]; case_decide;
      [try discriminate; by split|try done; reflexivity]|]).
  all: cbn [params passes_object argument_keys]; try reflexivity.
  all: match goal with H : truthy _ = _ |- _ => rewrite H end; reflexivity.
Qed.

(** The parameter object of a call reads as the table of the method says
    at each key of the table, and has no other key. *)
Lemma request_params (c : APIClient) (i : invocation) :
  exists r : request,
    request_of c i = Some r
    /\ Forall (fun kv => default ∅ (params r) !! kv.1 = kv.2) (argument_keys i)
    /\ dom (default ∅ (params r)) ⊆ list_to_set (argument_keys i).*1.
Proof.
  destruct i; explicit_request;
    (eexists; split; [reflexivity|]);
    cbn [argument_keys params default from_option Datatypes.id fmap list_fmap fst];
    (split; [|dom_bound]).
  all: repeat (apply List.Forall_cons; [cbn [fst snd]|]);
    try apply List.Forall_nil.
  all: rewrite ?lookup_guarded_assign, ?lookup_empty;
    repeat (rewrite bool_decide_eq_false_2 by discriminate);
    repeat (rewrite bool_decide_eq_true_2 by reflexivity);
    rewrite ?andb_false_r, ?andb_true_r.
  all: unfold always, when_truthy, when_not_null, when_not_empty.
  all: try reflexivity.
  all: try (unfold object_literal; cbn [foldl fst snd]; by simplify_map_eq).
  all: try (match goal with H : truthy _ = _ |- _ => rewrite H end;
            unfold object_literal; cbn [foldl fst snd]; by simplify_map_eq).
  - destruct media_ids as [[|x l]|];
      cbn [default from_option length Z.ltb Z.of_nat Z.compare];
      unfold object_literal; cbn [foldl fst snd]; by simplify_map_eq.
  - unfold poll_entry. rewrite <- poll_object_table.
    destruct (truthy poll); [reflexivity|].
    unfold object_literal; cbn [foldl fst snd]; by simplify_map_eq.
Qed.

(** The request of a call, in full. *)
Lemma request_table (c : APIClient) (i : invocation) :
  exists (r : request) (v : verb) (tpl : string),
    request_of c i = Some r
    /\ via r = c
    /\ parse_endpoint (doc_line i) = Some (v, tpl)
    /\ path r = subst_id tpl (default "" (id_arg i))
    /\ (if decide (doc_line i = "PUT /api/v1/filters/:id")
        then v = PUT /\ method r = POST
        else method r = v)
    /\ params r = (if passes_object i
                   then Some (table_object (argument_keys i))
                   else None).
Proof.
  destruct (request_endpoint c i) as (r & v & tpl & Hr & Hvia & Hdoc & Hpath & Hverb & Hobj).
  destruct (request_params c i) as (r' & Hr' & Hall & Hdom).
  assert (r' = r) as -> by congruence.
  exists r, v, tpl. repeat (split; [assumption|]).
  destruct (argument_keys_formals i) as [_ Hnd].
  rewrite <- Hobj. destruct (params r) as [ps|] eqn:Hps.
  - rewrite bool_decide_eq_true_2 by done. f_equal.
    by apply table_object_eq.
  - by rewrite bool_decide_eq_false_2 by (by intros [? ?]).
Qed.

(** C1. Every public instance method of the class maps the call
    to one endpoint: it hands exactly one request to the client held in the
    [client] field, returns that request's promise and leaves the field as
    it was.  The request is the one of the method's doc line (its HTTP
    method, and its path with the call's id in place of [:id];
    [updateFilter] sends a POST).  The client is passed a parameter object
    exactly when the method has arguments that go into one
    ([getFollowRequests] and [getSuggestions]: when [limit] is truthy), and
    then the object is exactly the one of the method's table: each argument
    under the name of its formal parameter, always or when it is truthy, not
    [null] or not empty, and no other key.  The request depends on the
    arguments only; a sequence of calls puts one request per call on the
    wire, in call order: nothing is retried, reordered or remembered, and
    the field stays what the constructor set.  The six public static methods
    hand no request to an instance: each calls one static member of the
    [APIClient] class, the one of its own name with its arguments after
    their defaults, and [revokeToken] calls the static [post] with the path
    [/oauth/revoke] and the three credentials. *)
Theorem rest_wrappers_direct_mapping :
  (forall (i : invocation) (w : world),
     exists (r : request) (v : verb) (tpl : string),
       invoke i w = (ResponseOf (length (wire w)), World (this w) (wire w ++ [r]))
       /\ uses (Instance i) w = [OnInstance r]
       /\ via r = client (this w)
       /\ request_of (client (this w)) i = Some r
       /\ parse_endpoint (doc_line i) = Some (v, tpl)
       /\ path r = subst_id tpl (default "" (id_arg i))
       /\ (if decide (doc_line i = "PUT /api/v1/filters/:id")
           then v = PUT /\ method r = POST
           else method r = v)
       /\ params r = (if passes_object i
                      then Some (table_object (argument_keys i))
                      else None))
  /\ (forall i : invocation,
       (argument_keys i).*1 = filter (fun k => k <> "id") (formals i)
       /\ NoDup (argument_keys i).*1)
  /\ (forall (calls : list invocation) (w : world),
       exists rs : list request,
         (invoke_all calls w).2 = World (this w) (wire w ++ rs)
         /\ Forall2 (fun i r => request_of (client (this w)) i = Some r) calls rs)
  /\ (forall (token : string) (url agent : option string) (proxy : value)
             (calls : list invocation),
       let m := constructor token url agent proxy in
       let w := (invoke_all calls {| this := m; wire := [] |}).2 in
       this w = m
       /\ length (wire w) = length calls
       /\ Forall (fun r => via r = client m) (wire w))
  /\ (forall (s : static_invocation) (w : world),
       exists c : static_call,
         uses (Static s) w = [OnClass c]
         /\ callee c = (if decide (static_name s = "revokeToken")
                        then "post" else static_name s))
  /\ (forall (a b d : string) (u u' : option string) (o p : value),
       invoke_static (Call_registerApp a o u p)
         = APIClient_registerApp a
             (default_arg (VObj (table_object
                                   [("scopes", always (VStr DEFAULT_SCOPE));
                                    ("redirect_uris", always (VStr NO_REDIRECT))])) o)
             (default DEFAULT_URL u) (default_arg (VBool false) p)
       /\ invoke_static (Call_createApp a o u p)
         = APIClient_createApp a
             (default_arg (VObj (table_object
                                   [("redirect_uris", always (VStr NO_REDIRECT));
                                    ("scopes", always (VStr DEFAULT_SCOPE))])) o)
             (default DEFAULT_URL u) (default_arg (VBool false) p)
       /\ invoke_static (Call_generateAuthUrl a b o u)
         = APIClient_generateAuthUrl a b
             (default_arg (VObj (table_object
                                   [("redirect_uri", always (VStr NO_REDIRECT));
                                    ("scope", always (VStr DEFAULT_SCOPE))])) o)
             (default DEFAULT_URL u)
       /\ invoke_static (Call_fetchAccessToken a b d u u' p)
         = APIClient_fetchAccessToken a b d (default DEFAULT_URL u)
             (default NO_REDIRECT u') (default_arg (VBool false) p)
       /\ invoke_static (Call_refreshToken a b d u p)
         = APIClient_refreshToken a b d (default DEFAULT_URL u)
             (default_arg (VBool false) p)
       /\ invoke_static (Call_revokeToken a b d u p)
         = APIClient_post "/oauth/revoke"
             (table_object [("client_id", always (VStr a));
                            ("client_secret", always (VStr b));
                            ("token", always (VStr d))])
             (default DEFAULT_URL u) (default_arg (VBool false) p)).
Proof.
  split; [|split; [exact argument_keys_formals|split; [exact invoke_all_run|split; [|split]]]].
  - intros i w. destruct (invoke_one i w) as (r & Hrun & Hvia & Hreq & _).
    destruct (request_table (client (this w)) i)
      as (r' & v & tpl & Hreq' & _ & Hdoc & Hpath & Hverb & Hps).
    assert (r' = r) as -> by congruence.
    exists r, v, tpl. split; [exact Hrun|]. split.
    { unfold uses. rewrite Hrun. cbn [snd wire]. by rewrite drop_app_length. }
    by repeat (split; [assumption|]).
  - intros token url agent proxy calls m w. subst w.
    destruct (invoke_all_run calls {| this := m; wire := [] |})
      as (rs & -> & Hall).
    cbn [this wire app]. split; [done|]. split.
    + symmetry. by eapply Forall2_length.
    + cbn [this] in Hall. clear -Hall.
      induction Hall as [|i r calls rs Hreq _ IH]; constructor; [|exact IH].
      destruct (invoke_one i {| this := m; wire := [] |}) as (r' & _ & Hvia & Hreq' & _).
      cbn [this] in Hvia, Hreq'. congruence.
  - intros s w. eexists. split; [reflexivity|]. by destruct s.
  - intros a b d u u' o p.
    unfold invoke_static, registerApp, createApp, generateAuthUrl,
      fetchAccessToken, refreshToken, revokeToken.
    assert (Htab : forall (k1 k2 : string) (x1 x2 : value),
               k1 <> k2 ->
               object_literal [(k1, x1); (k2, x2)]
               = table_object [(k1, always x1); (k2, always x2)]).
    { intros k1 k2 x1 x2 Hne. unfold object_literal, table_object, always.
      cbn [foldl fst snd omap list_omap fmap option_fmap option_map].
      rewrite !list_to_map_cons, list_to_map_nil.
      by apply insert_insert_ne. }
    rewrite !Htab by discriminate.
    repeat split.
Qed.

(** C1 as stated does not hold of every public method: the static
    [generateAuthUrl] hands no request to a client instance, it calls the
    static [APIClient.generateAuthUrl]; and [getStatus], an instance method
    without arguments for a parameter object, passes its client a path and
    no object.  So it is not the case that every public method builds a
    parameter object and invokes an HTTP method on the client of the
    [client] field. *)
Lemma not_every_method_sends_an_object :
  uses (Static (Call_generateAuthUrl "id" "secret" VUndefined None)) sample_world
    = [OnClass (APIClient_generateAuthUrl "id" "secret"
                  (VObj (object_literal [("redirect_uri", VStr NO_REDIRECT);
                                         ("scope", VStr DEFAULT_SCOPE)]))
                  DEFAULT_URL)]
  /\ uses (Instance (Call_getStatus "109")) sample_world
    = [OnInstance {| via := client (this sample_world); method := GET;
                     path := "/api/v1/statuses/109"; params := None |}]
  /\ ~ (forall (m : public_call) (w : world),
          exists (r : request) (ps : obj),
            uses m w = [OnInstance r]
            /\ via r = client (this w)
            /\ params r = Some ps).
Proof.
  split; [reflexivity|]. split; [reflexivity|].
  intros H.
  destruct (H (Instance (Call_getStatus "109")) sample_world) as (r & ps & Huse & _ & Hps).
  injection Huse as <-. discriminate Hps.
Qed.

(** C8. [updateFilter] hands its request to [client.post] with the path
    [/api/v1/filters/${id}], for every id and every choice of the other
    arguments; the one request it issues is a POST, none is a PUT. *)
Theorem updateFilter_uses_post
    (id : string) (phrase context irreversible whole_word expires_in : value)
    (w : world) :
  exists ps : obj,
    updateFilter id phrase context irreversible whole_word expires_in w =
      (ResponseOf (length (wire w)),
       World (this w)
         (wire w ++ [Request (client (this w)) POST ("/api/v1/filters/" +:+ id) (Some ps)]))
    /\ ps !! "phrase" = Some phrase /\ ps !! "context" = Some context
    /\ Forall (fun r => method r <> PUT)
         (drop (length (wire w))
            (wire (updateFilter id phrase context irreversible whole_word expires_in w).2)).
Proof.
  unfold updateFilter, client_post. cbv zeta. rewrite client_call_run.
  eexists. split; [reflexivity|]. cbn [snd wire].
  rewrite !lookup_guarded_assign, drop_app_length.
  repeat split.
  - rewrite !andb_false_r by done. reflexivity.
  - rewrite !andb_false_r by done. reflexivity.
  - by repeat constructor.
Qed.

(** The parameter object of a body that ends in one client call. *)
Lemma sent_params_client_call (v : verb) (p : string) (ps : obj) (w : world) :
  sent_params (client_call v p (Some ps)) w = ps.
Proof. unfold sent_params. rewrite client_call_run. cbn [snd wire]. by rewrite last_snoc. Qed.

Ltac unlet := repeat match goal with x := _ |- _ => subst x end.

Ltac read_params :=
  cbv zeta;
  unfold client_get, client_post, client_put, client_patch, client_del;
  rewrite ?sent_params_client_call, ?client_call_run; cbn [snd wire];
  rewrite ?lookup_guarded_assign, ?lookup_empty;
  repeat (rewrite bool_decide_eq_false_2 by discriminate);
  repeat (rewrite bool_decide_eq_true_2 by reflexivity);
  rewrite ?andb_false_r, ?andb_true_r.

(** C9. In [updateCredentials] the keys [bot] and [locked] are in the
    request body exactly when the argument is not [null], so also when it is
    [false]; [discoverable], [display_name], [note], [avatar], [header] and
    [source] are in the body exactly when the argument is truthy, so that
    [false], the empty string and [null] leave the key out. *)
Theorem updateCredentials_key_inclusion :
  (forall (discoverable bot display_name note avatar header locked source
             fields_attributes : value) (w : world),
     let call := updateCredentials discoverable bot display_name note avatar
                   header locked source fields_attributes in
     let ps := sent_params call w in
     call w = (ResponseOf (length (wire w)),
               World (this w)
                 (wire w ++ [Request (client (this w)) PATCH
                               "/api/v1/accounts/update_credentials" (Some ps)]))
     /\ ps !! "bot" = (if not_null bot then Some bot else None)
     /\ ps !! "locked" = (if not_null locked then Some locked else None)
     /\ ps !! "discoverable" = (if truthy discoverable then Some discoverable else None)
     /\ ps !! "display_name" = (if truthy display_name then Some display_name else None)
     /\ ps !! "note" = (if truthy note then Some note else None)
     /\ ps !! "avatar" = (if truthy avatar then Some avatar else None)
     /\ ps !! "header" = (if truthy header then Some header else None)
     /\ ps !! "source" = (if truthy source then Some source else None))
  /\ not_null (VBool false) = true
  /\ (forall (discoverable display_name note avatar header source
               fields_attributes : value) (w : world),
       let ps := sent_params
                   (updateCredentials discoverable (VBool false) display_name note
                      avatar header (VBool false) source fields_attributes) w in
       ps !! "bot" = Some (VBool false) /\ ps !! "locked" = Some (VBool false))
  /\ Forall (fun v : value =>
               forall (bot locked fields_attributes : value) (w : world),
                 let ps := sent_params
                             (updateCredentials v bot v v v v locked v fields_attributes) w in
                 ps !! "discoverable" = None /\ ps !! "display_name" = None
                 /\ ps !! "note" = None /\ ps !! "avatar" = None
                 /\ ps !! "header" = None /\ ps !! "source" = None)
       [VBool false; VStr ""; VNull].
Proof.
  repeat split; intros.
  all: try (unlet; unfold updateCredentials; read_params; reflexivity).
  repeat (apply List.Forall_cons;
          [intros; repeat split; unlet; unfold updateCredentials;
           read_params; reflexivity|]).
  apply List.Forall_nil.
Qed.

(** C10. The paginated list getters [getBookmarks] and
    [getAccountFollowers] put an optional argument into the request
    parameters exactly when it is truthy; [null], [undefined], [0] and the
    empty string are falsy and are left out, and a call with [limit = 0]
    sends no [limit] parameter at all. *)
Theorem paginated_getters_omit_falsy :
  (forall (limit max_id since_id min_id : value) (w : world),
     let call := getBookmarks limit max_id since_id min_id in
     let ps := sent_params call w in
     call w = (ResponseOf (length (wire w)),
               World (this w)
                 (wire w ++ [Request (client (this w)) GET "/api/v1/bookmarks" (Some ps)]))
     /\ ps !! "limit" = (if truthy limit then Some limit else None)
     /\ ps !! "max_id" = (if truthy max_id then Some max_id else None)
     /\ ps !! "since_id" = (if truthy since_id then Some since_id else None)
     /\ ps !! "min_id" = (if truthy min_id then Some min_id else None))
  /\ (forall (id : string) (limit max_id since_id : value) (w : world),
       let call := getAccountFollowers id limit max_id since_id in
       let ps := sent_params call w in
       call w = (ResponseOf (length (wire w)),
                 World (this w)
                   (wire w ++ [Request (client (this w)) GET
                                 (("/api/v1/accounts/" +:+ id) +:+ "/followers") (Some ps)]))
       /\ ps !! "limit" = (if truthy limit then Some limit else None)
       /\ ps !! "max_id" = (if truthy max_id then Some max_id else None)
       /\ ps !! "since_id" = (if truthy since_id then Some since_id else None))
  /\ truthy <$> [VNull; VUndefined; VNum 0; VStr ""] = [false; false; false; false]
  /\ Forall (fun v : value =>
               forall (id : string) (w : world),
                 sent_params (getBookmarks v v v v) w = ∅
                 /\ sent_params (getAccountFollowers id v v v) w = ∅)
       [VNull; VUndefined; VNum 0; VStr ""]
  /\ (forall (max_id since_id min_id : value) (w : world),
       sent_params (getBookmarks (VNum 0) max_id since_id min_id) w !! "limit" = None)
  /\ (forall (id : string) (max_id since_id : value) (w : world),
       sent_params (getAccountFollowers id (VNum 0) max_id since_id) w !! "limit" = None).
Proof.
  repeat split; intros.
  all: try (unlet; unfold getBookmarks, getAccountFollowers; read_params; reflexivity).
  repeat (apply List.Forall_cons;
          [intros; split; unfold getBookmarks, getAccountFollowers;
           read_params; reflexivity|]).
  apply List.Forall_nil.
Qed.

(** The static helpers are single delegations to the static side of the
    API client; an optional argument that is left out or passed as
    [undefined] takes its default. *)
Example static_helpers_delegate (a b d : string) :
  revokeToken a b d None VUndefined =
    APIClient_post "/oauth/revoke"
      (object_literal [("client_id", VStr a); ("client_secret", VStr b);
                       ("token", VStr d)])
      DEFAULT_URL (VBool false)
  /\ fetchAccessToken a b d None None VUndefined =
    APIClient_fetchAccessToken a b d DEFAULT_URL NO_REDIRECT (VBool false)
  /\ refreshToken a b d None VUndefined =
    APIClient_refreshToken a b d DEFAULT_URL (VBool false)
  /\ generateAuthUrl a b VUndefined None =
    APIClient_generateAuthUrl a b
      (VObj (object_literal [("redirect_uri", VStr NO_REDIRECT);
                             ("scope", VStr DEFAULT_SCOPE)]))
      DEFAULT_URL
  /\ client (constructor a None None VUndefined)
     = new_APIClient a DEFAULT_URL DEFAULT_UA (VBool false).
Proof. by repeat split. Qed.

End MastodonFacts.

(* ===================================================================== *)
(** ** Facts about the streaming core                                      *)
(* ===================================================================== *)
Module StreamingFacts.
Import Streaming.

(** *** Backoff *)






(** *** Reading a slot of the registry *)

Lemma same_group_refl (cfg : Config) (c : Channel) : same_group cfg c c = true.
Proof. unfold same_group. by rewrite bool_decide_eq_true_2. Qed.

Lemma same_group_sym (cfg : Config) (c c' : Channel) :
  same_group cfg c c' = same_group cfg c' c.
Proof.
  unfold same_group.
  destruct (decide (c' = c)) as [->|Hne]; [done|].
  rewrite (bool_decide_eq_false_2 (c' = c)) by done.
  rewrite (bool_decide_eq_false_2 (c = c')) by congruence. cbn [orb].
  destruct (decide (backend_id c' = backend_id c)) as [Hb|Hb].
  - rewrite Hb, !bool_decide_eq_true_2 by done. done.
  - rewrite (bool_decide_eq_false_2 (backend_id c' = backend_id c)) by done.
    rewrite (bool_decide_eq_false_2 (backend_id c = backend_id c')) by congruence.
    by rewrite !andb_false_r.
Qed.

Lemma same_group_trans (cfg : Config) (c1 c2 c3 : Channel) :
  same_group cfg c1 c2 = true -> same_group cfg c2 c3 = true ->
  same_group cfg c1 c3 = true.
Proof.
  unfold same_group. intros H12 H23.
  destruct (decide (c2 = c1)) as [->|Hne12]; [exact H23|].
  destruct (decide (c3 = c2)) as [->|Hne23]; [exact H12|].
  rewrite (bool_decide_eq_false_2 (c2 = c1)) in H12 by done.
  rewrite (bool_decide_eq_false_2 (c3 = c2)) in H23 by done.
  cbn [orb] in H12, H23.
  apply andb_true_iff in H12 as [Hm1 Hb12], H23 as [Hm2 Hb23].
  apply bool_decide_eq_true_1 in Hb12, Hb23.
  rewrite Hm1. rewrite (bool_decide_eq_true_2 (backend_id c3 = backend_id c1))
    by congruence.
  by rewrite orb_true_r.
Qed.

(** Channels of one group agree on who is in the group. *)
Lemma same_group_eq (cfg : Config) (c c' x : Channel) :
  same_group cfg c c' = true -> same_group cfg c' x = same_group cfg c x.
Proof.
  intros H. destruct (same_group cfg c x) eqn:E.
  - apply (same_group_trans cfg c' c x); [|exact E]. by rewrite same_group_sym.
  - destruct (same_group cfg c' x) eqn:E'; [|done].
    rewrite <- E. symmetry. by apply (same_group_trans cfg c c' x).
Qed.

Lemma chans_store (cfg : Config) (s : Core) (c c' : Channel) (k : Connection)
    (evs : list CanonicalEvent) :
  chans (store cfg s c k evs) c' =
  if same_group cfg c c'
  then {| conn := k;
          queue := queue (chans s c') ++ filter (fun ev => channel ev = c') evs |}
  else chans s c'.
Proof. reflexivity. Qed.

Lemma chans_store_self (cfg : Config) (s : Core) (c : Channel) (k : Connection)
    (evs : list CanonicalEvent) :
  chans (store cfg s c k evs) c =
  {| conn := k;
     queue := queue (chans s c) ++ filter (fun ev => channel ev = c) evs |}.
Proof. by rewrite chans_store, same_group_refl. Qed.

Lemma connection_step_spec (cfg : Config) (s : Core) (c : Channel)
    (f : Connection -> outcome) :
  connection_step cfg s c f =
  (let k := conn (chans s c) in
   let s1 := store cfg s c (f k).1.1 (f k).1.2 in
   if closes k (f k).1.1
   then ((destroy cfg s1 c).1, (f k).2 ++ (destroy cfg s1 c).2)
   else (s1, (f k).2)).
Proof.
  unfold connection_step. cbv zeta.
  destruct (f (conn (chans s c))) as [[k' evs] effs]. cbn [fst snd].
  by destruct (closes _ _).
Qed.

(** A transition that leaves the Connection in a status other than Closed
    stores it and queues its events. *)
Lemma connection_step_open (cfg : Config) (s : Core) (c : Channel)
    (f : Connection -> outcome) :
  conn_status (f (conn (chans s c))).1.1 <> Closed ->
  connection_step cfg s c f =
  (store cfg s c (f (conn (chans s c))).1.1 (f (conn (chans s c))).1.2,
   (f (conn (chans s c))).2).
Proof.
  intros Hst. rewrite connection_step_spec. cbv zeta. unfold closes.
  rewrite (bool_decide_eq_false_2 _ Hst). by rewrite andb_false_r.
Qed.



(** *** Polling fallback *)

#[local] Instance row_le_trans : Transitive row_le.
Proof. intros a b d. unfold row_le. lia. Qed.

#[local] Instance row_le_total : Total row_le.
Proof. intros a b. unfold row_le. lia. Qed.

Lemma StronglySorted_filter {A} (R : relation A) (P : A -> Prop)
    `{!forall x, Decision (P x)} (l : list A) :
  StronglySorted R l -> StronglySorted R (filter P l).
Proof.
  induction 1 as [|x l Hl IH Hx]; [constructor|].
  rewrite filter_cons. destruct (decide (P x)); [|exact IH].
  constructor; [exact IH|].
  apply Forall_forall. intros y Hy.
  apply list_elem_of_filter in Hy as [_ Hy].
  rewrite Forall_forall in Hx. by apply Hx.
Qed.

Lemma fresh_rows_sorted (cursor : Z) (rows : list Row) :
  StronglySorted row_le (fresh_rows cursor rows).
Proof. apply StronglySorted_filter, StronglySorted_merge_sort; apply _. Qed.

Lemma fresh_rows_newer (cursor : Z) (rows : list Row) :
  Forall (fun r => cursor < row_id r /\ r ∈ rows) (fresh_rows cursor rows).
Proof.
  apply Forall_forall. intros r Hr.
  apply list_elem_of_filter in Hr as [Hlt Hin]. split; [exact Hlt|].
  by rewrite merge_sort_Permutation in Hin.
Qed.

Lemma poll_events (p : BackendProfile) (c : Channel) (cursor : Z) (rows : list Row) :
  (poll p c cursor rows).1 = update_of_row p c <$> fresh_rows cursor rows.
Proof. reflexivity. Qed.

Lemma foldl_max_bounds (i : Z) (ids : list Z) :
  i <= foldl Z.max i ids
  /\ Forall (fun j => j <= foldl Z.max i ids) ids
  /\ foldl Z.max i ids ∈ i :: ids.
Proof.
  revert i. induction ids as [|j ids IH]; intros i; cbn [foldl].
  - split; [lia|]. split; [constructor|]. set_solver.
  - destruct (IH (Z.max i j)) as (H1 & H2 & H3).
    split; [lia|]. split.
    + constructor; [lia|exact H2].
    + apply elem_of_cons in H3 as [H3|H3]; [|set_solver].
      rewrite H3. destruct (Z.max_spec i j) as [[_ ->]|[_ ->]]; set_solver.
Qed.

(** The cursor a poll leaves: not below the old one, not below any id it
    emitted, and either the old cursor or one of the emitted ids. *)
Lemma poll_cursor (p : BackendProfile) (c : Channel) (cursor : Z) (rows : list Row) :
  let new := (poll p c cursor rows).2 in
  cursor <= new
  /\ Forall (fun r => row_id r <= new) (fresh_rows cursor rows)
  /\ (new = cursor \/ new ∈ row_id <$> fresh_rows cursor rows).
Proof.
  unfold poll. cbv zeta. cbn [snd].
  pose proof (fresh_rows_newer cursor rows) as Hnew.
  destruct (fresh_rows cursor rows) as [|r rs] eqn:E; cbn [fmap list_fmap].
  - split; [lia|]. split; [constructor|]. by left.
  - destruct (foldl_max_bounds (row_id r) (row_id <$> rs)) as (H1 & H2 & H3).
    apply Forall_cons in Hnew as [[Hr _] _].
    split; [lia|]. split.
    + constructor; [exact H1|].
      rewrite Forall_fmap in H2. exact H2.
    + right. exact H3.
Qed.

Lemma poll_ids (p : BackendProfile) (c : Channel) (cursor : Z) (rows : list Row) :
  omap sequence_id (poll p c cursor rows).1 = row_id <$> fresh_rows cursor rows.
Proof.
  rewrite poll_events. induction (fresh_rows cursor rows) as [|r rs IH]; [done|].
  cbn. by rewrite IH.
Qed.

(** No event of a poll carries an id at or below the cursor. *)
Lemma poll_never_reemits (p : BackendProfile) (c : Channel) (cursor : Z) (rows : list Row) :
  Forall (fun ev => type ev = Update
                    /\ exists i, sequence_id ev = Some i /\ cursor < i)
    (poll p c cursor rows).1.
Proof.
  rewrite poll_events, Forall_fmap.
  eapply Forall_impl; [apply fresh_rows_newer|].
  intros r [Hr _]. split; [reflexivity|]. exists (row_id r). by split.
Qed.

Lemma poll_ascending (p : BackendProfile) (c : Channel) (cursor : Z) (rows : list Row) :
  StronglySorted Z.le (omap sequence_id (poll p c cursor rows).1).
Proof.
  rewrite poll_ids.
  eapply StronglySorted_fmap; [|apply fresh_rows_sorted].
  intros a b Hab. exact Hab.
Qed.


Lemma filter_own_channel (c : Channel) (evs : list CanonicalEvent) :
  Forall (fun ev => channel ev = c) evs ->
  filter (fun ev => channel ev = c) evs = evs.
Proof.
  induction 1 as [|ev evs Hev _ IH]; [done|].
  by rewrite filter_cons, decide_True, IH.
Qed.

Lemma poll_own_channel (p : BackendProfile) (c : Channel) (cursor : Z)
    (rows : list Row) :
  Forall (fun ev => channel ev = c) (poll p c cursor rows).1.
Proof. rewrite poll_events, Forall_fmap. by apply Forall_forall. Qed.

(** What a poll result does to an Open Connection on a polling profile. *)
Lemma poll_result_open (cfg : Config) (now : Z) (s : Core) (c : Channel)
    (rows : list Row) :
  conn_status (conn (chans s c)) = Open ->
  transport (profile_of cfg (backend_id c)) = Polling ->
  step cfg now s (PollResult c rows) =
  (let r := poll (profile_of cfg (backend_id c)) c
              (last_event_cursor (conn (chans s c))) rows in
   (store cfg s c (set_cursor r.2 (conn (chans s c))) r.1, [])).
Proof.
  intros Hopen Hpoll. cbn [step handler].
  assert (Hres : on_poll_result (profile_of cfg (backend_id c)) c
                   (conn (chans s c)) rows
                 = (let r := poll (profile_of cfg (backend_id c)) c
                               (last_event_cursor (conn (chans s c))) rows in
                    (set_cursor r.2 (conn (chans s c)), r.1, []))).
  { unfold on_poll_result. by rewrite Hopen, Hpoll. }
  rewrite connection_step_open; rewrite Hres; cbv zeta; cbn [fst snd]; [done|].
  unfold set_cursor. cbn. by rewrite Hopen.
Qed.

(** C3. Scenario C.  A polling Channel whose cursor is 9 receives the
    items with ids 10, 11, 12 (in whatever order the fetch returned them):
    exactly three [update] events are emitted, in ascending id order, and
    the cursor becomes 12; a following poll that returns the item 12 alone
    emits nothing and leaves the cursor at 12.  In general no poll emits an
    event whose id is at or below the cursor, the events of a poll are in
    ascending id order, and the cursor it leaves is at least the old cursor
    and at least every id it emitted. *)
Theorem polling_fallback_scenario
    (cfg : Config) (now1 now2 : Z) (s : Core) (c : Channel) (a b d : string) :
  conn_status (conn (chans s c)) = Open ->
  transport (profile_of cfg (backend_id c)) = Polling ->
  last_event_cursor (conn (chans s c)) = 9 ->
  Forall (fun rows =>
            let p := profile_of cfg (backend_id c) in
            let r1 := step cfg now1 s (PollResult c rows) in
            let r2 := step cfg now2 r1.1 (PollResult c [Build_Row 12 d]) in
            queue (chans r1.1 c) =
              queue (chans s c) ++
                (update_of_row p c <$>
                   [Build_Row 10 a; Build_Row 11 b; Build_Row 12 d])
            /\ last_event_cursor (conn (chans r1.1 c)) = 12
            /\ r1.2 = []
            /\ queue (chans r2.1 c) = queue (chans r1.1 c)
            /\ last_event_cursor (conn (chans r2.1 c)) = 12
            /\ r2.2 = [])
    (permutations [Build_Row 10 a; Build_Row 11 b; Build_Row 12 d])
  /\ (forall (p : BackendProfile) (cursor : Z) (rows : list Row),
        Forall (fun ev => type ev = Update
                          /\ exists i, sequence_id ev = Some i /\ cursor < i)
          (poll p c cursor rows).1
        /\ StronglySorted Z.le (omap sequence_id (poll p c cursor rows).1)
        /\ cursor <= (poll p c cursor rows).2
        /\ Forall (fun i => i <= (poll p c cursor rows).2)
             (omap sequence_id (poll p c cursor rows).1)).
Proof.
  intros Hopen Hpoll Hcur. split.
  - assert (Hstep : forall rows,
               poll (profile_of cfg (backend_id c)) c 9 rows =
                 (update_of_row (profile_of cfg (backend_id c)) c <$>
                    [Build_Row 10 a; Build_Row 11 b; Build_Row 12 d], 12) ->
               let p := profile_of cfg (backend_id c) in
               let r1 := step cfg now1 s (PollResult c rows) in
               let r2 := step cfg now2 r1.1 (PollResult c [Build_Row 12 d]) in
               queue (chans r1.1 c) =
                 queue (chans s c) ++
                   (update_of_row p c <$>
                      [Build_Row 10 a; Build_Row 11 b; Build_Row 12 d])
               /\ last_event_cursor (conn (chans r1.1 c)) = 12
               /\ r1.2 = []
               /\ queue (chans r2.1 c) = queue (chans r1.1 c)
               /\ last_event_cursor (conn (chans r2.1 c)) = 12
               /\ r2.2 = []).
    { intros rows Hrows p r1 r2. subst p r1 r2.
      rewrite (poll_result_open cfg now1 s c rows Hopen Hpoll).
      cbv zeta. rewrite Hcur, Hrows. cbn [fst snd].
      rewrite poll_result_open; cbn [fst snd];
        rewrite ?chans_store_self;
        cbn [conn queue set_cursor conn_status last_event_cursor];
        [|exact Hopen|exact Hpoll].
      cbv zeta. cbn [fst snd]. rewrite ?chans_store_self.
      cbn [conn queue set_cursor conn_status last_event_cursor].
      rewrite filter_own_channel by (rewrite Forall_fmap; by apply Forall_forall).
      repeat split. by rewrite app_nil_r. }
    repeat (apply List.Forall_cons; [apply Hstep; reflexivity|]).
    apply List.Forall_nil.
  - intros p cursor rows.
    split; [apply poll_never_reemits|]. split; [apply poll_ascending|].
    destruct (poll_cursor p c cursor rows) as (H1 & H2 & _).
    split; [exact H1|]. rewrite poll_ids, Forall_fmap. exact H2.
Qed.

(** *** Transitions of a Connection *)

Lemma step_transport (cfg : Config) (now : Z) (s : Core) (i : input) (c : Channel) :
  transport_input i = Some c ->
  step cfg now s i = connection_step cfg s c (handler cfg now s i).
Proof. destruct i; intros [= <-]; reflexivity. Qed.

(** The normalizer keeps the Channel and never yields a terminal error. *)
Lemma normalize_ok (p : BackendProfile) (c : Channel) (f : RawFrame)
    (ev : CanonicalEvent) :
  normalize p c f = Some ev -> channel ev = c /\ type ev <> Error.
Proof.
  unfold normalize, parse_discriminator.
  destruct (discriminators p !! discriminator f) as [ty|]; [|discriminate].
  destruct ty; intros [= <-]; by split.
Qed.

Ltac unfold_handlers :=
  unfold on_connect_ok, on_idle_check, on_failure, on_frame, on_backoff_elapsed,
    on_poll_timer, on_poll_result, on_grace_elapsed, retry, close_fatally,
    set_cursor, set_status.

(** Identity, cursor, inertness and effects of a transition. *)
Lemma handler_quiet (cfg : Config) (now : Z) (s : Core) (i : input) (c : Channel)
    (k : Connection) :
  transport_input i = Some c ->
  let f := handler cfg now s i in
  id (f k).1.1 = id k
  /\ last_event_cursor k <= last_event_cursor (f k).1.1
  /\ (live (conn_status k) = false -> f k = (k, [], []))
  /\ Forall (fun e =>
               caller_visible e = false /\ effect_channel e = Some c
               /\ match e with
                  | ResumeFrom _ x | Fetch _ x => x = last_event_cursor k
                  | _ => True
                  end) (f k).2.
Proof.
  intros Hi f. subst f. destruct i; try discriminate Hi; injection Hi as ->;
    cbn [handler].
  8: { (* PollResult *)
    unfold on_poll_result.
    pose proof (poll_cursor (profile_of cfg (backend_id c)) c
                  (last_event_cursor k) rows) as (Hle & _).
    destruct (conn_status k) eqn:Hst, (transport (profile_of cfg (backend_id c)));
      cbn; repeat split; try done; try lia; try (by constructor);
      intros _; congruence. }
  all: unfold_handlers.
  all: repeat case_match; simplify_eq/=.
  all: repeat split; try done; try lia.
  all: try (intros _; congruence).
  all: repeat (constructor; try done).
Qed.

(** The events of a transition. *)
Lemma handler_events (cfg : Config) (now : Z) (s : Core) (i : input) (c : Channel)
    (k : Connection) :
  transport_input i = Some c ->
  let f := handler cfg now s i in
  Forall (fun ev => channel ev = c /\ type ev <> Error) (f k).1.2
  \/ (conn_status (f k).1.1 = Closed
      /\ exists reason,
           (f k).1.2 = (fun c' => terminal_error c' reason) <$> served cfg s c).
Proof.
  intros Hi f. subst f. destruct i; try discriminate Hi; injection Hi as ->;
    cbn [handler].
  - (* GraceElapsed *)
    left. unfold on_grace_elapsed. repeat case_match; constructor.
  - (* ConnectOk *)
    left. unfold on_connect_ok. repeat case_match; constructor.
  - (* Failed *)
    unfold on_failure, retry, close_fatally.
    repeat case_match; try (left; constructor);
      right; (split; [reflexivity|]); eexists; reflexivity.
  - (* FrameIn *)
    left. unfold on_frame. cbv zeta.
    destruct (conn_status k); try constructor.
    destruct (normalize _ c f) as [ev|] eqn:Hn; [|constructor].
    apply normalize_ok in Hn.
    repeat case_match; repeat constructor; tauto.
  - (* IdleCheck *)
    unfold on_idle_check, on_failure, retry, close_fatally.
    repeat case_match; try (left; constructor);
      right; (split; [reflexivity|]); eexists; reflexivity.
  - (* BackoffElapsed *)
    left. unfold on_backoff_elapsed. repeat case_match; constructor.
  - (* PollTimer *)
    left. unfold on_poll_timer. repeat case_match; constructor.
  - (* PollResult *)
    left. unfold on_poll_result. repeat case_match; try constructor.
    cbn [fst snd]. rewrite poll_events, Forall_fmap. by apply Forall_forall.
Qed.

Lemma handler_regular (cfg : Config) (now : Z) (s : Core) (i : input) (c : Channel) :
  transport_input i = Some c -> regular c (served cfg s c) (handler cfg now s i).
Proof.
  intros Hi k.
  destruct (handler_quiet cfg now s i c k Hi) as (H1 & H2 & H3 & H4).
  repeat split; try done. by apply handler_events.
Qed.

(** *** Invariant of the reachable states *)

Lemma Forall_filter {A} (P Q : A -> Prop) `{!forall x, Decision (Q x)} (l : list A) :
  Forall P l -> Forall P (filter Q l).
Proof.
  rewrite !Forall_forall. intros Hall x Hx.
  apply list_elem_of_filter in Hx as [_ Hx]. by apply Hall.
Qed.

Lemma NoDup_sublist {A} (l1 l2 : list A) :
  l1 `sublist_of` l2 -> NoDup l2 -> NoDup l1.
Proof. intros H1 H2. by eapply sublist_NoDup. Qed.

Lemma handles_filter_sublist (P : Subscription -> Prop) `{!forall x, Decision (P x)}
    (l : list Subscription) :
  handles (filter P l) `sublist_of` handles l.
Proof. unfold handles. apply fmap_sublist, sublist_filter. Qed.

Lemma same_group_eq_r (cfg : Config) (c c' x : Channel) :
  same_group cfg c c' = true -> same_group cfg x c' = same_group cfg x c.
Proof.
  intros H. rewrite (same_group_sym cfg x c'), (same_group_sym cfg x c).
  by apply same_group_eq.
Qed.

Lemma consistent_init (cfg : Config) : consistent cfg init.
Proof.
  split; [constructor|]. split; [constructor|]. split; [intros c; cbn; lia|].
  split; [done|]. intros c. constructor.
Qed.

Ltac transport_case cfg now s i c' Hti :=
  rewrite (step_transport cfg now s i c' Hti), connection_step_spec;
  pose proof (handler_regular cfg now s i c' Hti (conn (chans s c')))
    as (Hid & Hcur & Hinert & Heff & Hev).

(** When a transition does not close the Connection, the events it
    queues for a Channel are events of the Channel and no terminal
    error. *)
Lemma queued_events_ok (c c0 : Channel) (chs : list Channel)
    (f : Connection -> outcome) (k : Connection) :
  regular c chs f -> closes k (f k).1.1 = false ->
  Forall (fun ev => channel ev = c0 /\ type ev <> Error)
    (filter (fun ev => channel ev = c0) (f k).1.2).
Proof.
  intros Hreg Hcl. destruct (Hreg k) as (_ & _ & Hinert & _ & [Hev|[Hst _]]).
  - apply Forall_forall. intros ev Hin.
    apply list_elem_of_filter in Hin as [Hc Hin].
    rewrite Forall_forall in Hev. destruct (Hev _ Hin) as [_ Hty]. by split.
  - unfold closes in Hcl. rewrite Hst, bool_decide_eq_true_2, andb_true_r in Hcl by done.
    rewrite (Hinert Hcl). constructor.
Qed.

Lemma consistent_step (cfg : Config) (now : Z) (s : Core) (i : input) :
  consistent cfg s -> consistent cfg (step cfg now s i).1.
Proof.
  intros (Hnd & Hlt & Hids & Hsh & Hq).
  destruct (transport_input i) as [c'|] eqn:Hti.
  - pose proof (handler_regular cfg now s i c' Hti) as Hreg.
    transport_case cfg now s i c' Hti. cbv zeta.
    destruct (closes _ _) eqn:Hcl; cbn [fst].
    + unfold destroy, consistent. cbn [fst subs next_handle next_conn chans store].
      split; [|split; [|split; [|split]]].
      * eapply NoDup_sublist; [apply handles_filter_sublist|exact Hnd].
      * by apply Forall_filter.
      * intros c. destruct (same_group cfg c' c); cbn [conn]; [|apply Hids].
        rewrite Hid. apply Hids.
      * intros c1 c2 H12. rewrite (same_group_eq_r cfg c1 c2 c' H12).
        destruct (same_group cfg c' c1); cbn [conn]; [done|by apply Hsh].
      * intros c. destruct (same_group cfg c' c); cbn [queue]; [constructor|apply Hq].
    + unfold consistent. cbn [subs next_handle next_conn chans store].
      split; [exact Hnd|]. split; [exact Hlt|]. split; [|split].
      * intros c. destruct (same_group cfg c' c); cbn [conn]; [|apply Hids].
        rewrite Hid. apply Hids.
      * intros c1 c2 H12. rewrite (same_group_eq_r cfg c1 c2 c' H12).
        destruct (same_group cfg c' c1); cbn [conn]; [done|by apply Hsh].
      * intros c. destruct (same_group cfg c' c); cbn [queue]; [|apply Hq].
        apply Forall_app. split; [apply Hq|].
        by eapply queued_events_ok.
  - destruct i; try discriminate Hti; cbn [step].
    + (* Subscribe *)
      unfold subscribe.
      assert (Hfresh : next_handle s ∉ handles (subs s)).
      { intros Hin. unfold handles in Hin.
        apply list_elem_of_fmap in Hin as (sub & Heq & Hin).
        rewrite Forall_forall in Hlt. specialize (Hlt sub Hin). lia. }
      assert (Hnd' : NoDup (handles (subs s ++
                 [ {| sub_channel := c; subscriber_handle := next_handle s;
                      callback := cb |} ]))).
      { unfold handles. rewrite fmap_app. cbn.
        apply NoDup_app. split; [exact Hnd|]. split; [|apply NoDup_singleton].
        intros x Hx Hx'. apply list_elem_of_singleton in Hx'. by subst. }
      assert (Hlt' : Forall (fun sub => (subscriber_handle sub < S (next_handle s))%nat)
                       (subs s ++
                 [ {| sub_channel := c; subscriber_handle := next_handle s;
                      callback := cb |} ])).
      { apply Forall_app. split.
        - eapply Forall_impl; [exact Hlt|]. cbn. lia.
        - repeat constructor; cbn; lia. }
      unfold consistent.
      destruct (live _); cbn [fst subs next_handle next_conn chans];
        (split; [exact Hnd'|]); (split; [exact Hlt'|]).
      * by repeat split.
      * split; [|split].
        -- intros c'. destruct (same_group cfg c c'); cbn; [lia|].
           specialize (Hids c'). lia.
        -- intros c1 c2 H12. rewrite (same_group_eq_r cfg c1 c2 c H12).
           destruct (same_group cfg c c1); cbn [conn]; [done|by apply Hsh].
        -- intros c'. destruct (same_group cfg c c'); cbn [queue]; apply Hq.
    + (* Unsubscribe *)
      unfold unsubscribe, consistent. cbn. split; [|split; [|by repeat split]].
      * eapply NoDup_sublist; [apply handles_filter_sublist|exact Hnd].
      * by apply Forall_filter.
    + (* Dispatch *)
      unfold dispatch.
      destruct (queue (chans s c)) as [|ev rest] eqn:Hqc; [by repeat split|].
      unfold consistent. cbn [fst subs next_handle next_conn chans].
      split; [exact Hnd|]. split; [exact Hlt|]. split; [|split].
      * intros c'. destruct (decide (c' = c)) as [->|]; [|apply Hids].
        cbn. apply Hids.
      * intros c1 c2 H12.
        destruct (decide (c2 = c)) as [->|], (decide (c1 = c)) as [->|];
          cbn [conn]; by apply Hsh.
      * intros c'. destruct (decide (c' = c)) as [->|]; [|apply Hq].
        cbn [queue]. specialize (Hq c). rewrite Hqc in Hq.
        by apply Forall_cons in Hq as [_ Hq].
Qed.

Lemma run_cons (cfg : Config) (s : Core) (now : Z) (i : input) (t : list (Z * input)) :
  run cfg s ((now, i) :: t) =
  ((run cfg (step cfg now s i).1 t).1,
   (step cfg now s i).2 ++ (run cfg (step cfg now s i).1 t).2).
Proof.
  cbn [run]. destruct (step cfg now s i) as [s1 out1].
  cbn [fst snd]. destruct (run cfg s1 t) as [s2 out2]. reflexivity.
Qed.


Lemma consistent_run (cfg : Config) (s : Core) (t : list (Z * input)) :
  consistent cfg s -> consistent cfg (run cfg s t).1.
Proof.
  revert s. induction t as [|[now i] t IH]; intros s Hs; [exact Hs|].
  rewrite run_cons. cbn [fst]. apply IH. by apply consistent_step.
Qed.

(** *** Queues of Channels without a Connection *)

(** A transition of a live Connection leaves it live or Closed. *)
Lemma handler_not_idle (cfg : Config) (now : Z) (s : Core) (i : input) (c : Channel)
    (k : Connection) :
  transport_input i = Some c ->
  live (conn_status k) = true ->
  conn_status (handler cfg now s i k).1.1 <> Idle.
Proof.
  intros Hi Hk. destruct i; try discriminate Hi; cbn [handler].
  8: { unfold on_poll_result.
       destruct (conn_status k) eqn:Hst, (transport (profile_of cfg (backend_id c0)));
         try discriminate Hk; cbn; by rewrite ?Hst. }
  all: unfold_handlers.
  all: repeat case_match; simplify_eq/=; try done.
  all: by destruct (conn_status k).
Qed.

(** Nothing is queued for a Channel that has no live Connection: closing a
    Connection works off the queues of its Channels, and a Connection that
    is Idle or Closed queues nothing. *)
Lemma step_empty_queue (cfg : Config) (now : Z) (s : Core) (i : input) :
  consistent cfg s ->
  (forall c, live (conn_status (conn (chans s c))) = false -> queue (chans s c) = []) ->
  forall c, live (conn_status (conn (chans (step cfg now s i).1 c))) = false ->
            queue (chans (step cfg now s i).1 c) = [].
Proof.
  intros (Hnd & Hlt & Hids & Hsh & Hq) Hempty c.
  destruct (transport_input i) as [c'|] eqn:Hti.
  - pose proof (handler_not_idle cfg now s i c' (conn (chans s c')) Hti) as Hidle.
    transport_case cfg now s i c' Hti. cbv zeta.
    destruct (closes _ _) eqn:Hcl; cbn [fst].
    + unfold destroy. cbn [fst chans store].
      destruct (same_group cfg c' c) eqn:Hg; cbn [conn queue]; [done|apply Hempty].
    + cbn [chans store]. destruct (same_group cfg c' c) eqn:Hg; cbn [conn queue];
        [|apply Hempty].
      intros Hdead.
      destruct (live (conn_status (conn (chans s c')))) eqn:Hlive.
      * exfalso. unfold closes in Hcl. rewrite Hlive in Hcl. cbn [andb] in Hcl.
        apply bool_decide_eq_false in Hcl. specialize (Hidle eq_refl).
        destruct (conn_status (handler cfg now s i (conn (chans s c'))).1.1);
          done.
      * rewrite (Hinert eq_refl). cbn [fst snd]. rewrite filter_nil, app_nil_r.
        apply Hempty. by rewrite (Hsh c' c Hg).
  - destruct i; try discriminate Hti; cbn [step].
    + unfold subscribe. destruct (live (conn_status (conn (chans s c0))));
        cbn [fst chans]; [apply Hempty|].
      destruct (same_group cfg c0 c); cbn [conn queue]; [done|apply Hempty].
    + unfold unsubscribe. cbn [fst chans]. apply Hempty.
    + unfold dispatch. destruct (queue (chans s c0)) as [|ev rest] eqn:Hqc;
        cbn [fst chans]; [apply Hempty|].
      case_decide as Hc; cbn [conn queue]; [|apply Hempty].
      subst c. intros Hdead. by rewrite (Hempty c0 Hdead) in Hqc.
Qed.

Lemma no_queue_without_connection (cfg : Config) (t : list (Z * input)) (c : Channel) :
  live (conn_status (conn (chans (run cfg init t).1 c))) = false ->
  queue (chans (run cfg init t).1 c) = [].
Proof.
  enough (H : forall s, consistent cfg s ->
                (forall c, live (conn_status (conn (chans s c))) = false ->
                           queue (chans s c) = []) ->
                forall c, live (conn_status (conn (chans (run cfg s t).1 c))) = false ->
                          queue (chans (run cfg s t).1 c) = []).
  { apply H; [apply consistent_init|done]. }
  induction t as [|[now i] t IH]; intros s Hs Hempty; [exact Hempty|].
  rewrite run_cons. cbn [fst]. apply IH.
  - by apply consistent_step.
  - by apply step_empty_queue.
Qed.

(** *** What the Dispatcher delivers *)

Lemma delivered_to_app (c : Channel) (h : nat) (o1 o2 : list effect) :
  delivered_to c h (o1 ++ o2) = delivered_to c h o1 ++ delivered_to c h o2.
Proof. unfold delivered_to. apply omap_app. Qed.

(** One event delivered to the Subscriptions [l]: the callback of handle
    [h] on Channel [c] is invoked once if [l] holds that Subscription, and
    not at all otherwise. *)
Lemma delivered_to_fanout (c : Channel) (h : nat) (ev : CanonicalEvent)
    (l : list Subscription) :
  NoDup (handles l) ->
  delivered_to c h ((fun sub => Deliver sub ev) <$> l) =
  if decide (Exists (fun sub => sub_channel sub = c /\ subscriber_handle sub = h) l)
  then [ev] else [].
Proof.
  induction l as [|sub l IH]; intros Hnd.
  - cbn. rewrite decide_False; [done|]. by intros H%Exists_nil.
  - apply NoDup_cons in Hnd as [Hnotin Hnd]. specialize (IH Hnd).
    cbn [fmap list_fmap delivered_to omap list_omap].
    fold (delivered_to c h ((fun sub => Deliver sub ev) <$> l)).
    rewrite IH. clear IH.
    destruct (decide (sub_channel sub = c /\ subscriber_handle sub = h)) as [[Hc Hh]|Hno].
    + rewrite (decide_True (P := Exists _ (sub :: l))) by (by left).
      rewrite decide_False; [done|].
      intros Hex. apply Exists_exists in Hex as (sub' & Hin & _ & Hh').
      apply Hnotin. unfold handles. apply list_elem_of_fmap.
      exists sub'. split; [congruence|exact Hin].
    + destruct (decide (Exists _ l)) as [Hex|Hnex].
      * rewrite decide_True by (by right). done.
      * rewrite decide_False; [done|].
        intros Hex. apply Exists_cons in Hex as [?|?]; tauto.
Qed.

Lemma subs_of_handles_NoDup (c : Channel) (l : list Subscription) :
  NoDup (handles l) -> NoDup (handles (subs_of c l)).
Proof. intros H. eapply NoDup_sublist; [apply handles_filter_sublist|exact H]. Qed.

(** The holder of handle [h] on Channel [c] is among the Subscriptions
    bound to [c'] exactly when [c' = c] and it is a Subscription at all. *)
Lemma Exists_subs_of (c c' : Channel) (h : nat) (l : list Subscription) :
  Exists (fun sub => sub_channel sub = c /\ subscriber_handle sub = h) (subs_of c' l)
  <-> c' = c
      /\ Exists (fun sub => sub_channel sub = c /\ subscriber_handle sub = h) l.
Proof.
  rewrite !Exists_exists. split.
  - intros (sub & Hin & Hc & Hh). apply list_elem_of_filter in Hin as [Hc' Hin].
    split; [congruence|]. by exists sub.
  - intros (-> & sub & Hin & Hc & Hh). exists sub. split; [|done].
    apply list_elem_of_filter. done.
Qed.

(** The queue of Channel [c'] worked off: the callback of handle [h] on
    Channel [c] is invoked with the whole queue, in order, if [c' = c] and
    the Subscription is current, and not at all otherwise. *)
Lemma delivered_to_deliveries (s : Core) (c c' : Channel) (h : nat) :
  NoDup (handles (subs s)) ->
  delivered_to c h (deliveries s c') =
  if decide (c' = c
             /\ Exists (fun sub => sub_channel sub = c /\ subscriber_handle sub = h)
                  (subs s))
  then queue (chans s c) else [].
Proof.
  intros Hnd. unfold deliveries.
  assert (Hgen : forall q : list CanonicalEvent,
             delivered_to c h
               (ev ← q; (fun sub => Deliver sub ev) <$> subs_of c' (subs s))
             = if decide (Exists (fun sub => sub_channel sub = c
                                             /\ subscriber_handle sub = h)
                            (subs_of c' (subs s)))
               then q else []).
  { induction q as [|ev q IH].
    - by destruct (decide _).
    - cbn [mbind list_bind]. rewrite delivered_to_app, IH.
      rewrite delivered_to_fanout by (by apply subs_of_handles_NoDup).
      by destruct (decide _). }
  rewrite Hgen.
  destruct (decide (Exists _ (subs_of c' (subs s)))) as [Hex|Hnex].
  - apply Exists_subs_of in Hex as [-> Hex]. by rewrite decide_True.
  - rewrite decide_False; [done|]. intros [Hc Hex]. apply Hnex.
    by apply Exists_subs_of.
Qed.

Lemma elem_of_served (cfg : Config) (s : Core) (c c' : Channel) :
  c' ∈ served cfg s c
  <-> same_group cfg c c' = true /\ exists sub, sub ∈ subs s /\ sub_channel sub = c'.
Proof.
  unfold served. rewrite elem_of_remove_dups, list_elem_of_fmap. split.
  - intros (sub & -> & Hin). apply list_elem_of_filter in Hin as [Hg Hin].
    split; [exact Hg|]. by exists sub.
  - intros (Hg & sub & Hin & <-). exists sub. split; [done|].
    apply list_elem_of_filter. done.
Qed.

Lemma NoDup_served (cfg : Config) (s : Core) (c : Channel) : NoDup (served cfg s c).
Proof. apply NoDup_remove_dups. Qed.

(** The Channels of a closed Connection destroyed, seen from the callback
    of handle [h] on Channel [c]: it is invoked with the whole queue of
    [c] if [c] is a Channel of the Connection and the Subscription is
    current, and not at all otherwise. *)
Lemma delivered_to_destroy (cfg : Config) (s : Core) (c0 c : Channel) (h : nat) :
  NoDup (handles (subs s)) ->
  delivered_to c h (destroy cfg s c0).2 =
  if decide (same_group cfg c0 c = true
             /\ Exists (fun sub => sub_channel sub = c /\ subscriber_handle sub = h)
                  (subs s))
  then queue (chans s c) else [].
Proof.
  intros Hnd. unfold destroy. cbn [snd].
  assert (Hgen : forall chs : list Channel,
             NoDup chs ->
             delivered_to c h (c' ← chs; deliveries s c')
             = if decide (c ∈ chs
                          /\ Exists (fun sub => sub_channel sub = c
                                                /\ subscriber_handle sub = h)
                               (subs s))
               then queue (chans s c) else []).
  { induction chs as [|c' chs IH]; intros Hchs.
    - cbn. rewrite decide_False; [done|]. intros [Hin _]. by apply not_elem_of_nil in Hin.
    - apply NoDup_cons in Hchs as [Hnotin Hchs].
      cbn [mbind list_bind]. rewrite delivered_to_app, (IH Hchs).
      rewrite (delivered_to_deliveries s c c' h Hnd).
      destruct (decide (c' = c /\ _)) as [[-> Hex]|Hno].
      + rewrite (decide_True (P := c ∈ c :: chs /\ _)) by (split; [by left|done]).
        rewrite decide_False by (intros [? _]; done). by rewrite app_nil_r.
      + cbn [app]. destruct (decide (c ∈ chs /\ _)) as [[Hin Hex]|Hno'].
        * rewrite decide_True; [done|]. split; [by right|done].
        * rewrite decide_False; [done|]. intros [Hin Hex].
          apply elem_of_cons in Hin as [->|Hin]; tauto. }
  rewrite (Hgen _ (NoDup_served cfg s c0)).
  destruct (decide (c ∈ served cfg s c0 /\ _)) as [[Hin Hex]|Hno].
  - apply elem_of_served in Hin as [Hg _]. by rewrite decide_True.
  - rewrite decide_False; [done|]. intros [Hg Hex]. apply Hno. split; [|done].
    apply elem_of_served. split; [done|].
    apply Exists_exists in Hex as (sub & Hin & Hc & _). by exists sub.
Qed.

(** *** What one transition hands to the caller *)

(** The effects of a transition of a Connection hold no handle and no
    callback invocation. *)
Lemma regular_silent (c : Channel) (chs : list Channel) (f : Connection -> outcome)
    (k : Connection) :
  regular c chs f ->
  returned_handles (f k).2 = []
  /\ (forall c' h, delivered_to c' h (f k).2 = [])
  /\ (forall sub ev, Deliver sub ev ∉ (f k).2)
  /\ (forall h, Handle h ∉ (f k).2).
Proof.
  intros Hreg. destruct (Hreg k) as (_ & _ & _ & Heff & _).
  induction Heff as [|e l (Hvis & _ & _) _ IH].
  - repeat split; intros; apply not_elem_of_nil.
  - destruct IH as (IH1 & IH2 & IH3 & IH4).
    destruct e; try discriminate Hvis.
    all: repeat split; [exact IH1 | intros; by apply IH2 | |].
    all: intros; rewrite elem_of_cons; intros [Heq|Hin];
      [discriminate Heq | first [by eapply IH3 | by eapply IH4]].
Qed.

(** The destruction of the Channels of a Connection invokes callbacks of
    their current Subscriptions with queued events, and does nothing
    else. *)
Lemma destroy_effects (cfg : Config) (s : Core) (c : Channel) :
  Forall (fun e => exists sub ev,
            e = Deliver sub ev /\ sub ∈ subs s
            /\ same_group cfg c (sub_channel sub) = true
            /\ ev ∈ queue (chans s (sub_channel sub)))
    (destroy cfg s c).2.
Proof.
  apply Forall_forall. intros e He. unfold destroy in He. cbn [snd] in He.
  apply list_elem_of_bind in He as (c' & He & Hc').
  apply elem_of_served in Hc' as [Hg _].
  unfold deliveries in He. apply list_elem_of_bind in He as (ev & He & Hev).
  apply list_elem_of_fmap in He as (sub & -> & Hsub).
  apply list_elem_of_filter in Hsub as [<- Hsub].
  by exists sub, ev.
Qed.

Lemma returned_handles_app (o1 o2 : list effect) :
  returned_handles (o1 ++ o2) = returned_handles o1 ++ returned_handles o2.
Proof. unfold returned_handles. apply omap_app. Qed.

Lemma returned_handles_delivers (l : list effect) :
  Forall (fun e => exists sub ev, e = Deliver sub ev) l -> returned_handles l = [].
Proof.
  induction 1 as [|e l (sub & ev & ->) _ IH]; [done|]. exact IH.
Qed.

Lemma destroy_returned_handles (cfg : Config) (s : Core) (c : Channel) :
  returned_handles (destroy cfg s c).2 = [].
Proof.
  apply returned_handles_delivers.
  eapply Forall_impl; [apply destroy_effects|].
  intros e (sub & ev & -> & _). by exists sub, ev.
Qed.

(** The queue of a Channel after the transition of a Connection was
    stored. *)
Lemma queue_store (cfg : Config) (now : Z) (s : Core) (i : input) (c' c : Channel) :
  transport_input i = Some c' ->
  queue (chans (store cfg s c' (handler cfg now s i (conn (chans s c'))).1.1
                  (handler cfg now s i (conn (chans s c'))).1.2) c)
  = queue (chans s c) ++ normalized_by cfg now s i c.
Proof.
  intros Hti. unfold normalized_by. rewrite Hti, chans_store.
  destruct (same_group cfg c' c); [done|]. by rewrite app_nil_r.
Qed.

(** The shape of the effects of each input. *)
Lemma step_effects (cfg : Config) (now : Z) (s : Core) (i : input) :
  Forall (fun e =>
            match e with
            | Handle h => h = next_handle s /\ exists c cb, i = Subscribe c cb
            | Deliver sub ev =>
                sub ∈ subs s
                /\ ev ∈ queue (chans s (sub_channel sub))
                          ++ normalized_by cfg now s i (sub_channel sub)
            | _ => True
            end) (step cfg now s i).2.
Proof.
  destruct (transport_input i) as [c'|] eqn:Hti.
  - transport_case cfg now s i c' Hti. cbv zeta.
    assert (Hquiet : Forall (fun e =>
              match e with
              | Handle h => h = next_handle s /\ exists c cb, i = Subscribe c cb
              | Deliver sub ev =>
                  sub ∈ subs s
                  /\ ev ∈ queue (chans s (sub_channel sub))
                            ++ normalized_by cfg now s i (sub_channel sub)
              | _ => True
              end) (handler cfg now s i (conn (chans s c'))).2).
    { eapply Forall_impl; [exact Heff|]. intros e (Hvis & _ & _). by destruct e. }
    destruct (closes _ _); cbn [snd]; [|exact Hquiet].
    apply Forall_app. split; [exact Hquiet|].
    eapply Forall_impl; [apply destroy_effects|].
    intros e (sub & ev & -> & Hsub & _ & Hin). split; [exact Hsub|].
    by rewrite (queue_store cfg now s i c' _ Hti) in Hin.
  - assert (Hnb : forall c, normalized_by cfg now s i c = [])
      by (intros c; unfold normalized_by; by rewrite Hti).
    destruct i; try discriminate Hti; cbn [step].
    + unfold subscribe. destruct (live _); cbn [snd]; repeat constructor; eauto.
    + constructor.
    + unfold dispatch. destruct (queue (chans s c)) as [|ev rest] eqn:Hq;
        [constructor|]. cbn [snd].
      rewrite Forall_fmap. apply Forall_forall. intros sub Hsub.
      apply list_elem_of_filter in Hsub as [Hc Hsub].
      change (sub ∈ subs s
              /\ ev ∈ queue (chans s (sub_channel sub))
                        ++ normalized_by cfg now s (Dispatch c) (sub_channel sub)).
      rewrite Hc, Hq, Hnb, app_nil_r. split; [done|]. by left.
Qed.

Lemma step_returned_handles (cfg : Config) (now : Z) (s : Core) (i : input) :
  returned_handles (step cfg now s i).2 =
  match i with Subscribe _ _ => [next_handle s] | _ => [] end.
Proof.
  destruct (transport_input i) as [c'|] eqn:Hti.
  - pose proof (handler_regular cfg now s i c' Hti) as Hreg.
    transport_case cfg now s i c' Hti. cbv zeta.
    destruct (regular_silent c' _ _ (conn (chans s c')) Hreg) as (Hnone & _).
    destruct (closes _ _); cbn [snd];
      rewrite ?returned_handles_app, ?destroy_returned_handles, Hnone;
      by destruct i.
  - destruct i; try discriminate Hti; cbn [step].
    + unfold subscribe. by destruct (live _).
    + reflexivity.
    + unfold dispatch. destruct (queue (chans s c)) as [|ev rest]; [done|].
      cbn [snd]. apply returned_handles_delivers.
      rewrite Forall_fmap. apply Forall_forall. intros sub _. by exists sub, ev.
Qed.

Lemma step_next_handle (cfg : Config) (now : Z) (s : Core) (i : input) :
  next_handle (step cfg now s i).1 =
  match i with Subscribe _ _ => S (next_handle s) | _ => next_handle s end.
Proof.
  destruct (transport_input i) as [c'|] eqn:Hti.
  - transport_case cfg now s i c' Hti. cbv zeta.
    destruct (closes _ _); by destruct i.
  - destruct i; try discriminate Hti; cbn [step].
    + unfold subscribe. by destruct (live _).
    + reflexivity.
    + unfold dispatch. by destruct (queue (chans s c)).
Qed.

(** How the Subscriptions change on each input: [subscribe] adds one,
    [unsubscribe] removes the holder of the handle, a transition that
    closes a Connection ends the Subscriptions of its Channels, and nothing
    else changes them. *)
Lemma step_subs (cfg : Config) (now : Z) (s : Core) (i : input) :
  subs (step cfg now s i).1 =
  match i with
  | Subscribe c cb =>
      subs s ++ [ {| sub_channel := c; subscriber_handle := next_handle s;
                     callback := cb |} ]
  | Unsubscribe h => filter (fun sub => subscriber_handle sub <> h) (subs s)
  | Dispatch _ => subs s
  | _ =>
      match transport_input i with
      | Some c =>
          if closes (conn (chans s c)) (handler cfg now s i (conn (chans s c))).1.1
          then filter (fun sub => same_group cfg c (sub_channel sub) = false) (subs s)
          else subs s
      | None => subs s
      end
  end.
Proof.
  destruct (transport_input i) as [c'|] eqn:Hti.
  - rewrite (step_transport cfg now s i c' Hti), connection_step_spec. cbv zeta.
    destruct (closes _ _); by destruct i.
  - destruct i; try discriminate Hti; cbn [step].
    + unfold subscribe. by destruct (live _).
    + reflexivity.
    + unfold dispatch. by destruct (queue (chans s c)).
Qed.

(** A Subscription present after a transition was present before it, or
    was made by it. *)
Lemma step_subs_origin (cfg : Config) (now : Z) (s : Core) (i : input)
    (sub : Subscription) :
  sub ∈ subs (step cfg now s i).1 ->
  (sub ∈ subs s /\ i <> Unsubscribe (subscriber_handle sub))
  \/ (i = Subscribe (sub_channel sub) (callback sub)
      /\ subscriber_handle sub = next_handle s).
Proof.
  rewrite step_subs. intros Hin.
  destruct i; cbn [transport_input] in Hin;
    try (destruct (closes _ _);
         [apply list_elem_of_filter in Hin as [_ Hin]|]; by left).
  - apply elem_of_app in Hin as [Hin|Hin]; [by left|].
    apply list_elem_of_singleton in Hin. subst sub. by right.
  - apply list_elem_of_filter in Hin as [Hne Hin]. left. split; [done|].
    congruence.
  - by left.
Qed.

Lemma next_handle_run (cfg : Config) (s : Core) (t : list (Z * input)) :
  (next_handle s <= next_handle (run cfg s t).1)%nat.
Proof.
  revert s. induction t as [|[now i] t IH]; intros s; [done|].
  rewrite run_cons. cbn [fst]. etransitivity; [|apply IH].
  rewrite step_next_handle. destruct i; lia.
Qed.

(** The handles returned during a run are new and pairwise distinct. *)
Lemma run_returned_handles (cfg : Config) (s : Core) (t : list (Z * input)) :
  NoDup (returned_handles (run cfg s t).2)
  /\ Forall (fun h => (next_handle s <= h < next_handle (run cfg s t).1)%nat)
       (returned_handles (run cfg s t).2).
Proof.
  revert s. induction t as [|[now i] t IH]; intros s.
  - cbn. split; constructor.
  - rewrite run_cons. cbn [fst snd]. rewrite returned_handles_app.
    destruct (IH (step cfg now s i).1) as [IHnd IHall].
    rewrite step_returned_handles. rewrite step_next_handle in IHall.
    pose proof (next_handle_run cfg (step cfg now s i).1 t) as Hmono.
    rewrite step_next_handle in Hmono.
    destruct i; cbn [app]; try (split; [exact IHnd|exact IHall]).
    split.
    + constructor; [|exact IHnd]. intros Hin.
      rewrite Forall_forall in IHall. specialize (IHall _ Hin). lia.
    + constructor; [lia|].
      eapply Forall_impl; [exact IHall|]. cbn. lia.
Qed.

(** A Subscription present after a run was present before it or was made
    by a [Subscribe] of the run, which returned its handle. *)
Lemma run_subs_origin (cfg : Config) (s : Core) (t : list (Z * input))
    (sub : Subscription) :
  sub ∈ subs (run cfg s t).1 ->
  sub ∈ subs s
  \/ (exists now, (now, Subscribe (sub_channel sub) (callback sub)) ∈ t)
     /\ subscriber_handle sub ∈ returned_handles (run cfg s t).2.
Proof.
  revert s. induction t as [|[now i] t IH]; intros s Hin; [by left|].
  rewrite run_cons in Hin |- *. cbn [fst snd] in *.
  rewrite returned_handles_app.
  destruct (IH _ Hin) as [Hs1 | [[now' Hsub] Hret]].
  - apply step_subs_origin in Hs1 as [[Hs _]|[-> Hh]]; [by left|].
    right. split.
    + exists now. apply elem_of_cons. by left.
    + rewrite step_returned_handles, Hh. apply elem_of_app. left.
      apply elem_of_cons. by left.
  - right. split.
    + exists now'. apply elem_of_cons. by right.
    + apply elem_of_app. by right.
Qed.

Lemma elem_of_run_effects (cfg : Config) (s : Core) (t : list (Z * input)) (e : effect) :
  e ∈ (run cfg s t).2 ->
  exists t1 now i t2,
    t = t1 ++ (now, i) :: t2 /\ e ∈ (step cfg now (run cfg s t1).1 i).2.
Proof.
  revert s. induction t as [|[now i] t IH]; intros s Hin.
  - cbn in Hin. by apply not_elem_of_nil in Hin.
  - rewrite run_cons in Hin. cbn [snd] in Hin.
    apply elem_of_app in Hin as [Hin|Hin].
    + exists [], now, i, t. by split.
    + destruct (IH _ Hin) as (t1 & now' & i' & t2 & -> & He).
      exists ((now, i) :: t1), now', i', t2. split; [done|].
      rewrite run_cons. exact He.
Qed.

Lemma step_keeps_old_subs (cfg : Config) (now : Z) (s : Core) (i : input)
    (sub : Subscription) :
  sub ∈ subs (step cfg now s i).1 ->
  (subscriber_handle sub < next_handle s)%nat ->
  sub ∈ subs s.
Proof.
  intros Hin Hlt.
  apply step_subs_origin in Hin as [[Hs _]|[_ Hh]]; [exact Hs|lia].
Qed.

Lemma run_keeps_old_subs (cfg : Config) (s : Core) (t : list (Z * input))
    (sub : Subscription) :
  sub ∈ subs (run cfg s t).1 ->
  (subscriber_handle sub < next_handle s)%nat ->
  sub ∈ subs s.
Proof.
  intros Hin Hlt.
  destruct (run_subs_origin cfg s t sub Hin) as [Hs|[_ Hret]]; [exact Hs|].
  destruct (run_returned_handles cfg s t) as [_ Hall].
  rewrite Forall_forall in Hall. specialize (Hall _ Hret). lia.
Qed.

(** *** The Dispatcher's queue is first-in first-out *)

(** One transition, seen from the queue of Channel [c] and the callback of
    handle [h]: what was queued and what is normalized now is what the
    Dispatcher took off the queue ([popped]) followed by what stays queued;
    the callback is invoked with nothing but popped events, in order, and
    is invoked with all of them if its Subscription is current. *)
Lemma step_fifo (cfg : Config) (now : Z) (s : Core) (i : input) (c : Channel) (h : nat) :
  consistent cfg s ->
  exists popped : list CanonicalEvent,
    queue (chans s c) ++ normalized_by cfg now s i c
      = popped ++ queue (chans (step cfg now s i).1 c)
    /\ delivered_to c h (step cfg now s i).2 `sublist_of` popped
    /\ (forall sub, sub ∈ subs s -> sub_channel sub = c ->
                    subscriber_handle sub = h ->
                    delivered_to c h (step cfg now s i).2 = popped).
Proof.
  intros (Hnd & _ & _).
  destruct (transport_input i) as [c'|] eqn:Hti.
  - pose proof (handler_regular cfg now s i c' Hti) as Hreg.
    pose proof (queue_store cfg now s i c' c Hti) as Hqs.
    transport_case cfg now s i c' Hti. cbv zeta.
    destruct (regular_silent c' _ _ (conn (chans s c')) Hreg) as (_ & Hnone & _).
    destruct (closes _ _); cbn [fst snd].
    + rewrite delivered_to_app, Hnone. cbn [app].
      rewrite delivered_to_destroy by exact Hnd.
      unfold destroy. cbn [fst chans]. fold (store cfg s c').
      destruct (same_group cfg c' c) eqn:Hg.
      * exists (queue (chans s c) ++ normalized_by cfg now s i c).
        cbn [queue]. rewrite app_nil_r, Hqs.
        split; [done|]. split.
        -- destruct (decide _); [done|apply sublist_nil_l].
        -- intros sub Hin Hc Hh. rewrite decide_True; [done|].
           split; [done|]. apply Exists_exists. by exists sub.
      * exists []. rewrite Hqs. split; [done|].
        rewrite decide_False by (intros [? _]; done). by repeat split.
    + exists []. rewrite Hnone, Hqs. by repeat split.
  - unfold normalized_by. rewrite Hti, app_nil_r.
    destruct i; try discriminate Hti; cbn [step].
    + exists []. unfold subscribe.
      destruct (live _); cbn [fst snd chans]; [by repeat split|].
      destruct (same_group cfg c0 c); by repeat split.
    + exists []. by repeat split.
    + unfold dispatch. destruct (queue (chans s c0)) as [|ev rest] eqn:Hq.
      { exists []. by repeat split. }
      cbn [fst snd chans].
      destruct (decide (c = c0)) as [->|Hne].
      * exists [ev]. rewrite Hq. cbn [queue].
        rewrite delivered_to_fanout by (by apply subs_of_handles_NoDup).
        split; [done|]. split.
        -- destruct (decide _); [done|apply sublist_nil_l].
        -- intros sub Hin Hc Hh. rewrite decide_True; [done|].
           apply Exists_exists. exists sub. split; [|done].
           apply list_elem_of_filter. done.
      * exists []. split; [done|].
        rewrite delivered_to_fanout by (by apply subs_of_handles_NoDup).
        rewrite decide_False; [by repeat split|].
        intros Hex. apply Exists_subs_of in Hex as [Heq _]. congruence.
Qed.

(** The same over a run. *)
Lemma run_fifo (cfg : Config) (s : Core) (t : list (Z * input)) (c : Channel) (h : nat) :
  consistent cfg s ->
  exists popped : list CanonicalEvent,
    queue (chans s c) ++ normalized_in cfg s t c
      = popped ++ queue (chans (run cfg s t).1 c)
    /\ delivered_to c h (run cfg s t).2 `sublist_of` popped
    /\ (forall sub, sub ∈ subs s -> sub ∈ subs (run cfg s t).1 ->
                    sub_channel sub = c -> subscriber_handle sub = h ->
                    delivered_to c h (run cfg s t).2 = popped).
Proof.
  revert s. induction t as [|[now i] t IH]; intros s Hs.
  - exists []. cbn. rewrite app_nil_r. by repeat split.
  - destruct (step_fifo cfg now s i c h Hs) as (p1 & Hq1 & Hd1 & He1).
    destruct (IH _ (consistent_step cfg now s i Hs)) as (p2 & Hq2 & Hd2 & He2).
    exists (p1 ++ p2). rewrite run_cons. cbn [fst snd normalized_in].
    rewrite delivered_to_app. split; [|split].
    + rewrite app_assoc, Hq1, <- !app_assoc. by rewrite Hq2.
    + by apply sublist_app.
    + intros sub Hin Hfin Hc Hh.
      assert (Hold : (subscriber_handle sub < next_handle s)%nat).
      { destruct Hs as (_ & Hlt & _). rewrite Forall_forall in Hlt. by apply Hlt. }
      assert (Hmid : sub ∈ subs (step cfg now s i).1).
      { eapply run_keeps_old_subs; [exact Hfin|].
        pose proof (next_handle_run cfg s [(now, i)]) as Hm.
        rewrite run_cons in Hm. cbn [fst run] in Hm. lia. }
      rewrite (He1 sub Hin Hc Hh), (He2 sub Hmid Hfin Hc Hh). done.
Qed.

Lemma normalized_in_app (cfg : Config) (s : Core) (t1 t2 : list (Z * input))
    (c : Channel) :
  normalized_in cfg s (t1 ++ t2) c =
  normalized_in cfg s t1 c ++ normalized_in cfg (run cfg s t1).1 t2 c.
Proof.
  revert s. induction t1 as [|[now i] t1 IH]; intros s; [done|].
  rewrite <- app_comm_cons. cbn [normalized_in]. rewrite IH, run_cons.
  by rewrite <- app_assoc.
Qed.

(** C7. Within a Channel the events reach each Subscription in the order
    they were normalized: over any run that starts in a reachable state,
    what a callback is invoked with is, in order and without repetition,
    part of what was queued followed by what the run normalized for its
    Channel, and for a Subscription that is current from the start to the
    end of the run it is exactly that sequence up to what is still queued.
    Each turn of the Dispatcher gives the oldest queued event to every
    current Subscription of the Channel.  Across Channels no order is
    kept: with status X normalized on one Channel before status Y on
    another, either may be delivered first, whether the two Channels have a
    Connection each or share one physical Connection. *)
Theorem per_channel_delivery_order (cfg : Config) :
  (forall (t1 t2 : list (Z * input)) (c : Channel) (h : nat),
     let s1 := (run cfg init t1).1 in
     delivered_to c h (run cfg s1 t2).2
       `sublist_of` queue (chans s1 c) ++ normalized_in cfg s1 t2 c)
  /\ (forall (t : list (Z * input)) (c : Channel) (h : nat),
       delivered_to c h (run cfg init t).2
         `sublist_of` normalized_in cfg init t c)
  /\ (forall (t1 t2 : list (Z * input)) (sub : Subscription),
       let s1 := (run cfg init t1).1 in
       let r := run cfg s1 t2 in
       let c := sub_channel sub in
       sub ∈ subs s1 -> sub ∈ subs r.1 ->
       delivered_to c (subscriber_handle sub) r.2 ++ queue (chans r.1 c)
       = queue (chans s1 c) ++ normalized_in cfg s1 t2 c)
  /\ (forall (now : Z) (s : Core) (c : Channel),
       (step cfg now s (Dispatch c)).2 =
       match queue (chans s c) with
       | [] => []
       | ev :: _ => (fun sub => Deliver sub ev) <$> subs_of c (subs s)
       end)
  /\ (let t := sample_feed ++ [(30, Dispatch home); (31, Dispatch tag)] in
      let t' := sample_feed ++ [(30, Dispatch tag); (31, Dispatch home)] in
      (forall c, normalized_in sample_config init t c
                 = normalized_in sample_config init t' c)
      /\ normalized_in sample_config init t home = [status_X]
      /\ normalized_in sample_config init t tag = [status_Y]
      /\ (callback_invocations (run sample_config init t).2).*2
           = [status_X; status_Y]
      /\ (callback_invocations (run sample_config init t').2).*2
           = [status_Y; status_X])
  /\ (let t := sample_multiplex_feed
                 ++ [(30, Dispatch mux_home); (31, Dispatch mux_tag)] in
      let t' := sample_multiplex_feed
                  ++ [(30, Dispatch mux_tag); (31, Dispatch mux_home)] in
      let X := {| channel := mux_home; type := Update; sequence_id := Some 10;
                  payload := "status X" |} in
      let Y := {| channel := mux_tag; type := Update; sequence_id := Some 11;
                  payload := "status Y" |} in
      filter (fun e => reconnects mux_home e || reconnects mux_tag e = true)
        (run sample_config init t).2
      = [OpenTransport mux_home "wss://mux.example/streaming"]
      /\ (callback_invocations (run sample_config init t).2).*2 = [X; Y]
      /\ (callback_invocations (run sample_config init t').2).*2 = [Y; X]).
Proof.
  split; [|split; [|split; [|split; [|split; [|by vm_compute]]]]].
  - intros t1 t2 c h s1.
    destruct (run_fifo cfg s1 t2 c h) as (popped & Hq & Hd & _).
    { apply (consistent_run cfg), consistent_init. }
    rewrite Hq. by apply sublist_inserts_r.
  - intros t c h.
    destruct (run_fifo cfg init t c h (consistent_init cfg))
      as (popped & Hq & Hd & _).
    cbn [init chans queue app] in Hq. rewrite Hq. by apply sublist_inserts_r.
  - intros t1 t2 sub s1 r c Hin Hfin. subst r c.
    destruct (run_fifo cfg s1 t2 (sub_channel sub) (subscriber_handle sub))
      as (popped & Hq & _ & He).
    { apply (consistent_run cfg), consistent_init. }
    rewrite (He sub Hin Hfin eq_refl eq_refl). by rewrite Hq.
  - intros now s c. cbn [step]. unfold dispatch.
    by destruct (queue (chans s c)).
  - cbv zeta. split; [|by vm_compute].
    intros c. rewrite !normalized_in_app. f_equal.
Qed.

(** *** The cursor *)

(** The Connection in the slot of Channel [c] after a transition of the
    Connection that serves [c']. *)
Lemma conn_after_transition (cfg : Config) (s : Core) (c' c : Channel)
    (f : Connection -> outcome) :
  conn (chans (connection_step cfg s c' f).1 c) =
  if same_group cfg c' c then (f (conn (chans s c'))).1.1 else conn (chans s c).
Proof.
  rewrite connection_step_spec. cbv zeta.
  destruct (closes _ _); cbn [fst destroy chans store];
    by destruct (same_group cfg c' c).
Qed.







(** *** Terminal errors *)

Lemma NoDup_handles_inj (l : list Subscription) (a b : Subscription) :
  NoDup (handles l) -> a ∈ l -> b ∈ l ->
  subscriber_handle a = subscriber_handle b -> a = b.
Proof.
  induction l as [|x l IH]; intros Hnd Ha Hb Heq.
  - by apply not_elem_of_nil in Ha.
  - apply NoDup_cons in Hnd as [Hx Hnd].
    apply elem_of_cons in Ha as [->|Ha]; apply elem_of_cons in Hb as [->|Hb].
    + done.
    + exfalso. apply Hx. unfold handles. apply list_elem_of_fmap. by exists b.
    + exfalso. apply Hx. unfold handles. apply list_elem_of_fmap. by exists a.
    + by apply IH.
Qed.

(** An event a callback was invoked with goes back to a callback
    invocation among the effects. *)
Lemma elem_of_delivered_to (c : Channel) (h : nat) (out : list effect)
    (ev : CanonicalEvent) :
  ev ∈ delivered_to c h out ->
  exists sub, Deliver sub ev ∈ out /\ sub_channel sub = c /\ subscriber_handle sub = h.
Proof.
  unfold delivered_to. intros Hev.
  apply list_elem_of_omap in Hev as (e & He & Hsome).
  destruct e; try discriminate Hsome.
  destruct (decide _) as [[Hc Hh]|]; [|discriminate Hsome].
  injection Hsome as ->. by exists sub.
Qed.

(** A transition invokes only callbacks of current Subscriptions. *)
Lemma step_delivers_to_subs (cfg : Config) (now : Z) (s : Core) (i : input)
    (c : Channel) (h : nat) :
  h ∉ handles (subs s) -> delivered_to c h (step cfg now s i).2 = [].
Proof.
  intros Hnotin.
  destruct (delivered_to c h (step cfg now s i).2) as [|ev d] eqn:Hd; [done|].
  exfalso.
  destruct (elem_of_delivered_to c h (step cfg now s i).2 ev)
    as (sub & Hin & _ & Hh).
  { rewrite Hd. by left. }
  pose proof (step_effects cfg now s i) as Hall.
  rewrite Forall_forall in Hall. destruct (Hall _ Hin) as [Hsub _].
  apply Hnotin. unfold handles. apply list_elem_of_fmap. by exists sub.
Qed.

(** A handle that names no current Subscription and is not new is never
    delivered to again. *)
Lemma no_delivery_without_subscription (cfg : Config) (s : Core)
    (t : list (Z * input)) (c : Channel) (h : nat) :
  h ∉ handles (subs s) -> (h < next_handle s)%nat ->
  delivered_to c h (run cfg s t).2 = [].
Proof.
  revert s. induction t as [|[now i] t IH]; intros s Hnotin Hlt; [done|].
  rewrite run_cons. cbn [snd]. rewrite delivered_to_app.
  rewrite (step_delivers_to_subs cfg now s i c h Hnotin). cbn [app]. apply IH.
  - intros Hin. unfold handles in Hin.
    apply list_elem_of_fmap in Hin as (sub & -> & Hin).
    apply Hnotin. unfold handles. apply list_elem_of_fmap.
    exists sub. split; [done|]. by eapply step_keeps_old_subs.
  - rewrite step_next_handle. destruct i; lia.
Qed.

(** A Closed Connection stays Closed, and nothing is opened or scheduled
    for its Channel, until the caller subscribes to a Channel of its
    group. *)
Lemma closed_step (cfg : Config) (now : Z) (s : Core) (i : input) (c : Channel) :
  consistent cfg s ->
  conn_status (conn (chans s c)) = Closed ->
  (forall c0 cb, i = Subscribe c0 cb -> same_group cfg c0 c = false) ->
  conn_status (conn (chans (step cfg now s i).1 c)) = Closed
  /\ Forall (fun e => reconnects c e = false) (step cfg now s i).2.
Proof.
  intros (_ & _ & _ & Hsh & _) Hclosed Hnosub.
  destruct (transport_input i) as [c'|] eqn:Hti.
  - pose proof (conn_after_transition cfg s c' c (handler cfg now s i)) as Hconn.
    rewrite <- (step_transport cfg now s i c' Hti) in Hconn. rewrite Hconn.
    transport_case cfg now s i c' Hti. cbv zeta.
    destruct (same_group cfg c' c) eqn:Hg.
    + rewrite <- (Hsh c' c Hg) in Hinert |- *.
      rewrite Hinert by (by rewrite Hclosed). cbn [fst snd].
      unfold closes. rewrite Hclosed. cbn. split; [done|constructor].
    + split; [done|].
      assert (Hne : c' <> c).
      { intros ->. by rewrite same_group_refl in Hg. }
      assert (Hq : Forall (fun e => reconnects c e = false)
                     (handler cfg now s i (conn (chans s c'))).2).
      { eapply Forall_impl; [exact Heff|].
        intros e (_ & Hch & _). destruct e; try done; cbn in Hch |- *;
          apply bool_decide_eq_false_2; congruence. }
      destruct (closes _ _); cbn [snd]; [|exact Hq].
      apply Forall_app. split; [exact Hq|].
      eapply Forall_impl; [apply destroy_effects|]. by intros e (sub & ev & -> & _).
  - destruct i; try discriminate Hti; cbn [step].
    + unfold subscribe. specialize (Hnosub c0 cb eq_refl).
      assert (Hne : c0 <> c).
      { intros ->. by rewrite same_group_refl in Hnosub. }
      destruct (live _); cbn [fst snd chans].
      * split; [done|]. by repeat constructor.
      * rewrite Hnosub. split; [done|].
        repeat constructor. cbn. by apply bool_decide_eq_false_2.
    + split; [done|constructor].
    + unfold dispatch. destruct (queue (chans s c0)); [by split|].
      cbn [fst snd chans]. split.
      * by destruct (decide (c = c0)) as [->|].
      * rewrite Forall_fmap. apply Forall_forall. by intros.
Qed.

Lemma closed_run (cfg : Config) (s : Core) (t : list (Z * input)) (c : Channel) :
  consistent cfg s ->
  conn_status (conn (chans s c)) = Closed ->
  Forall (fun ni => forall c0 cb, ni.2 = Subscribe c0 cb ->
                                  same_group cfg c0 c = false) t ->
  conn_status (conn (chans (run cfg s t).1 c)) = Closed
  /\ Forall (fun e => reconnects c e = false) (run cfg s t).2.
Proof.
  revert s. induction t as [|[now i] t IH]; intros s Hs Hclosed Hall.
  - split; [done|constructor].
  - apply Forall_cons in Hall as [Hi Hall]. rewrite run_cons. cbn [fst snd].
    destruct (closed_step cfg now s i c Hs Hclosed Hi) as [Hc1 He1].
    destruct (IH _ (consistent_step cfg now s i Hs) Hc1 Hall) as [Hc2 He2].
    split; [done|]. by apply Forall_app.
Qed.

Lemma filter_none {A} (P : A -> Prop) `{!forall x, Decision (P x)} (l : list A) :
  Forall (fun x => ~ P x) l -> filter P l = [].
Proof.
  induction 1 as [|x l Hx _ IH]; [done|]. by rewrite filter_cons, decide_False.
Qed.

(** Among the terminal errors of a closure, one is for Channel [c]. *)
Lemma terminal_error_of (c : Channel) (reason : string) (chs : list Channel) :
  NoDup chs -> c ∈ chs ->
  filter (fun ev => channel ev = c) ((fun c' => terminal_error c' reason) <$> chs)
  = [terminal_error c reason].
Proof.
  induction chs as [|c' chs IH]; intros Hnd Hin.
  - by apply not_elem_of_nil in Hin.
  - apply NoDup_cons in Hnd as [Hnotin Hnd]. cbn [fmap list_fmap].
    rewrite filter_cons. cbn [terminal_error channel].
    destruct (decide (c' = c)) as [->|Hne].
    + f_equal. clear IH Hin Hnd. induction chs as [|c' chs IH]; [done|].
      cbn [fmap list_fmap]. rewrite filter_cons. cbn [terminal_error channel].
      rewrite decide_False by (intros ->; apply Hnotin; by left).
      apply IH. intros Hin. apply Hnotin. by right.
    + apply elem_of_cons in Hin as [->|Hin]; [done|]. by apply IH.
Qed.

Lemma destroy_is_visible (cfg : Config) (s : Core) (c : Channel) :
  filter (fun e => caller_visible e = false) (destroy cfg s c).2 = [].
Proof.
  pose proof (destroy_effects cfg s c) as Hall.
  induction Hall as [|e l (sub & ev & -> & _) _ IH]; [done|].
  rewrite filter_cons, decide_False by done. exact IH.
Qed.

(** What an AuthError does to a Connection that is connecting or open. *)
Lemma auth_error_step (cfg : Config) (now : Z) (s : Core) (c : Channel) (jitter : Z) :
  conn_status (conn (chans s c)) = Connecting
  \/ conn_status (conn (chans s c)) = Open ->
  step cfg now s (Failed c AuthError jitter) =
  (let s1 := store cfg s c (set_status Closed (conn (chans s c)))
               ((fun c' => terminal_error c' "authorization failure")
                  <$> served cfg s c) in
   ((destroy cfg s1 c).1, [CloseTransport c] ++ (destroy cfg s1 c).2)).
Proof.
  intros Hst. cbn [step handler]. rewrite connection_step_spec. cbv zeta.
  unfold on_failure, close_fatally, closes.
  destruct Hst as [-> | ->]; reflexivity.
Qed.

(** C5. An AuthError on a Connection that is connecting (the initial
    connect or any reconnect attempt) or open closes it at once, for every
    Channel it serves: the status becomes Closed, no queue is kept, and the
    only request to a collaborator is to close the transport.  Every
    Subscription that was current on a Channel of the Connection is invoked
    with what was still queued for its Channel and then with the terminal
    error, which is the one terminal error it receives; it is gone
    afterwards, and in no continuation is its callback invoked again.  The
    Subscriptions of other Connections stay and receive nothing.  From then
    on the Connection stays Closed and nothing is opened or scheduled for
    its Channels, whatever happens, until the caller subscribes anew to one
    of them. *)
Theorem auth_error_is_terminal
    (cfg : Config) (t0 : list (Z * input)) (now : Z) (c : Channel) (jitter : Z) :
  conn_status (conn (chans (run cfg init t0).1 c)) = Connecting
  \/ conn_status (conn (chans (run cfg init t0).1 c)) = Open ->
  let s := (run cfg init t0).1 in
  let r := step cfg now s (Failed c AuthError jitter) in
  (forall c', same_group cfg c c' = true ->
              conn_status (conn (chans r.1 c')) = Closed
              /\ queue (chans r.1 c') = [])
  /\ filter (fun e => caller_visible e = false) r.2 = [CloseTransport c]
  /\ (forall sub, sub ∈ subs s -> same_group cfg c (sub_channel sub) = true ->
        delivered_to (sub_channel sub) (subscriber_handle sub) r.2
          = queue (chans s (sub_channel sub))
              ++ [terminal_error (sub_channel sub) "authorization failure"]
        /\ errors_in (delivered_to (sub_channel sub) (subscriber_handle sub) r.2)
           = [terminal_error (sub_channel sub) "authorization failure"]
        /\ (sub ∉ subs r.1)
        /\ (forall t : list (Z * input),
              delivered_to (sub_channel sub) (subscriber_handle sub)
                (run cfg r.1 t).2 = []))
  /\ (forall sub, sub ∈ subs s -> same_group cfg c (sub_channel sub) = false ->
        sub ∈ subs r.1
        /\ (forall c', delivered_to c' (subscriber_handle sub) r.2 = []))
  /\ (forall t : list (Z * input),
        Forall (fun ni => forall c0 cb, ni.2 = Subscribe c0 cb ->
                                        same_group cfg c c0 = false) t ->
        forall c', same_group cfg c c' = true ->
          conn_status (conn (chans (run cfg r.1 t).1 c')) = Closed
          /\ Forall (fun e => reconnects c' e = false) (run cfg r.1 t).2).
Proof.
  intros Hst s r.
  assert (Hs : consistent cfg s) by apply consistent_run, consistent_init.
  pose proof (consistent_step cfg now s (Failed c AuthError jitter) Hs) as Hs1.
  fold r in Hs1.
  pose proof Hs as (Hnd & Hlt & _ & _ & Hq).
  pose proof (auth_error_step cfg now s c jitter Hst) as Hr. fold r in Hr.
  cbv zeta in Hr.
  set (s1 := store cfg s c _ _) in Hr.
  assert (Hclosed : forall c', same_group cfg c c' = true ->
                               conn_status (conn (chans r.1 c')) = Closed
                               /\ queue (chans r.1 c') = []).
  { intros c' Hg. rewrite Hr. cbn [fst destroy chans]. rewrite Hg. cbn [conn queue].
    unfold s1. rewrite chans_store, Hg. by split. }
  assert (Hdel : forall c' h,
             delivered_to c' h r.2 =
             if decide (same_group cfg c c' = true
                        /\ Exists (fun sub => sub_channel sub = c'
                                              /\ subscriber_handle sub = h) (subs s))
             then queue (chans s1 c') else []).
  { intros c' h. rewrite Hr. cbn [snd]. rewrite delivered_to_app. cbn [app].
    by rewrite delivered_to_destroy. }
  split; [exact Hclosed|]. split; [|split; [|split]].
  - rewrite Hr. cbn [snd]. rewrite filter_app, destroy_is_visible. done.
  - intros sub Hsub Hg.
    assert (Hqueue : queue (chans s1 (sub_channel sub))
                     = queue (chans s (sub_channel sub))
                         ++ [terminal_error (sub_channel sub) "authorization failure"]).
    { unfold s1. rewrite chans_store, Hg. cbn [queue]. f_equal.
      apply terminal_error_of; [apply NoDup_served|].
      apply elem_of_served. split; [done|]. by exists sub. }
    assert (Hgot : delivered_to (sub_channel sub) (subscriber_handle sub) r.2
                   = queue (chans s (sub_channel sub))
                       ++ [terminal_error (sub_channel sub) "authorization failure"]).
    { rewrite Hdel, decide_True; [exact Hqueue|].
      split; [done|]. apply Exists_exists. by exists sub. }
    assert (Hgone : sub ∉ subs r.1).
    { rewrite Hr. cbn [fst destroy subs]. intros Hin.
      apply list_elem_of_filter in Hin as [Hno _]. congruence. }
    split; [exact Hgot|]. split; [|split; [exact Hgone|]].
    + rewrite Hgot. unfold errors_in. rewrite filter_app.
      rewrite filter_none; [done|].
      specialize (Hq (sub_channel sub)).
      eapply Forall_impl; [exact Hq|]. by intros ev [_ Hty].
    + intros t. apply no_delivery_without_subscription.
      * intros Hin. unfold handles in Hin.
        apply list_elem_of_fmap in Hin as (sub' & Hh & Hin').
        pose proof Hin' as Hin''.
        rewrite Hr in Hin'. cbn [fst destroy subs] in Hin'.
        apply list_elem_of_filter in Hin' as [Hno Hin'].
        assert (sub = sub') by (eapply NoDup_handles_inj; eauto).
        subst sub'. by apply Hgone.
      * unfold r. rewrite step_next_handle.
        rewrite Forall_forall in Hlt. by apply Hlt.
  - intros sub Hsub Hg. split.
    + rewrite Hr. cbn [fst destroy subs]. apply list_elem_of_filter. done.
    + intros c'. rewrite Hdel, decide_False; [done|].
      intros [Hg' Hex]. apply Exists_exists in Hex as (sub' & Hin' & Hc' & Hh').
      assert (sub' = sub) by (eapply NoDup_handles_inj; eauto).
      subst sub'. congruence.
  - intros t Hall c' Hg. destruct (Hclosed c' Hg) as [Hcl _].
    apply closed_run; [exact Hs1|exact Hcl|].
    eapply Forall_impl; [exact Hall|]. intros ni Hni c0 cb Heq.
    rewrite (same_group_sym cfg c0 c'), (same_group_eq cfg c c' c0 Hg).
    by apply (Hni c0 cb).
Qed.

(** *** The caller's side *)





(** *** The theorems at work on the sample data *)

(** Scenario B: the scheduled reconnect deadlines of three successive
    failures follow the delays 1s, 2s, 4s. *)
Example scenario_B_delays :
  backoff sample_config <$> [0; 1; 2; 6; 7]%nat = [1000; 2000; 4000; 60000; 60000]
  /\ conn_status (conn (chans (run sample_config init scenario_D).1 home))
     = Connecting
  /\ reconnect_attempt
       (conn (chans (run sample_config init scenario_D).1 home)) = 2%nat
  /\ filter (fun e => reconnects home e = true)
       (run sample_config init scenario_D).2
     = [ OpenTransport home "wss://push.example/streaming";
         ScheduleReconnect home 41000;
         OpenTransport home "wss://push.example/streaming";
         ScheduleReconnect home 43006;
         OpenTransport home "wss://push.example/streaming" ].
Proof. by vm_compute. Qed.

(** A reconnect on a profile with cursor resume asks for the cursor, and a
    poll timer asks for the items after the cursor. *)
Example resume_and_fetch_use_cursor :
  (step sample_config 50000
     (run sample_config init scenario_D).1 (ConnectOk home)).2
  = [ResumeFrom home 9]
  /\ (step sample_config 100 sample_polling_state (PollTimer polled)).2
     = [Fetch polled 9].
Proof. by vm_compute. Qed.


(** Scenario C on the sample polling Channel. *)
Lemma polling_fallback_scenario_witness :
  conn_status (conn (chans sample_polling_state polled)) = Open
  /\ transport (profile_of sample_config (backend_id polled)) = Polling
  /\ last_event_cursor (conn (chans sample_polling_state polled)) = 9
  /\ (sequence_id <$>
        queue (chans (step sample_config 100 sample_polling_state
                        (PollResult polled
                           [Build_Row 10 "a"; Build_Row 11 "b"; Build_Row 12 "c"])).1
                 polled))
     = [Some 10; Some 11; Some 12]
  /\ last_event_cursor
       (conn (chans (step sample_config 100 sample_polling_state
                       (PollResult polled
                          [Build_Row 10 "a"; Build_Row 11 "b"; Build_Row 12 "c"])).1
                polled)) = 12.
Proof.
  split; [reflexivity|]. split; [reflexivity|]. split; [reflexivity|].
  destruct (polling_fallback_scenario sample_config 100 200 sample_polling_state
              polled "a" "b" "c" eq_refl eq_refl eq_refl) as [Hall _].
  rewrite Forall_forall in Hall.
  destruct (Hall _ (permutations_refl _)) as (Hq & Hcur & _).
  split; [|exact Hcur].
  rewrite Hq. reflexivity.
Defined.

(** Scenario D on the multiplexing backend: the AuthError arrives on
    reconnect attempt 2 of the Connection that two Channels share; the
    subscriber of each Channel receives exactly one terminal error, and both
    Channels are Closed. *)
Lemma auth_error_is_terminal_witness :
  (conn_status (conn (chans (run sample_config init scenario_D_multiplex).1 mux_home))
   = Connecting
   \/ conn_status (conn (chans (run sample_config init scenario_D_multiplex).1 mux_home))
      = Open)
  /\ reconnect_attempt
       (conn (chans (run sample_config init scenario_D_multiplex).1 mux_home)) = 2%nat
  /\ conn_status
       (conn (chans (step sample_config 43011
                       (run sample_config init scenario_D_multiplex).1
                       (Failed mux_home AuthError 0)).1 mux_tag)) = Closed
  /\ errors_in
       (delivered_to mux_tag 1
          (step sample_config 43011
             (run sample_config init scenario_D_multiplex).1
             (Failed mux_home AuthError 0)).2)
     = [terminal_error mux_tag "authorization failure"]
  /\ errors_in
       (delivered_to mux_home 0
          (step sample_config 43011
             (run sample_config init scenario_D_multiplex).1
             (Failed mux_home AuthError 0)).2)
     = [terminal_error mux_home "authorization failure"].
Proof.
  assert (Hst : conn_status
                  (conn (chans (run sample_config init scenario_D_multiplex).1 mux_home))
                = Connecting
                \/ conn_status
                     (conn (chans (run sample_config init scenario_D_multiplex).1
                              mux_home))
                   = Open) by (left; reflexivity).
  split; [exact Hst|]. split; [reflexivity|].
  destruct (auth_error_is_terminal sample_config scenario_D_multiplex 43011 mux_home 0 Hst)
    as (Hclosed & _ & Hsubs & _).
  split; [by apply (Hclosed mux_tag)|]. split.
  - destruct (Hsubs {| sub_channel := mux_tag; subscriber_handle := 1; callback := 8 |})
      as (_ & Hone & _); [|reflexivity|exact Hone].
    apply elem_of_cons. right. apply elem_of_cons. by left.
  - destruct (Hsubs {| sub_channel := mux_home; subscriber_handle := 0; callback := 7 |})
      as (_ & Hone & _); [|reflexivity|exact Hone].
    apply elem_of_cons. by left.
Defined.

(** Scenario D on the backend that does not multiplex: both subscribers of
    [home] receive the terminal error, and the sibling Channel [tag], which
    has a Connection of its own, is not touched. *)
Example scenario_D_exclusive :
  let s := (run sample_config init ((2, Subscribe tag 9) :: scenario_D)).1 in
  let r := step sample_config 43011 s (Failed home AuthError 0) in
  delivered_to home 1 r.2 = [terminal_error home "authorization failure"]
  /\ delivered_to home 2 r.2 = [terminal_error home "authorization failure"]
  /\ delivered_to tag 0 r.2 = []
  /\ conn_status (conn (chans r.1 home)) = Closed
  /\ conn_status (conn (chans r.1 tag)) = Connecting
  /\ handles (subs r.1) = [0%nat].
Proof. by vm_compute. Qed.




(** The order theorem on the sample feed. *)
Lemma per_channel_delivery_order_witness :
  {| sub_channel := home; subscriber_handle := 0; callback := 1 |}
    ∈ subs (run sample_config init sample_feed).1
  /\ delivered_to home 0
       (run sample_config (run sample_config init sample_feed).1
          [(30, Dispatch home)]).2
     = [status_X]
  /\ delivered_to home 0
       (run sample_config init
          (sample_feed ++ [(30, Dispatch tag); (31, Dispatch home)])).2
     `sublist_of` [status_X].
Proof.
  destruct (per_channel_delivery_order sample_config) as (_ & Hfrom_init & Hall & _).
  assert (Hin : {| sub_channel := home; subscriber_handle := 0; callback := 1 |}
                  ∈ subs (run sample_config init sample_feed).1).
  { apply elem_of_cons. by left. }
  split; [exact Hin|]. split.
  - specialize (Hall sample_feed [(30, Dispatch home)] _ Hin).
    cbv zeta in Hall.
    assert (Hstill : {| sub_channel := home; subscriber_handle := 0; callback := 1 |}
                       ∈ subs (run sample_config
                                 (run sample_config init sample_feed).1
                                 [(30, Dispatch home)]).1).
    { apply elem_of_cons. by left. }
    specialize (Hall Hstill). cbn [sub_channel subscriber_handle] in Hall.
    apply (f_equal (take 1)) in Hall. vm_compute in Hall. vm_compute. exact Hall.
  - exact (Hfrom_init (sample_feed ++ [(30, Dispatch tag); (31, Dispatch home)]) home 0%nat).
Defined.

End StreamingFacts.

(* ===================================================================== *)
(** ** More facts about the REST wrappers                                  *)
(* ===================================================================== *)
Module MastodonExtras.
Import Js Mastodon MastodonTables MastodonFacts.

Lemma append_assoc (s1 s2 s3 : string) : (s1 +:+ s2) +:+ s3 = s1 +:+ (s2 +:+ s3).
Proof.
  induction s1 as [|a s1 IH]; [done|].
  change (String a ((s1 +:+ s2) +:+ s3) = String a (s1 +:+ (s2 +:+ s3))).
  by rewrite IH.
Qed.

Lemma length_append (a s : string) :
  String.length (a +:+ s) = (String.length a + String.length s)%nat.
Proof.
  induction a as [|x a IH]; [done|].
  change (S (String.length (a +:+ s)) = S (String.length a + String.length s)).
  by rewrite IH.
Qed.

Lemma append_inv_r (a b s : string) : a +:+ s = b +:+ s -> a = b.
Proof.
  revert b. induction a as [|x a IH]; intros [|y b] Heq.
  - done.
  - apply (f_equal String.length) in Heq. rewrite !length_append in Heq.
    cbn [String.length] in Heq. lia.
  - apply (f_equal String.length) in Heq. rewrite !length_append in Heq.
    cbn [String.length] in Heq. lia.
  - change (String x (a +:+ s) = String y (b +:+ s)) in Heq.
    injection Heq as -> Heq. f_equal. by apply IH.
Qed.

(** The request of a call, computed. *)
Ltac the_request :=
  unfold request_of; cbn [invoke];
  lazymatch goal with
  | |- context [getFollowRequests ?l] =>
      unfold getFollowRequests; destruct (truthy l)
  | |- context [getSuggestions ?l] =>
      unfold getSuggestions; destruct (truthy l)
  | |- _ => idtac
  end.

(** X1. Every instance method sends its request to the endpoint its doc
    comment names: the path is the documented path template with the
    call's id in place of [:id], and the HTTP method is the documented one,
    with one exception: [updateFilter], documented as PUT, sends a POST. *)
Theorem documented_endpoints (c : APIClient) (i : invocation) :
  exists (r : request) (v : verb) (tpl : string),
    request_of c i = Some r
    /\ parse_endpoint (doc_line i) = Some (v, tpl)
    /\ path r = subst_id tpl (default "" (id_arg i))
    /\ (if decide (doc_line i = "PUT /api/v1/filters/:id")
        then v = PUT /\ method r = POST
        else method r = v).
Proof.
  destruct i; the_request;
    (eexists _, _, _; split; [reflexivity|]; split;
     [vm_compute; reflexivity|]; split;
     [cbn [path default from_option id_arg doc_line subst_id];
      rewrite ?append_empty_r; reflexivity
     |cbn [doc_line method]; case_decide;
      [try discriminate; by split|try done; reflexivity]]).
Qed.

(** The methods that build a parameter object. *)
Create HintDb rest_methods.

#[local] Hint Unfold
  registerAccount updateCredentials getAccountFollowers getAccountFollowing followAccount
  muteAccount searchAccount getBookmarks getFavourites getMutes
  getBlocks getDomainBlocks blockDomain unblockDomain createFilter
  updateFilter report getFollowRequests getEndorsements createFeaturedTag
  getSuggestions postStatus uploadMedia updateMedia votePoll
  getScheduledStatuses scheduleStatus
  : rest_methods.

(* Closes an equation whose sides are the same term, without conversion. *)
Ltac same_term :=
  lazymatch goal with |- ?a = ?b => constr_eq a b; reflexivity end.

Lemma truthy_absent (v : value) : truthy (absent v) = truthy v.
Proof. unfold absent. by destruct (truthy v) eqn:E. Qed.

Lemma absent_truthy (v : value) : truthy v = true -> absent v = v.
Proof. unfold absent. by intros ->. Qed.

Lemma guard_absent (p : obj) (k : string) (v : value) :
  (if truthy (absent v) then Object_assign p (object_literal [(k, absent v)]) else p)
  = (if truthy v then Object_assign p (object_literal [(k, v)]) else p).
Proof.
  rewrite truthy_absent. destruct (truthy v) eqn:E; [|done].
  by rewrite absent_truthy.
Qed.

(** X2. For every instance method, an optional argument that the body
    tests with [if (arg)] and that is falsy ([false], [0], [NaN], the empty
    string, [null]) has the effect of an argument left out, and so has an
    empty [media_ids] array in [postStatus]: the call returns the same
    promise and puts the same request on the wire. *)
Theorem falsy_optional_is_omitted (i : invocation) (w : world) :
  invoke (omit_falsy i) w = invoke i w.
Proof.
  destruct i; cbn [omit_falsy invoke]; try same_term;
    autounfold with rest_methods; cbv zeta; rewrite ?guard_absent;
    try same_term.
  - (* getFollowRequests *)
    rewrite truthy_absent. destruct (truthy limit) eqn:E; [|done].
    by rewrite absent_truthy.
  - (* getSuggestions *)
    rewrite truthy_absent. destruct (truthy limit) eqn:E; [|done].
    by rewrite absent_truthy.
  - (* postStatus *)
    rewrite truthy_absent. destruct (truthy poll) eqn:E.
    + rewrite (absent_truthy poll E). by destruct media_ids as [[|x l]|].
    + by destruct media_ids as [[|x l]|].
Qed.

(** X3. The keys of the object literal a method starts its parameters
    from are in every request of the method, with the value passed for
    them, whether or not that value is truthy: an empty [status] text, a
    [false] agreement or an empty search query is sent as it is.  (For
    [followAccount] and [muteAccount] the value is the argument after its
    default.) *)
Theorem required_params_always_sent (c : APIClient) (i : invocation) :
  exists r : request,
    request_of c i = Some r
    /\ Forall (fun kv => default ∅ (params r) !! kv.1 = Some kv.2)
         (required_params i).
Proof.
  destruct i; explicit_request;
    (eexists; split; [reflexivity|]);
    cbn [required_params params default from_option Datatypes.id];
    repeat (apply List.Forall_cons; [cbn [fst snd]|]);
    try apply List.Forall_nil;
    rewrite ?lookup_guarded_assign;
    repeat (rewrite bool_decide_eq_false_2 by discriminate);
    rewrite ?andb_false_r;
    unfold object_literal; cbn [foldl fst snd]; by simplify_map_eq.
Qed.


(** X5. [getFollowRequests] and [getSuggestions] pass a parameter object
    only when [limit] is truthy, and then it holds [limit] alone; with a
    falsy [limit] they call the client with the path alone.  The paginated
    getters [getEndorsements], [getBookmarks] and [getScheduledStatuses]
    pass a parameter object whatever their arguments are, and it is empty
    exactly when every argument is falsy. *)
Theorem limit_only_getters (c : APIClient) (limit : value) :
  request_of c (Call_getFollowRequests limit)
    = Some {| via := c; method := GET; path := "/api/v1/follow_requests";
              params := if truthy limit then Some {[ "limit" := limit ]} else None |}
  /\ request_of c (Call_getSuggestions limit)
    = Some {| via := c; method := GET; path := "/api/v1/suggestions";
              params := if truthy limit then Some {[ "limit" := limit ]} else None |}
  /\ (forall max_id since_id min_id : value,
       (exists ps : obj,
          request_of c (Call_getEndorsements limit max_id since_id)
          = Some {| via := c; method := GET; path := "/api/v1/endorsements";
                    params := Some ps |}
          /\ (ps = ∅ <-> truthy limit = false /\ truthy max_id = false
                          /\ truthy since_id = false))
       /\ (exists ps : obj,
            request_of c (Call_getBookmarks limit max_id since_id min_id)
            = Some {| via := c; method := GET; path := "/api/v1/bookmarks";
                      params := Some ps |}
            /\ (ps = ∅ <-> truthy limit = false /\ truthy max_id = false
                            /\ truthy since_id = false /\ truthy min_id = false))
       /\ (exists ps : obj,
            request_of c (Call_getScheduledStatuses limit max_id since_id min_id)
            = Some {| via := c; method := GET; path := "/api/v1/scheduled_statuses";
                      params := Some ps |}
            /\ (ps = ∅ <-> truthy limit = false /\ truthy max_id = false
                            /\ truthy since_id = false /\ truthy min_id = false))).
Proof.
  split; [|split].
  - unfold request_of. cbn [invoke]. unfold getFollowRequests.
    destruct (truthy limit); cbn; [|done].
    unfold object_literal. cbn [foldl fst snd]. by rewrite insert_empty.
  - unfold request_of. cbn [invoke]. unfold getSuggestions.
    destruct (truthy limit); cbn; [|done].
    unfold object_literal. cbn [foldl fst snd]. by rewrite insert_empty.
  - intros max_id since_id min_id.
    repeat split; explicit_request; (eexists; split; [reflexivity|]);
      unfold object_literal, Object_assign; cbn [foldl fst snd];
      destruct (truthy limit), (truthy max_id), (truthy since_id);
      try destruct (truthy min_id);
      (split;
       [intros Hps; try (by apply (f_equal size) in Hps; vm_compute in Hps);
        by repeat split
       |intros Hf; first [reflexivity | exfalso; clear -Hf; naive_solver]]).
Qed.


(** X7. [createFilter] and [updateFilter] send the same HTTP method and the
    same parameters for the same arguments; their requests differ in the
    path alone. *)
Theorem createFilter_updateFilter_same_body
    (c : APIClient) (id : string)
    (phrase context irreversible whole_word expires_in : value) :
  exists ps : obj,
    request_of c (Call_createFilter phrase context irreversible whole_word expires_in)
    = Some {| via := c; method := POST; path := "/api/v1/filters"; params := Some ps |}
    /\ request_of c
         (Call_updateFilter id phrase context irreversible whole_word expires_in)
    = Some {| via := c; method := POST; path := "/api/v1/filters/" +:+ id;
              params := Some ps |}
    /\ "/api/v1/filters/" +:+ id <> "/api/v1/filters".
Proof.
  eexists. split; [reflexivity|]. split; [reflexivity|].
  intros Heq. apply (f_equal String.length) in Heq.
  rewrite length_append in Heq. cbn [String.length] in Heq. lia.
Qed.

(** X8. All request paths of the instance methods begin with [/api/v1/],
    whatever the id spliced into them. *)
Theorem paths_under_api_v1 (c : APIClient) (i : invocation) :
  exists r : request,
    request_of c i = Some r /\ String.prefix "/api/v1/" (path r) = true.
Proof.
  destruct i; the_request; (eexists; split; reflexivity).
Qed.

(** X9. In [postStatus] the key [media_ids] is sent exactly when the array
    is given and not empty.  The key [poll] is sent exactly when [poll] is
    truthy, and then holds a new object that always has the keys [options]
    and [expires_in], read from [poll] ([undefined] when [poll] lacks
    them), and has [multiple] and [hide_totals] only when they are truthy
    in [poll]; no other key of [poll] is passed on. *)
Theorem postStatus_media_and_poll
    (status : value) (media_ids : option (list string))
    (poll in_reply_to_id sensitive spoiler_text visibility scheduled_at language : value)
    (w : world) :
  let ps := sent_params (postStatus status media_ids poll in_reply_to_id sensitive
                           spoiler_text visibility scheduled_at language) w in
  ps !! "media_ids" =
    match media_ids with
    | Some (x :: l) => Some (VArr (VStr <$> x :: l))
    | _ => None
    end
  /\ match ps !! "poll" with
     | None => truthy poll = false
     | Some (VObj pp) =>
         truthy poll = true
         /\ pp !! "options" = Some (get_prop poll "options")
         /\ pp !! "expires_in" = Some (get_prop poll "expires_in")
         /\ pp !! "multiple" =
              (if truthy (get_prop poll "multiple")
               then Some (get_prop poll "multiple") else None)
         /\ pp !! "hide_totals" =
              (if truthy (get_prop poll "hide_totals")
               then Some (get_prop poll "hide_totals") else None)
         /\ dom pp ⊆ {[ "options"; "expires_in"; "multiple"; "hide_totals" ]}
     | Some _ => False
     end.
Proof.
  intros ps. subst ps. unfold postStatus. read_params. split.
  - by destruct media_ids as [[|x l]|].
  - destruct (truthy poll); [|done].
    rewrite !lookup_guarded_assign.
    repeat (rewrite bool_decide_eq_false_2 by discriminate).
    repeat (rewrite bool_decide_eq_true_2 by reflexivity).
    rewrite ?andb_false_r, ?andb_true_r.
    unfold object_literal. cbn [foldl fst snd].
    split; [done|]. split; [by simplify_map_eq|]. split; [by simplify_map_eq|].
    split; [by simplify_map_eq|]. split; [by simplify_map_eq|].
    repeat (apply dom_guarded_assign; [set_solver|]).
    rewrite !dom_insert_L, dom_empty_L. set_solver.
Qed.

(** X10. An id is spliced into the path as it is, without escaping: the
    getter of a sub-resource sends the very request that the getter of the
    resource sends for the id followed by the sub-resource's name. *)
Theorem id_is_spliced_verbatim (c : APIClient) (id : string) :
  request_of c (Call_getAccount (id +:+ "/statuses"))
    = request_of c (Call_getAccountStatuses id)
  /\ request_of c (Call_getAccount (id +:+ "/lists"))
    = request_of c (Call_getAccountLists id)
  /\ request_of c (Call_getAccount (id +:+ "/identity_proofs"))
    = request_of c (Call_getIdentifyProof id)
  /\ request_of c (Call_getStatus (id +:+ "/context"))
    = request_of c (Call_getStatusContext id)
  /\ request_of c (Call_getStatus (id +:+ "/reblogged_by"))
    = request_of c (Call_getStatusRebloggedBy id)
  /\ request_of c (Call_getStatus (id +:+ "/favourited_by"))
    = request_of c (Call_getStatusFavouritedBy id)
  /\ request_of c (Call_unfollowAccount (id +:+ "/../" +:+ id))
    = Some {| via := c; method := POST;
              path := "/api/v1/accounts/" +:+ id +:+ "/../" +:+ id +:+ "/unfollow";
              params := None |}.
Proof.
  unfold request_of. cbn [invoke].
  unfold getAccount, getAccountStatuses, getAccountLists, getIdentifyProof,
    getStatus, getStatusContext, getStatusRebloggedBy, getStatusFavouritedBy,
    unfollowAccount, client_get, client_post, client_call.
  cbn [snd wire this client app last].
  rewrite <- !append_assoc. by repeat split.
Qed.

(** X11. Each of the paginated getters with four optional arguments sends
    one key for each truthy argument and no other key. *)
Theorem paginated_getters_key_count
    (id : string) (limit max_id since_id min_id : value) (w : world) :
  let truthy_among (vs : list value) := length (filter (fun v => truthy v = true) vs) in
  size (sent_params (getBookmarks limit max_id since_id min_id) w)
    = truthy_among [limit; max_id; since_id; min_id]
  /\ size (sent_params (getScheduledStatuses limit max_id since_id min_id) w)
    = truthy_among [limit; max_id; since_id; min_id]
  /\ size (sent_params (getAccountFollowers id limit max_id since_id) w)
    = truthy_among [limit; max_id; since_id]
  /\ size (sent_params (getAccountFollowing id limit max_id since_id) w)
    = truthy_among [limit; max_id; since_id]
  /\ size (sent_params (getEndorsements limit max_id since_id) w)
    = truthy_among [limit; max_id; since_id]
  /\ size (sent_params (getFavourites limit min_id max_id) w)
    = truthy_among [limit; min_id; max_id]
  /\ size (sent_params (getMutes limit max_id min_id) w)
    = truthy_among [limit; max_id; min_id].
Proof.
  intros truthy_among. subst truthy_among. cbv beta.
  unfold getBookmarks, getScheduledStatuses, getAccountFollowers,
    getAccountFollowing, getEndorsements, getFavourites, getMutes,
    client_get.
  cbv zeta. rewrite !sent_params_client_call, !filter_cons, !filter_nil.
  destruct (truthy limit), (truthy max_id), (truthy since_id), (truthy min_id);
    repeat split; by vm_compute.
Qed.

(** The path of a call is its documented template with the id filled in. *)
Lemma path_follows_doc (c : APIClient) (i : invocation) :
  exists (r : request) (v : verb) (tpl : string),
    request_of c i = Some r
    /\ parse_endpoint (doc_line i) = Some (v, tpl)
    /\ has_id tpl = bool_decide (is_Some (id_arg i))
    /\ path r = subst_id tpl (default "" (id_arg i)).
Proof.
  destruct i; the_request;
    (eexists _, _, _; split; [reflexivity|]; split;
     [vm_compute; reflexivity|]; split; [reflexivity|];
     cbn [path default from_option id_arg doc_line subst_id];
     rewrite ?append_empty_r; reflexivity).
Qed.

(** X12. The id can be read back from the path: two calls whose doc
    comments name the same endpoint and whose requests have the same path
    were made with the same id. *)
Theorem same_endpoint_same_path_same_id (c : APIClient) (i j : invocation) :
  doc_line i = doc_line j ->
  path <$> request_of c i = path <$> request_of c j ->
  id_arg i = id_arg j.
Proof.
  intros Hdoc Hpath.
  destruct (path_follows_doc c i) as (ri & vi & tpli & Hri & Hpi & Hidi & Hpathi).
  destruct (path_follows_doc c j) as (rj & vj & tplj & Hrj & Hpj & Hidj & Hpathj).
  rewrite Hri, Hrj in Hpath. rewrite <- Hdoc, Hpi in Hpj.
  injection Hpj as <- <-. injection Hpath as Hpath.
  rewrite Hpathi, Hpathj in Hpath. rewrite Hidi in Hidj.
  clear Hdoc Hri Hrj Hpathi Hpathj Hidi ri rj.
  destruct (id_arg j) as [b|]; destruct (id_arg i) as [a|] eqn:Ha;
    try discriminate Hidj; [|reflexivity].
  f_equal. clear Hidj. cbn [default from_option Datatypes.id] in Hpath.
  destruct i; vm_compute in Hpi; injection Hpi as <- <-; try discriminate Ha;
    cbn [subst_id] in Hpath;
    repeat match type of Hpath with
           | String _ _ = String _ _ => injection Hpath as Hpath
           end;
    rewrite ?append_empty_r in Hpath;
    first [exact Hpath | by eapply append_inv_r].
Qed.

(** Two [getAccountFollowers] calls that differ in their paging arguments
    and go to one path were made for one account. *)
Lemma same_endpoint_same_path_same_id_witness :
  Call_getAccountFollowers "109" (VNum 10) VUndefined VUndefined
    <> Call_getAccountFollowers "109" VUndefined (VStr "7") VUndefined
  /\ doc_line (Call_getAccountFollowers "109" (VNum 10) VUndefined VUndefined)
     = doc_line (Call_getAccountFollowers "109" VUndefined (VStr "7") VUndefined)
  /\ path <$> request_of sample_client
                (Call_getAccountFollowers "109" (VNum 10) VUndefined VUndefined)
     = path <$> request_of sample_client
                  (Call_getAccountFollowers "109" VUndefined (VStr "7") VUndefined)
  /\ id_arg (Call_getAccountFollowers "109" (VNum 10) VUndefined VUndefined)
     = id_arg (Call_getAccountFollowers "109" VUndefined (VStr "7") VUndefined).
Proof.
  split; [discriminate|]. split; [reflexivity|].
  split; [vm_compute; reflexivity|].
  apply (same_endpoint_same_path_same_id sample_client
           (Call_getAccountFollowers "109" (VNum 10) VUndefined VUndefined)
           (Call_getAccountFollowers "109" VUndefined (VStr "7") VUndefined));
    [reflexivity|vm_compute; reflexivity].
Defined.

End MastodonExtras.
